(** * Authentication and session engine of the storefront

    A shallow embedding of the administrator page script (key derivation,
    lockout, session and login code) and of the customer page script
    (pbkdf2, signupUser, loginUser and the customer session code), with
    the properties of the engine proved over it.

    Conventions.
    - A JavaScript string is the list of its UTF-16 code units
      ([jsstring]); [===] on strings is equality of these lists and
      [.length] is the length of the list.
    - A JavaScript number that holds a count or a time stamp is an
      integer of [Z]; all of them stay far below 2^53, where doubles
      are exact.
    - A [Uint8Array] is a [list byte].
    - [localStorage] is restricted to the keys the two scripts use; each
      key holds the JSON of an object of the shape the scripts write
      under it.
    - [Date.now()] reads the [clock] of the world; an [await] of a key
      derivation lets the clock advance.
    - The platform's PBKDF2, UTF-8 encoder and [toLowerCase] are
      variables of the section [Engine]; [crypto.getRandomValues] and
      [Math.random] results are arguments of the function that draws
      them. *)

From Stdlib Require Import ZArith NArith List Bool Lia.
From Stdlib Require Import Strings.Byte String Ascii DecimalString.
From Stdlib Require DecimalPos DecimalZ.
Import ListNotations.

Local Open Scope Z_scope.

(* ===================================================================== *)
(** ** JavaScript strings *)
(* ===================================================================== *)

Definition jsstring := list N.

(** The code units of an ASCII literal of the source. *)
Definition lit (s : string) : jsstring :=
  map N_of_ascii (list_ascii_of_string s).

Fixpoint str_eqb (a b : jsstring) : bool :=
  match a, b with
  | [], [] => true
  | x :: a', y :: b' => N.eqb x y && str_eqb a' b'
  | _, _ => false
  end.

(** [!s] on a string: the empty string is the only falsy one. *)
Definition str_falsy (s : jsstring) : bool :=
  match s with [] => true | _ => false end.

(** [/[A-Za-z]/] and [/\d/] on one code unit. *)
Definition is_alpha (c : N) : bool :=
  ((65 <=? c) && (c <=? 90) || (97 <=? c) && (c <=? 122))%N.

Definition is_digit (c : N) : bool := ((48 <=? c) && (c <=? 57))%N.

(** [re.test(s)] for a one-character class: some code unit matches. *)
Definition regex_test (cls : N -> bool) (s : jsstring) : bool :=
  existsb cls s.

(** Template-literal rendering of an integer. *)
Definition decimal (z : Z) : jsstring :=
  lit (NilZero.string_of_int (Z.to_int z)).

(* ===================================================================== *)
(** ** Bytes, hexadecimal and base64 *)
(* ===================================================================== *)

Definition bytes := list byte.

Definition byte_of (n : N) : byte :=
  match Byte.of_N n with Some b => b | None => x00 end.

(** [b.toString(16).padStart(2,'0')] *)
Definition hexdigit (n : N) : N := (if n <? 10 then 48 + n else 87 + n)%N.

Definition hex2 (b : byte) : jsstring :=
  let n := Byte.to_N b in [hexdigit (n / 16); hexdigit (n mod 16)]%N.

(** The base64 alphabet: a sextet to its code unit, and back. *)
Definition b64char (n : N) : N :=
  (if n <? 26 then 65 + n
   else if n <? 52 then 71 + n
   else if n <? 62 then n - 4
   else if n =? 62 then 43 else 47)%N.

Definition b64val (c : N) : option N :=
  (if (65 <=? c) && (c <=? 90) then Some (c - 65)
   else if (97 <=? c) && (c <=? 122) then Some (c - 71)
   else if (48 <=? c) && (c <=? 57) then Some (c + 4)
   else if c =? 43 then Some 62
   else if c =? 47 then Some 63
   else None)%N.

Definition pad : N := 61%N.

Definition enc3 (x y z : N) : jsstring :=
  [b64char (x / 4); b64char ((x mod 4) * 16 + y / 16);
   b64char ((y mod 16) * 4 + z / 64); b64char (z mod 64)]%N.

(** [btoa(String.fromCharCode(...new Uint8Array(arrBuf)))] *)
Fixpoint toBase64 (bs : bytes) : jsstring :=
  match bs with
  | [] => []
  | [a] =>
      let x := Byte.to_N a in
      [b64char (x / 4); b64char ((x mod 4) * 16); pad; pad]%N
  | [a; b] =>
      let x := Byte.to_N a in
      let y := Byte.to_N b in
      [b64char (x / 4); b64char ((x mod 4) * 16 + y / 16);
       b64char ((y mod 16) * 4); pad]%N
  | a :: b :: c :: rest =>
      enc3 (Byte.to_N a) (Byte.to_N b) (Byte.to_N c) ++ toBase64 rest
  end.

(** Decoding of the sextets of one group. *)
Definition dec2 (p q : N) : bytes := [byte_of (p * 4 + q / 16)]%N.

Definition dec3 (p q r : N) : bytes :=
  [byte_of (p * 4 + q / 16); byte_of ((q mod 16) * 16 + r / 4)]%N.

Definition dec4 (p q r s : N) : bytes :=
  [byte_of (p * 4 + q / 16); byte_of ((q mod 16) * 16 + r / 4);
   byte_of ((r mod 4) * 64 + s)]%N.

Definition vals2 (a b : N) : option bytes :=
  match b64val a, b64val b with
  | Some p, Some q => Some (dec2 p q)
  | _, _ => None
  end.

Definition vals3 (a b c : N) : option bytes :=
  match b64val a, b64val b, b64val c with
  | Some p, Some q, Some r => Some (dec3 p q r)
  | _, _, _ => None
  end.

Definition vals4 (a b c d : N) : option bytes :=
  match b64val a, b64val b, b64val c, b64val d with
  | Some p, Some q, Some r, Some s => Some (dec4 p q r s)
  | _, _, _, _ => None
  end.

(** The decoder of [atob] on a string without white space: groups of
    four characters, the last group padded with one or two [=] or cut
    short to three or two characters; a lone last character or a
    character outside the alphabet makes [atob] throw ([None]). *)
Fixpoint atob_groups (s : jsstring) : option bytes :=
  match s with
  | [] => Some []
  | [_] => None
  | [a; b] => vals2 a b
  | [a; b; c] => vals3 a b c
  | a :: b :: c :: d :: rest =>
      match rest with
      | [] =>
          if (d =? pad)%N then
            if (c =? pad)%N then vals2 a b else vals3 a b c
          else vals4 a b c d
      | _ :: _ =>
          match vals4 a b c d, atob_groups rest with
          | Some x, Some r => Some (x ++ r)
          | _, _ => None
          end
      end
  end.

(** ASCII white space, which [atob] removes first. *)
Definition is_ws (c : N) : bool :=
  ((c =? 9) || (c =? 10) || (c =? 12) || (c =? 13) || (c =? 32))%N.

(** [Uint8Array.from(atob(b64), c => c.charCodeAt(0))] *)
Definition fromBase64 (b64 : jsstring) : option bytes :=
  atob_groups (filter (fun c => negb (is_ws c)) b64).

(* ===================================================================== *)
(** ** Persisted records *)
(* ===================================================================== *)

(** [{ salt, iterations, hash }]: what [hashPassword] returns and what
    the customer record keeps under [pass]. *)
Record Hashed := mkHashed {
  h_salt : jsstring;
  h_iterations : Z;
  h_hash : jsstring
}.

(** The administrator's credential record,
    [{ email, ...hp, createdAt, version }]. *)
Record Auth := mkAuth {
  auth_email : jsstring;
  auth_salt : jsstring;
  auth_iterations : Z;
  auth_hash : jsstring;
  auth_createdAt : Z;
  auth_version : Z
}.

(** [{ count, lockUntil }] *)
Record Lockout := mkLockout {
  count : Z;
  lockUntil : Z
}.

(** The administrator's session. *)
Record Session := mkSession {
  token : jsstring;
  sess_email : jsstring;
  createdAt : Z;
  expiresAt : Z;
  lastActivity : Z
}.

(** A customer of [usersDB]. *)
Record User := mkUser {
  user_id : jsstring;
  user_name : jsstring;
  user_email : jsstring;
  user_phone : jsstring;
  user_address : jsstring;
  user_pass : Hashed
}.

(** The customer's session, [{ uid, email, createdAt, expiresAt }]. *)
Record UserSession := mkUserSession {
  uid : jsstring;
  us_email : jsstring;
  us_createdAt : Z;
  us_expiresAt : Z
}.

Record Profile := mkProfile {
  p_name : jsstring;
  p_email : jsstring;
  p_phone : jsstring;
  p_address : jsstring;
  p_notes : jsstring
}.

(** An entry of the administrator's list of customers, key [users]. *)
Record AdminUser := mkAdminUser {
  au_id : jsstring;
  au_name : jsstring;
  au_email : jsstring;
  au_phone : jsstring;
  au_address : jsstring
}.

(* ===================================================================== *)
(** ** localStorage *)
(* ===================================================================== *)

Inductive Key :=
| AUTH_KEY          (* 'adminAuth' *)
| LOCKOUT_KEY       (* 'adminLockout' *)
| SESSION_KEY       (* 'adminSession' *)
| USER_DB_KEY       (* 'usersDB' *)
| USER_SESSION_KEY  (* 'userSession' *)
| PROFILE_KEY       (* 'profile' *)
| USERS_KEY.        (* 'users' *)

(** The shape of the value kept under each key. *)
Definition slot (k : Key) : Type :=
  match k with
  | AUTH_KEY => Auth
  | LOCKOUT_KEY => Lockout
  | SESSION_KEY => Session
  | USER_DB_KEY => list User
  | USER_SESSION_KEY => UserSession
  | PROFILE_KEY => Profile
  | USERS_KEY => list AdminUser
  end.

Record Storage := mkStorage {
  adminAuth : option Auth;
  adminLockout : option Lockout;
  adminSession : option Session;
  usersDB : option (list User);
  userSession : option UserSession;
  profile : option Profile;
  users : option (list AdminUser)
}.

Definition emptyStorage : Storage :=
  mkStorage None None None None None None None.

Definition getItem (k : Key) (s : Storage) : option (slot k) :=
  match k return option (slot k) with
  | AUTH_KEY => adminAuth s
  | LOCKOUT_KEY => adminLockout s
  | SESSION_KEY => adminSession s
  | USER_DB_KEY => usersDB s
  | USER_SESSION_KEY => userSession s
  | PROFILE_KEY => profile s
  | USERS_KEY => users s
  end.

(** Writing [Some v] is [setItem], writing [None] is [removeItem]. *)
Definition putItem (k : Key) (v : option (slot k)) (s : Storage) : Storage :=
  match k return option (slot k) -> Storage with
  | AUTH_KEY => fun v =>
      mkStorage v (adminLockout s) (adminSession s) (usersDB s)
                (userSession s) (profile s) (users s)
  | LOCKOUT_KEY => fun v =>
      mkStorage (adminAuth s) v (adminSession s) (usersDB s)
                (userSession s) (profile s) (users s)
  | SESSION_KEY => fun v =>
      mkStorage (adminAuth s) (adminLockout s) v (usersDB s)
                (userSession s) (profile s) (users s)
  | USER_DB_KEY => fun v =>
      mkStorage (adminAuth s) (adminLockout s) (adminSession s) v
                (userSession s) (profile s) (users s)
  | USER_SESSION_KEY => fun v =>
      mkStorage (adminAuth s) (adminLockout s) (adminSession s) (usersDB s)
                v (profile s) (users s)
  | PROFILE_KEY => fun v =>
      mkStorage (adminAuth s) (adminLockout s) (adminSession s) (usersDB s)
                (userSession s) v (users s)
  | USERS_KEY => fun v =>
      mkStorage (adminAuth s) (adminLockout s) (adminSession s) (usersDB s)
                (userSession s) (profile s) v
  end v.

(** One access to [localStorage]. *)
Inductive Access :=
| Get (k : Key)
| Set_ (k : Key)
| Remove (k : Key).

(* ===================================================================== *)
(** ** The world and its monad *)
(* ===================================================================== *)

Record World := mkWorld {
  items : Storage;      (* the content of localStorage *)
  clock : Z;            (* what Date.now() returns *)
  log : list Access     (* the accesses to localStorage so far *)
}.

(** A computation returns a value or throws, and leaves a world
    either way. *)
Inductive Result (A : Type) :=
| Ret (a : A) (w : World)
| Throw (w : World).

Arguments Ret {A} a w.
Arguments Throw {A} w.

Definition M (A : Type) := World -> Result A.

Definition ret {A} (a : A) : M A := fun w => Ret a w.

Definition throw {A} : M A := fun w => Throw w.

Definition bind {A B} (c : M A) (k : A -> M B) : M B :=
  fun w => match c w with
           | Ret a w' => k a w'
           | Throw w' => Throw w'
           end.

Notation "x <- c ;; k" := (bind c (fun x => k))
  (at level 61, c at next level, right associativity).
Notation "c ;; k" := (bind c (fun _ => k))
  (at level 61, right associativity).

(** A platform call that may throw. *)
Definition orThrow {A} (o : option A) : M A :=
  match o with Some a => ret a | None => throw end.

(** [Date.now()]. Time passes at an [await] and between two events:
    the readings of one synchronous stretch give the same stamp. *)
Definition Date_now : M Z := fun w => Ret (clock w) w.

(** Waiting [d] milliseconds for a promise. *)
Definition await (d : Z) : M unit :=
  fun w => Ret tt (mkWorld (items w) (clock w + d) (log w)).

Definition localStorage_getItem (k : Key) : M (option (slot k)) :=
  fun w => Ret (getItem k (items w))
               (mkWorld (items w) (clock w) (log w ++ [Get k])).

Definition localStorage_setItem (k : Key) (v : slot k) : M unit :=
  fun w => Ret tt (mkWorld (putItem k (Some v) (items w)) (clock w)
                           (log w ++ [Set_ k])).

Definition localStorage_removeItem (k : Key) : M unit :=
  fun w => Ret tt (mkWorld (putItem k None (items w)) (clock w)
                           (log w ++ [Remove k])).

(** [ls.get(key, fallback)]: [v ?? fallback]. *)
Definition ls_get (k : Key) (fallback : slot k) : M (slot k) :=
  v <- localStorage_getItem k ;;
  ret (match v with Some x => x | None => fallback end).

(** [ls.get(key, null)] *)
Definition ls_get_null (k : Key) : M (option (slot k)) :=
  localStorage_getItem k.

(** [ls.set(key, value)] *)
Definition ls_set (k : Key) (value : slot k) : M unit :=
  localStorage_setItem k value.

(** [x||0] on a number, [s||''] on a string and [x||120000]. *)
Definition or0 (x : Z) : Z := if x =? 0 then 0 else x.

Definition or_empty (s : jsstring) : jsstring :=
  if str_falsy s then [] else s.

Definition or_default (x dflt : Z) : Z := if x =? 0 then dflt else x.

(* ===================================================================== *)
(** ** Outcomes *)
(* ===================================================================== *)

Inductive Reason := locked | setup_required | invalid | weak | exists_.

(** [{ ok, reason?, user? }] *)
Record Outcome := mkOutcome {
  ok : bool;
  reason : option Reason;
  user : option User
}.

Definition ok_true : Outcome := mkOutcome true None None.
Definition failed (r : Reason) : Outcome := mkOutcome false (Some r) None.

(* ===================================================================== *)
(** ** Stand-ins for the platform, used to run the engine on examples *)
(* ===================================================================== *)

(** A key derivation that refuses a count of iterations below one, as
    the platform does, and otherwise mixes its three inputs. *)
Definition toyKDF (pw salt : bytes) (iterations : Z) : option bytes :=
  if iterations <=? 0 then None
  else Some (byte_of (Z.to_N (iterations mod 256)) :: salt ++ pw).

Definition toyEncode (s : jsstring) : bytes :=
  map (fun c => byte_of (c mod 256)%N) s.

Definition asciiLower (s : jsstring) : jsstring :=
  map (fun c => if ((65 <=? c) && (c <=? 90))%N then (c + 32)%N else c) s.

(** Data for the examples: an administrator record made with the
    stand-ins from the password [abcd1234]. *)
Definition demoSalt : bytes :=
  [x01; x02; x03; x04; x05; x06; x07; x08;
   x09; x0a; x0b; x0c; x0d; x0e; x0f; x10].

Definition demoEmail : jsstring := lit "admin@shop.in".

Definition demoPassword : jsstring := lit "abcd1234".

Definition demoKey : bytes :=
  match toyKDF (toyEncode demoPassword) demoSalt 150000 with
  | Some k => k
  | None => []
  end.

Definition demoAuth : Auth :=
  mkAuth demoEmail (toBase64 demoSalt) 150000 (toBase64 demoKey) 900 1.

(** A browser that holds this record and the lockout record [l], at
    time [t]. *)
Definition demoWorld (l : Lockout) (t : Z) : World :=
  mkWorld (putItem LOCKOUT_KEY (Some l)
             (putItem AUTH_KEY (Some demoAuth) emptyStorage)) t [].

(** A customer for the examples. *)
Definition demoUser : User :=
  mkUser (lit "user_1_abcd") (lit "Asha") (lit "Asha@Mail.in") (lit "98")
         (lit "Pune") (mkHashed (toBase64 demoSalt) 120000 (toBase64 demoKey)).

Definition demoUserWorld : World :=
  mkWorld (putItem USER_DB_KEY (Some [demoUser]) emptyStorage) 1000 [].

(* ===================================================================== *)
(** ** Seeding at page load *)
(* ===================================================================== *)

(** [!ls.get(key)]: nothing is stored under the key. What the two pages
    store under a key of [Storage] is an object or an array, which is
    never falsy. *)
Definition missing (k : Key) : M bool :=
  v <- localStorage_getItem k ;;
  ret (match v with Some _ => false | None => true end).

(** [seedIfNeeded()], once for each page. Both functions also test and
    seed [appConfig], [products] and [orders]; these three keys are not
    in [Storage], and the tests on them read and write no other key, so
    what is here is all that [seedIfNeeded] does to a [World]. *)
Module Admin.

Definition seedIfNeeded : M unit :=
  m <- missing USERS_KEY ;;
  if m then ls_set USERS_KEY [] else ret tt.

End Admin.

Module Customer.

Definition seedIfNeeded : M unit :=
  m <- missing PROFILE_KEY ;;
  (if m then
     ls_set PROFILE_KEY
       (mkProfile (lit "Default User") (lit "user@example.com")
                  (lit "+91 9999999999") (lit "Your City, State, Country")
                  [])
   else ret tt) ;;
  m <- missing USERS_KEY ;;
  if m then ls_set USERS_KEY [] else ret tt.

End Customer.

(* ===================================================================== *)
(** ** The engine *)
(* ===================================================================== *)

Section Engine.

(** PBKDF2 with HMAC-SHA-256 and a 256-bit output, as
    [crypto.subtle.importKey], [deriveKey] and [exportKey] compute it
    from the password bytes, the salt and the iteration count; [None]
    when the platform rejects the call. *)
Variable PBKDF2 : bytes -> bytes -> Z -> option bytes.

(** [TextEncoder.encode] *)
Variable toBytes : jsstring -> bytes.

(** [String.prototype.toLowerCase] *)
Variable toLowerCase : jsstring -> jsstring.

(* ------------------------------------------------------------------- *)
(** *** Administrator page: key derivation *)

(** [deriveKey(password, salt, iterations)]; the derivation takes [d]
    milliseconds. *)
Definition deriveKey (password : jsstring) (salt : bytes) (iterations : Z)
    (d : Z) : M bytes :=
  await d ;;
  orThrow (PBKDF2 (toBytes password) salt iterations).

(** [hashPassword(password, saltBytes, iterations)]; [rnd] is what
    [crypto.getRandomValues(new Uint8Array(16))] draws when no salt is
    passed. *)
Definition hashPassword (password : jsstring) (saltBytes : option bytes)
    (iterations : Z) (rnd : bytes) (d : Z) : M Hashed :=
  let salt := match saltBytes with Some s => s | None => rnd end in
  raw <- deriveKey password salt iterations d ;;
  ret (mkHashed (toBase64 salt) iterations (toBase64 raw)).

(** [verifyPassword(password, auth)] *)
Definition verifyPassword (password : jsstring) (auth : Auth) (d : Z)
    : M bool :=
  salt <- orThrow (fromBase64 (auth_salt auth)) ;;
  raw <- deriveKey password salt (auth_iterations auth) d ;;
  let compare := toBase64 raw in
  ret (str_eqb compare (auth_hash auth)).

Definition getAuth : M (option Auth) := ls_get_null AUTH_KEY.
Definition setAuth (v : Auth) : M unit := ls_set AUTH_KEY v.

(* ------------------------------------------------------------------- *)
(** *** Administrator page: lockout *)

Definition getLockout : M Lockout := ls_get LOCKOUT_KEY (mkLockout 0 0).
Definition setLockout (v : Lockout) : M unit := ls_set LOCKOUT_KEY v.
Definition resetLockout : M unit := setLockout (mkLockout 0 0).

Definition recordFailure : M unit :=
  now <- Date_now ;;
  state <- getLockout ;;
  let count' := or0 (count state) + 1 in
  let lockUntil0 := or0 (lockUntil state) in
  let lockUntil' :=
    if 5 <=? count' then
      let step := Z.min (count' - 4) 6 in
      now + step * 60 * 1000
    else lockUntil0 in
  setLockout (mkLockout count' lockUntil').

Definition isLockedOut : M bool :=
  st <- getLockout ;;
  now <- Date_now ;;
  ret (now <? or0 (lockUntil st)).

(** [!!getAuth()] *)
Definition hasAuth : M bool :=
  a <- getAuth ;;
  ret (match a with Some _ => true | None => false end).

(* ------------------------------------------------------------------- *)
(** *** Administrator page: session *)

Definition getSession : M (option Session) := ls_get_null SESSION_KEY.
Definition setSession (v : Session) : M unit := ls_set SESSION_KEY v.
Definition clearSession : M unit := localStorage_removeItem SESSION_KEY.

Definition isLoggedIn : M bool :=
  s <- getSession ;;
  match s with
  | None => ret false
  | Some s =>
      now <- Date_now ;;
      if or0 (expiresAt s) <? now then clearSession ;; ret false
      else ret true
  end.

(** [createToken()] on the sixteen bytes [rnd] that
    [crypto.getRandomValues] draws. *)
Definition createToken (rnd : bytes) : jsstring := flat_map hex2 rnd.

Definition refreshSession : M unit :=
  s <- getSession ;;
  match s with
  | None => ret tt
  | Some s =>
      e <- Date_now ;;
      l <- Date_now ;;
      let extended :=
        mkSession (token s) (sess_email s) (createdAt s)
                  (e + 30 * 60 * 1000) l in
      setSession extended
  end.

(* ------------------------------------------------------------------- *)
(** *** Administrator page: login, setup and logout *)

Definition login (email password : jsstring) (rnd : bytes) (d : Z)
    : M Outcome :=
  lockedOut <- isLockedOut ;;
  if lockedOut then ret (failed locked)
  else
    auth <- getAuth ;;
    match auth with
    | None => ret (failed setup_required)
    | Some auth =>
        v <- verifyPassword password auth d ;;
        if v && str_eqb email (auth_email auth) then
          resetLockout ;;
          c <- Date_now ;;
          e <- Date_now ;;
          l <- Date_now ;;
          setSession (mkSession (createToken rnd) email c
                                (e + 30 * 60 * 1000) l) ;;
          ret ok_true
        else
          recordFailure ;;
          ret (failed invalid)
    end.

(** The test of [setupAdmin]; a [jsstring] is of type ['string']. *)
Definition strong (password : jsstring) : bool :=
  (8 <=? Z.of_nat (List.length password))
  && regex_test is_alpha password
  && regex_test is_digit password.

Definition setupAdmin (email password : jsstring) (rnd : bytes) (d : Z)
    : M Outcome :=
  if negb (strong password) then ret (failed weak)
  else
    hp <- hashPassword password None 150000 rnd d ;;
    now <- Date_now ;;
    setAuth (mkAuth email (h_salt hp) (h_iterations hp) (h_hash hp) now 1) ;;
    resetLockout ;;
    ret ok_true.

Definition logout : M unit := clearSession.

(** The click handler that [wireLogin] puts on the login button, on
    the trimmed values of the two fields: the outcome of the last
    operation it calls, [None] when it calls none. [rs] and [rt] are
    the random bytes of the salt and of the token, [d1] and [d2] the
    durations of the derivations. *)
Definition loginClick (email pass : jsstring) (rs rt : bytes) (d1 d2 : Z)
    : M (option Outcome) :=
  if str_falsy email || str_falsy pass then ret None
  else
    h <- hasAuth ;;
    if negb h then
      res <- setupAdmin email pass rs d1 ;;
      if negb (ok res) then ret (Some res)
      else
        s <- login email pass rt d2 ;;
        ret (Some s)
    else
      res <- login email pass rt d1 ;;
      match reason res with
      | Some locked => st <- getLockout ;; ms <- Date_now ;; ret (Some res)
      | _ => ret (Some res)
      end.

(* ------------------------------------------------------------------- *)
(** *** Customer page *)

(** [generateId(prefix)]; [rnd] is
    [Math.random().toString(36).slice(2,6)]. *)
Definition generateId (prefix rnd : jsstring) : M jsstring :=
  now <- Date_now ;;
  ret (prefix ++ lit "_" ++ decimal now ++ lit "_" ++ rnd).

(** [pbkdf2(password, saltBytes, iterations)] *)
Definition pbkdf2 (password : jsstring) (saltBytes : bytes) (iterations : Z)
    (d : Z) : M jsstring :=
  await d ;;
  raw <- orThrow (PBKDF2 (toBytes password) saltBytes iterations) ;;
  ret (toBase64 raw).

Definition getUsersDB : M (list User) := ls_get USER_DB_KEY [].
Definition setUsersDB (db : list User) : M unit := ls_set USER_DB_KEY db.

(** [ls.get('profile', {})]: [None] stands for the empty object. *)
Definition getProfile : M (option Profile) := ls_get_null PROFILE_KEY.
Definition saveProfile (p : Profile) : M unit := ls_set PROFILE_KEY p.

Fixpoint findIndex {A} (p : A -> bool) (l : list A) : option nat :=
  match l with
  | [] => None
  | x :: l' =>
      if p x then Some O
      else match findIndex p l' with
           | Some i => Some (S i)
           | None => None
           end
  end.

(** [users[idx] = userObj] for an index within the array. *)
Fixpoint assign {A} (l : list A) (idx : nat) (x : A) : list A :=
  match l, idx with
  | [], _ => []
  | _ :: l', O => x :: l'
  | y :: l', S i => y :: assign l' i x
  end.

Definition upsertAdminUsers (name email phone address rnd : jsstring)
    : M unit :=
  us <- ls_get USERS_KEY [] ;;
  let idx :=
    findIndex (fun u =>
      str_eqb (or_empty (au_phone u)) (or_empty phone)
      || str_eqb (or_empty (au_email u)) (or_empty email)) us in
  match idx with
  | Some i =>
      let id := match nth_error us i with
                | Some u => au_id u
                | None => []
                end in
      ls_set USERS_KEY (assign us i (mkAdminUser id name email phone address))
  | None =>
      id <- generateId (lit "user") rnd ;;
      ls_set USERS_KEY (us ++ [mkAdminUser id name email phone address])
  end.

Definition getUserSession : M (option UserSession) :=
  ls_get_null USER_SESSION_KEY.
Definition setUserSession (v : UserSession) : M unit :=
  ls_set USER_SESSION_KEY v.
Definition clearUserSession : M unit :=
  localStorage_removeItem USER_SESSION_KEY.

Definition same_email (email : jsstring) (u : User) : bool :=
  str_eqb (toLowerCase (user_email u)) (toLowerCase email).

(** [signupUser({ name, email, phone, address, password })]; [rs] is
    the random salt, [r1] and [r2] the random parts of the two
    identifiers. *)
Definition signupUser (name email phone address password : jsstring)
    (rs : bytes) (r1 r2 : jsstring) (d : Z) : M Outcome :=
  db <- getUsersDB ;;
  if existsb (same_email email) db then ret (failed exists_)
  else
    let salt := rs in
    hash <- pbkdf2 password salt 120000 d ;;
    id <- generateId (lit "user") r1 ;;
    let user :=
      mkUser id name email phone address
             (mkHashed (toBase64 salt) 120000 hash) in
    setUsersDB (db ++ [user]) ;;
    saveProfile (mkProfile name email phone address []) ;;
    upsertAdminUsers name email phone address r2 ;;
    c <- Date_now ;;
    e <- Date_now ;;
    setUserSession (mkUserSession (user_id user) (user_email user) c
                                  (e + 30 * 60 * 1000)) ;;
    ret (mkOutcome true None (Some user)).

(** [loginUser(email, password)] *)
Definition loginUser (email password : jsstring) (r : jsstring) (d : Z)
    : M Outcome :=
  db <- getUsersDB ;;
  match find (same_email email) db with
  | None => ret (mkOutcome false None None)
  | Some user =>
      salt <- orThrow (fromBase64 (h_salt (user_pass user))) ;;
      calc <- pbkdf2 password salt
                (or_default (h_iterations (user_pass user)) 120000) d ;;
      if negb (str_eqb calc (h_hash (user_pass user)))
      then ret (mkOutcome false None None)
      else
        c <- Date_now ;;
        e <- Date_now ;;
        setUserSession (mkUserSession (user_id user) (user_email user) c
                                      (e + 30 * 60 * 1000)) ;;
        p <- getProfile ;;
        let notes := match p with
                     | Some p => or_empty (p_notes p)
                     | None => []
                     end in
        saveProfile (mkProfile (user_name user) (user_email user)
                               (user_phone user) (user_address user) notes) ;;
        upsertAdminUsers (user_name user) (user_email user)
                         (user_phone user) (user_address user) r ;;
        ret (mkOutcome true None (Some user))
  end.

Definition isUserLoggedIn : M bool :=
  s <- getUserSession ;;
  match s with
  | None => ret false
  | Some s => now <- Date_now ;; ret (now <? us_expiresAt s)
  end.

Definition refreshUserSession : M unit :=
  s <- getUserSession ;;
  match s with
  | None => ret tt
  | Some s =>
      e <- Date_now ;;
      setUserSession (mkUserSession (uid s) (us_email s) (us_createdAt s)
                                    (e + 30 * 60 * 1000))
  end.

(** The click handler of the sign-up button, on the trimmed values of
    the six fields. *)
Definition signupClick (name email phone address pass pass2 : jsstring)
    (rs : bytes) (r1 r2 : jsstring) (d : Z) : M (option Outcome) :=
  if str_falsy name || str_falsy email || str_falsy phone
     || str_falsy address || str_falsy pass || str_falsy pass2
  then ret None
  else if Z.of_nat (List.length pass) <? 8 then ret None
  else if negb (str_eqb pass pass2) then ret None
  else
    res <- signupUser name email phone address pass rs r1 r2 d ;;
    ret (Some res).

(** The click handler of the customer's login button. *)
Definition userLoginClick (email pass : jsstring) (r : jsstring) (d : Z)
    : M (option Outcome) :=
  if str_falsy email || str_falsy pass then ret None
  else
    res <- loginUser email pass r d ;;
    ret (Some res).

(** [requireAuthOnFirstVisit()], without its timer and its keep-alive:
    it asks [isUserLoggedIn()] once for the console and once for its
    test. *)
Definition requireAuthOnFirstVisit : M unit :=
  shown <- isUserLoggedIn ;;
  l <- isUserLoggedIn ;;
  ret tt.

(* ------------------------------------------------------------------- *)
(** *** The two pages as a transition system *)

(** What the user and the browser can make the two scripts do. *)
Inductive Event :=
| AdminClick (email pass : jsstring) (rs rt : bytes) (d1 d2 : Z)
| AdminLogout
| AdminPageLoad            (* init: seedIfNeeded(), isLoggedIn() *)
| AdminActivity            (* the keep-alive: refreshSession() *)
| SignupClick (name email phone address pass pass2 : jsstring)
              (rs : bytes) (r1 r2 : jsstring) (d : Z)
| UserLoginClick (email pass : jsstring) (r : jsstring) (d : Z)
| UserPageLoad             (* init: seedIfNeeded(),
                              requireAuthOnFirstVisit() *)
| UserActivity             (* the keep-alive: refreshUserSession() *)
| Tick (d : Z).            (* time passes *)

(** The world a computation leaves, whether it returns or throws. *)
Definition after {A} (r : Result A) : World :=
  match r with Ret _ w => w | Throw w => w end.

Definition value {A} (r : Result A) : option A :=
  match r with Ret a _ => Some a | Throw _ => None end.

(** What an event does to the world. At a page load it is what [init]
    does up to its test of the session; what [init] calls after that
    shows the page, and writes nothing to localStorage. *)
Definition exec (ev : Event) (w : World) : World :=
  match ev with
  | AdminClick email pass rs rt d1 d2 =>
      after (loginClick email pass rs rt d1 d2 w)
  | AdminLogout => after (logout w)
  | AdminPageLoad => after ((Admin.seedIfNeeded ;; isLoggedIn) w)
  | AdminActivity => after (refreshSession w)
  | SignupClick name email phone address pass pass2 rs r1 r2 d =>
      after (signupClick name email phone address pass pass2 rs r1 r2 d w)
  | UserLoginClick email pass r d => after (userLoginClick email pass r d w)
  | UserPageLoad =>
      after ((Customer.seedIfNeeded ;; requireAuthOnFirstVisit) w)
  | UserActivity => after (refreshUserSession w)
  | Tick d => after (await d w)
  end.

(** Time does not run backwards. *)
Definition forward (ev : Event) : Prop :=
  match ev with
  | AdminClick _ _ _ _ d1 d2 => 0 <= d1 /\ 0 <= d2
  | SignupClick _ _ _ _ _ _ _ _ _ d => 0 <= d
  | UserLoginClick _ _ _ d => 0 <= d
  | Tick d => 0 <= d
  | _ => True
  end.

(** The worlds the two pages reach from a browser whose storage is
    empty. *)
Inductive reachable : World -> Prop :=
| reach_init : forall t, reachable (mkWorld emptyStorage t [])
| reach_step : forall w ev,
    reachable w -> forward ev -> reachable (exec ev w).

(** A sequence of events, one after the other. *)
Definition run (evs : list Event) (w : World) : World :=
  fold_left (fun w ev => exec ev w) evs w.

(** Whether the event is an administrator login that succeeds. *)
Definition authenticates (ev : Event) (w : World) : bool :=
  match ev with
  | AdminClick email pass rs rt d1 d2 =>
      match value (loginClick email pass rs rt d1 d2 w) with
      | Some (Some o) => ok o
      | _ => false
      end
  | _ => false
  end.

(* ------------------------------------------------------------------- *)
(** *** Reading a storage *)

(** What [getLockout] finds. *)
Definition lockoutOf (s : Storage) : Lockout :=
  match adminLockout s with Some l => l | None => mkLockout 0 0 end.

(** The [lockUntil] that [isLockedOut] and [recordFailure] use. *)
Definition lockUntilOf (s : Storage) : Z := or0 (lockUntil (lockoutOf s)).

Definition countOf (s : Storage) : Z := or0 (count (lockoutOf s)).

(** The lockout window is active at the time of the clock. *)
Definition lockedAt (w : World) : bool := clock w <? lockUntilOf (items w).

(** The world [w] after the accesses [es] to localStorage. *)
Definition logged (es : list Access) (w : World) : World :=
  mkWorld (items w) (clock w) (log w ++ es).

(** The world [w] after writing [v] under [k]. *)
Definition written (k : Key) (v : slot k) (w : World) : World :=
  mkWorld (putItem k (Some v) (items w)) (clock w) (log w ++ [Set_ k]).

(** [w], [d] milliseconds later. *)
Definition later (d : Z) (w : World) : World :=
  mkWorld (items w) (clock w + d) (log w).

(** The session that [login] stores at time [t]. *)
Definition issued (rnd : bytes) (email : jsstring) (t : Z) : Session :=
  mkSession (createToken rnd) email t (t + 30 * 60 * 1000) t.

(** The value [verifyPassword] returns: it reads neither localStorage
    nor the clock. [None] when the stored salt is not base64 or the
    platform rejects the derivation. *)
Definition verifies (password : jsstring) (auth : Auth) : option bool :=
  value (verifyPassword password auth 0 (mkWorld emptyStorage 0 [])).

(** The world [w] after removing the key [k]. *)
Definition removed (k : Key) (w : World) : World :=
  mkWorld (putItem k None (items w)) (clock w) (log w ++ [Remove k]).

(** A world for the examples: the administrator's session [s] is the
    only thing in storage and the clock shows [t]. *)
Definition adminSessionAt (s : Session) (t : Z) : World :=
  mkWorld (putItem SESSION_KEY (Some s) emptyStorage) t [].

(** The same for a customer's session. *)
Definition userSessionAt (s : UserSession) (t : Z) : World :=
  mkWorld (putItem USER_SESSION_KEY (Some s) emptyStorage) t [].

(** The computation [c] leaves the part [f] of localStorage as it
    finds it, whether it returns or throws. *)
Definition keeps {A B} (f : Storage -> B) (c : M A) : Prop :=
  forall w, f (items (after (c w))) = f (items w).

(** The examples of an expired session: it expired at time 1000. *)
Definition staleSession : Session :=
  mkSession (lit "t") (lit "a@b.c") 0 1000 0.

Definition staleUserSession : UserSession :=
  mkUserSession (lit "u") (lit "a@b.c") 0 1000.

(** What [getUsersDB] finds. *)
Definition dbOf (s : Storage) : list User :=
  match usersDB s with Some db => db | None => [] end.

(** The customer that [signupUser] creates at time [t] from the salt
    [rs], the derived key [raw] and the random part [r1] of the
    identifier. *)
Definition newUser (name email phone address : jsstring) (rs raw : bytes)
    (r1 : jsstring) (t : Z) : User :=
  mkUser (lit "user" ++ lit "_" ++ decimal t ++ lit "_" ++ r1)
         name email phone address
         (mkHashed (toBase64 rs) 120000 (toBase64 raw)).

(** No lockout record is stored before a credential record is. *)
Definition lockout_follows_record (w : World) : Prop :=
  adminAuth (items w) = None -> adminLockout (items w) = None.

(* ------------------------------------------------------------------- *)
(** *** More readings of a world *)

(** A code unit of a lower-case hexadecimal digit. *)
Definition is_hex (c : N) : bool :=
  ((48 <=? c) && (c <=? 57) || (97 <=? c) && (c <=? 102))%N.

(** What [ls.get('users', [])] finds. *)
Definition usersOf (s : Storage) : list AdminUser :=
  match users s with Some l => l | None => [] end.

(** The test of [upsertAdminUsers]: the same phone or the same email. *)
Definition same_contact (phone email : jsstring) (u : AdminUser) : bool :=
  str_eqb (or_empty (au_phone u)) (or_empty phone)
  || str_eqb (or_empty (au_email u)) (or_empty email).

(** The keys an event may write. *)
Definition touched (ev : Event) : list Key :=
  match ev with
  | AdminClick _ _ _ _ _ _ => [AUTH_KEY; LOCKOUT_KEY; SESSION_KEY]
  | AdminLogout | AdminActivity => [SESSION_KEY]
  | AdminPageLoad => [USERS_KEY; SESSION_KEY]
  | SignupClick _ _ _ _ _ _ _ _ _ _ =>
      [USER_DB_KEY; PROFILE_KEY; USERS_KEY; USER_SESSION_KEY]
  | UserLoginClick _ _ _ _ => [PROFILE_KEY; USERS_KEY; USER_SESSION_KEY]
  | UserPageLoad => [PROFILE_KEY; USERS_KEY]
  | UserActivity => [USER_SESSION_KEY]
  | Tick _ => []
  end.


(** The computation [c] does not set the clock back. *)
Definition advances {A} (c : M A) : Prop :=
  forall w, clock w <= clock (after (c w)).

(** The lockout record is sound: a count that is not negative, no lock
    below five failures, and a lock that ends at most six minutes from
    now. *)
Definition lockout_well_formed (w : World) : Prop :=
  0 <= count (lockoutOf (items w))
  /\ (count (lockoutOf (items w)) < 5 -> lockUntil (lockoutOf (items w)) = 0)
  /\ (lockUntil (lockoutOf (items w)) = 0
      \/ lockUntil (lockoutOf (items w)) <= clock w + 6 * 60000).


(** The stored session of a customer is sound: it names a stored
    customer, lasts at least thirty minutes from its creation and ends
    at most thirty minutes from now. *)
Definition user_session_well_formed (w : World) : Prop :=
  forall s, userSession (items w) = Some s ->
    (exists u, In u (dbOf (items w))
               /\ user_id u = uid s /\ user_email u = us_email s)
    /\ us_createdAt s + 30 * 60 * 1000 <= us_expiresAt s
    /\ us_expiresAt s <= clock w + 30 * 60 * 1000.

(** No two stored customers have the same email, letter case apart. *)
Definition emails_distinct (w : World) : Prop :=
  NoDup (map (fun u => toLowerCase (user_email u)) (dbOf (items w))).

(* ------------------------------------------------------------------- *)
(** *** Orders and products *)

(** The two pages also keep the keys [orders] and [products]. A price
    is only ever copied; an integer stands for the number. *)
Record Product := mkProduct {
  prod_id : jsstring;
  prod_name : jsstring;
  prod_description : jsstring;
  prod_material : jsstring;
  prod_dimensions : jsstring;
  prod_price : Z;
  prod_categories : list jsstring;
  prod_image : jsstring
}.

Record ProductSnapshot := mkSnapshot {
  ps_name : jsstring;
  ps_price : Z;
  ps_image : jsstring;
  ps_material : jsstring;
  ps_dimensions : jsstring
}.

Record OrderUser := mkOrderUser {
  ou_name : jsstring;
  ou_address : jsstring;
  ou_phone : jsstring;
  ou_email : jsstring;
  ou_notes : jsstring
}.

Record Order := mkOrder {
  ord_id : jsstring;
  ord_userId : option jsstring;   (* [null] is [None] *)
  ord_productId : jsstring;
  ord_productSnapshot : ProductSnapshot;
  ord_user : OrderUser;
  ord_status : jsstring;
  ord_createdAt : Z
}.

(** The browser: the world of the engine and the two further keys. *)
Record Browser := mkBrowser {
  page : World;
  orders : option (list Order);
  products : option (list Product)
}.

Inductive BResult (A : Type) :=
| BRet (a : A) (b : Browser)
| BThrow (b : Browser).

Arguments BRet {A} a b.
Arguments BThrow {A} b.

Definition B (A : Type) := Browser -> BResult A.

Definition bret {A} (a : A) : B A := fun b => BRet a b.

Definition bthrow {A} : B A := fun b => BThrow b.

Definition bbind {A C} (c : B A) (k : A -> B C) : B C :=
  fun b => match c b with
           | BRet a b' => k a b'
           | BThrow b' => BThrow b'
           end.

(** A computation of the engine, run in the browser. *)
Definition lift {A} (c : M A) : B A :=
  fun b => match c (page b) with
           | Ret a w => BRet a (mkBrowser w (orders b) (products b))
           | Throw w => BThrow (mkBrowser w (orders b) (products b))
           end.

Definition bafter {A} (r : BResult A) : Browser :=
  match r with BRet _ b => b | BThrow b => b end.

Definition bvalue {A} (r : BResult A) : option A :=
  match r with BRet a _ => Some a | BThrow _ => None end.

(** [ls.get('orders', [])] and [ls.set('orders', v)] *)
Definition getOrders : B (list Order) :=
  fun b => BRet (match orders b with Some l => l | None => [] end) b.

Definition setOrders (v : list Order) : B unit :=
  fun b => BRet tt (mkBrowser (page b) (Some v) (products b)).

(** [ls.get('products', [])] *)
Definition loadProducts : B (list Product) :=
  fun b => BRet (match products b with Some l => l | None => [] end) b.

(** [o.status = status] *)
Definition set_status (o : Order) (status : jsstring) : Order :=
  mkOrder (ord_id o) (ord_userId o) (ord_productId o)
          (ord_productSnapshot o) (ord_user o) status (ord_createdAt o).

(** The administrator's [toggleOrderStatus(orderId)], without its
    message and its rendering. *)
Definition toggleOrderStatus (orderId : jsstring) : B unit :=
  bbind getOrders (fun orders =>
  match findIndex (fun o => str_eqb (ord_id o) orderId) orders with
  | Some idx =>
      match nth_error orders idx with
      | Some o =>
          setOrders
            (assign orders idx
               (set_status o
                  (if str_eqb (ord_status o) (lit "completed")
                   then lit "pending" else lit "completed")))
      | None => bret tt
      end
  | None => bret tt
  end).

(** What [getOrders] and [loadProducts] find. *)
Definition ordersOf (b : Browser) : list Order :=
  match orders b with Some l => l | None => [] end.

Definition productsOf (b : Browser) : list Product :=
  match products b with Some l => l | None => [] end.

(** Reading a [const] of the enclosing block before its declaration
    has run throws a [ReferenceError]. *)
Definition uninitialized {A} : B A := bthrow.

(** The customer's [submitOrder()], without its messages and its
    rendering, on the current product identifier and the trimmed values
    of the four fields; [r1] and [r2] are the random parts of the two
    identifiers. The object literal of the order reads [profile], which
    the function declares with [const] only after it has stored the
    order. *)
Definition submitOrder (currentOrderProductId : option jsstring)
    (name address phone notes r1 r2 : jsstring) : B unit :=
  match currentOrderProductId with
  | None => bret tt
  | Some pid =>
    if str_falsy pid then bret tt
    else if str_falsy name || str_falsy address || str_falsy phone
    then bret tt
    else
      bbind loadProducts (fun ps =>
      match find (fun p => str_eqb (prod_id p) pid) ps with
      | None => bret tt
      | Some product =>
        bbind (lift getUserSession) (fun session =>
        bbind (lift (generateId (lit "ord") r1)) (fun id =>
        let userId :=
          match session with
          | Some s => if str_falsy (uid s) then None else Some (uid s)
          | None => None
          end in
        bbind (@uninitialized (option Profile)) (fun profile =>
        let email := match profile with
                     | Some p => or_empty (p_email p)
                     | None => []
                     end in
        bbind (lift Date_now) (fun created =>
        let order :=
          mkOrder id userId (prod_id product)
            (mkSnapshot (prod_name product) (prod_price product)
                        (prod_image product) (prod_material product)
                        (prod_dimensions product))
            (mkOrderUser name address phone email notes)
            (lit "pending") created in
        bbind getOrders (fun os =>
        bbind (setOrders (os ++ [order])) (fun _ =>
        bbind (lift (ls_get USERS_KEY [])) (fun us =>
        bbind (lift getProfile) (fun profile =>
        let email := match profile with
                     | Some p => or_empty (p_email p)
                     | None => []
                     end in
        let existingIdx :=
          findIndex (fun u =>
            str_eqb (or_empty (au_phone u)) phone
            || str_eqb (or_empty (au_email u)) email) us in
        match existingIdx with
        | Some i =>
            let uid' := match nth_error us i with
                        | Some u => au_id u
                        | None => []
                        end in
            lift (ls_set USERS_KEY
                    (assign us i (mkAdminUser uid' name email phone address)))
        | None =>
            bbind (lift (generateId (lit "user") r2)) (fun uid' =>
            lift (ls_set USERS_KEY
                    (us ++ [mkAdminUser uid' name email phone address])))
        end))))))))
      end)
  end.


(* ------------------------------------------------------------------- *)
(** *** Regular expressions of the profile form *)

(** A regular expression over code units, with character classes. *)
Inductive regex :=
| Empty                          (* matches nothing *)
| Eps                            (* matches the empty string *)
| Class (p : N -> bool)          (* one code unit of the class *)
| Seq (r1 r2 : regex)
| Alt (r1 r2 : regex)
| Star (r : regex).

(** [r+], [r?], [r{n}], [r{0,n}] and [r{m,n}] *)
Definition Plus (r : regex) : regex := Seq r (Star r).

Definition Opt (r : regex) : regex := Alt r Eps.

Fixpoint times (r : regex) (n : nat) : regex :=
  match n with
  | O => Eps
  | S n' => Seq r (times r n')
  end.

Fixpoint upto (r : regex) (n : nat) : regex :=
  match n with
  | O => Eps
  | S n' => Opt (Seq r (upto r n'))
  end.

Definition Repeat (r : regex) (m n : nat) : regex :=
  Seq (times r m) (upto r (n - m)).

(** The strings a regular expression matches as a whole. *)
Inductive matches : regex -> jsstring -> Prop :=
| MEps : matches Eps []
| MClass : forall p c, p c = true -> matches (Class p) [c]
| MSeq : forall r1 r2 s1 s2,
    matches r1 s1 -> matches r2 s2 -> matches (Seq r1 r2) (s1 ++ s2)
| MAltL : forall r1 r2 s, matches r1 s -> matches (Alt r1 r2) s
| MAltR : forall r1 r2 s, matches r2 s -> matches (Alt r1 r2) s
| MStar0 : forall r, matches (Star r) []
| MStarS : forall r s1 s2,
    matches r s1 -> matches (Star r) s2 -> matches (Star r) (s1 ++ s2).

(** The matcher: derivatives, one code unit at a time. *)
Fixpoint nullable (r : regex) : bool :=
  match r with
  | Empty => false
  | Eps => true
  | Class _ => false
  | Seq r1 r2 => nullable r1 && nullable r2
  | Alt r1 r2 => nullable r1 || nullable r2
  | Star _ => true
  end.

Fixpoint deriv (c : N) (r : regex) : regex :=
  match r with
  | Empty => Empty
  | Eps => Empty
  | Class p => if p c then Eps else Empty
  | Seq r1 r2 =>
      Alt (Seq (deriv c r1) r2) (if nullable r1 then deriv c r2 else Empty)
  | Alt r1 r2 => Alt (deriv c r1) (deriv c r2)
  | Star r1 => Seq (deriv c r1) (Star r1)
  end.

(** A regular expression between [^] and [$], without flags. *)
Definition accepts (r : regex) (s : jsstring) : bool :=
  nullable (fold_left (fun r c => deriv c r) s r).

(** [re.test(s)] for a regular expression without anchors: some part of
    [s] matches. *)
Definition any_char : regex := Class (fun _ => true).

Definition test (r : regex) (s : jsstring) : bool :=
  accepts (Seq (Star any_char) (Seq r (Star any_char))) s.

(** [.]: any code unit but a line terminator. *)
Definition dot (c : N) : bool :=
  negb ((c =? 10) || (c =? 13) || (c =? 8232) || (c =? 8233))%N.

(** [\s]: white space and line terminators. *)
Definition is_space (c : N) : bool :=
  ((c =? 9) || (c =? 10) || (c =? 11) || (c =? 12) || (c =? 13)
   || (c =? 32) || (c =? 160) || (c =? 5760)
   || (8192 <=? c) && (c <=? 8202)
   || (c =? 8232) || (c =? 8233) || (c =? 8239) || (c =? 8287)
   || (c =? 12288) || (c =? 65279))%N.

(** [[\d\s-]] *)
Definition phone_char (c : N) : bool :=
  is_digit c || is_space c || (c =? 45)%N.

(** [validateEmail(v)]: [/.+@.+\..+/.test(v)] *)
Definition validateEmail (v : jsstring) : bool :=
  test (Seq (Plus (Class dot))
         (Seq (Class (N.eqb 64))
           (Seq (Plus (Class dot))
             (Seq (Class (N.eqb 46))
               (Plus (Class dot)))))) v.

(** [validatePhone(v)]: [/^\+?\d[\d\s-]{9,14}$/.test(v)] *)
Definition validatePhone (v : jsstring) : bool :=
  accepts (Seq (Opt (Class (N.eqb 43)))
            (Seq (Class is_digit)
              (Repeat (Class phone_char) 9 14))) v.

(** The click handler of the save button of the profile form, on the
    trimmed values of the five fields, without its message and its
    rendering. *)
Definition saveProfileClick (name email phone address notes rnd : jsstring)
    : M unit :=
  if str_falsy name || negb (validateEmail email)
     || negb (validatePhone phone) || str_falsy address
  then ret tt
  else
    saveProfile (mkProfile name email phone address notes) ;;
    upsertAdminUsers name email phone address rnd.

(* ------------------------------------------------------------------- *)
(** *** Searching the products *)

(** [s.startsWith(q)] and [s.includes(q)] *)
Fixpoint starts_with (s q : jsstring) : bool :=
  match q, s with
  | [], _ => true
  | c :: q', d :: s' => (c =? d)%N && starts_with s' q'
  | _ :: _, [] => false
  end.

Fixpoint includes (s q : jsstring) : bool :=
  starts_with s q
  || match s with
     | [] => false
     | _ :: s' => includes s' q
     end.

(** [s.trim()]: white space and line terminators go, at both ends. *)
Fixpoint trimStart (s : jsstring) : jsstring :=
  match s with
  | c :: s' => if is_space c then trimStart s' else s
  | [] => []
  end.

Definition trim (s : jsstring) : jsstring :=
  rev (trimStart (rev (trimStart s))).

(** The test of [searchProducts] on one product. *)
Definition product_matches (q : jsstring) (p : Product) : bool :=
  let inName := includes (toLowerCase (prod_name p)) q in
  let inMaterial := includes (toLowerCase (or_empty (prod_material p))) q in
  let inCat :=
    existsb (fun c => includes (toLowerCase c) q) (prod_categories p) in
  inName || inMaterial || inCat.

(** The customer's [searchProducts(query)] *)
Definition searchProducts (query : jsstring) : B (list Product) :=
  let q := toLowerCase (trim (or_empty query)) in
  if str_falsy q then loadProducts
  else bbind loadProducts (fun ps => bret (filter (product_matches q) ps)).

(* ------------------------------------------------------------------- *)
(** *** Data for the examples of orders and products *)

Definition demoOrder : Order :=
  mkOrder (lit "ord_1_aaaa") None (lit "prod_1_bbbb")
          (mkSnapshot (lit "Shiva Marble Idol") 12000 [] (lit "Marble")
                      (lit "24in"))
          (mkOrderUser (lit "Asha") (lit "Pune") (lit "9876543210") [] [])
          (lit "pending") 1000.

Definition demoProduct : Product :=
  mkProduct (lit "prod_1_bbbb") (lit "Shiva Marble Idol") (lit "Idol")
            (lit "Marble") (lit "24in") 12000 [lit "God Idols"; lit "Marble"]
            [].

Definition demoBrowser : Browser :=
  mkBrowser (mkWorld emptyStorage 1000 []) (Some [demoOrder])
            (Some [demoProduct]).

(* =================================================================== *)
(** ** Properties *)
(* =================================================================== *)

(* ------------------------------------------------------------------- *)
(** *** Strings *)

Lemma str_eqb_eq (a b : jsstring) : str_eqb a b = true <-> a = b.
Proof.
  revert b; induction a as [|x a IH]; intros [|y b]; simpl;
    try (split; [discriminate | discriminate]); try tauto.
  rewrite andb_true_iff, N.eqb_eq, IH.
  split; [intros [-> ->]; reflexivity | intros H; inversion H; auto].
Qed.

Lemma str_eqb_refl (a : jsstring) : str_eqb a a = true.
Proof. apply str_eqb_eq; reflexivity. Qed.

Lemma str_eqb_neq (a b : jsstring) : str_eqb a b = false <-> a <> b.
Proof.
  rewrite <- str_eqb_eq. destruct (str_eqb a b); split; congruence.
Qed.

(* ------------------------------------------------------------------- *)
(** *** Base64: decoding undoes encoding *)

Ltac divmod := zify; Z.to_euclidean_division_equations; lia.

Lemma byte_of_to_N (b : byte) : byte_of (Byte.to_N b) = b.
Proof. unfold byte_of. rewrite Byte.of_to_N. reflexivity. Qed.

Lemma to_N_lt (b : byte) : (Byte.to_N b < 256)%N.
Proof. pose proof (Byte.to_N_bounded b). lia. Qed.

Lemma b64val_char (n : N) : (n < 64)%N -> b64val (b64char n) = Some n.
Proof.
  intros Hn. unfold b64char, b64val.
  repeat match goal with
         | |- context [(?a <? ?b)%N] => destruct (N.ltb_spec a b)
         | |- context [(?a =? ?b)%N] => destruct (N.eqb_spec a b)
         | |- context [(?a <=? ?b)%N] => destruct (N.leb_spec a b)
         end; cbn [andb]; try (f_equal; lia); try lia.
Qed.

Lemma b64char_not_pad (n : N) : (b64char n =? pad)%N = false.
Proof.
  apply N.eqb_neq. unfold b64char, pad.
  repeat match goal with
         | |- context [(?a <? ?b)%N] => destruct (N.ltb_spec a b)
         | |- context [(?a =? ?b)%N] => destruct (N.eqb_spec a b)
         end; lia.
Qed.

Lemma b64char_not_ws (n : N) : is_ws (b64char n) = false.
Proof.
  unfold is_ws, b64char.
  destruct (N.ltb_spec n 26); [|destruct (N.ltb_spec n 52);
    [|destruct (N.ltb_spec n 62); [|destruct (N.eqb_spec n 62)]]];
  repeat match goal with
         | |- context [(?a =? ?b)%N] => destruct (N.eqb_spec a b)
         end; cbn [orb]; try reflexivity; lia.
Qed.

Lemma vals4_enc3 (a b c : byte) :
  match enc3 (Byte.to_N a) (Byte.to_N b) (Byte.to_N c) with
  | [p; q; r; s] => vals4 p q r s = Some [a; b; c]
  | _ => False
  end.
Proof.
  pose proof (to_N_lt a) as Ha. pose proof (to_N_lt b) as Hb.
  pose proof (to_N_lt c) as Hc.
  unfold enc3, vals4.
  rewrite !b64val_char by divmod.
  unfold dec4.
  replace (Byte.to_N a / 4 * 4
           + (Byte.to_N a mod 4 * 16 + Byte.to_N b / 16) / 16)%N
    with (Byte.to_N a) by divmod.
  replace ((Byte.to_N a mod 4 * 16 + Byte.to_N b / 16) mod 16 * 16
           + (Byte.to_N b mod 16 * 4 + Byte.to_N c / 64) / 4)%N
    with (Byte.to_N b) by divmod.
  replace ((Byte.to_N b mod 16 * 4 + Byte.to_N c / 64) mod 4 * 64
           + Byte.to_N c mod 64)%N
    with (Byte.to_N c) by divmod.
  rewrite !byte_of_to_N. reflexivity.
Qed.

Lemma vals3_enc2 (a b : byte) :
  vals3 (b64char (Byte.to_N a / 4))
        (b64char (Byte.to_N a mod 4 * 16 + Byte.to_N b / 16))
        (b64char (Byte.to_N b mod 16 * 4)) = Some [a; b].
Proof.
  pose proof (to_N_lt a) as Ha. pose proof (to_N_lt b) as Hb.
  unfold vals3. rewrite !b64val_char by divmod. unfold dec3.
  replace (Byte.to_N a / 4 * 4
           + (Byte.to_N a mod 4 * 16 + Byte.to_N b / 16) / 16)%N
    with (Byte.to_N a) by divmod.
  replace ((Byte.to_N a mod 4 * 16 + Byte.to_N b / 16) mod 16 * 16
           + Byte.to_N b mod 16 * 4 / 4)%N
    with (Byte.to_N b) by divmod.
  rewrite !byte_of_to_N. reflexivity.
Qed.

Lemma vals2_enc1 (a : byte) :
  vals2 (b64char (Byte.to_N a / 4)) (b64char (Byte.to_N a mod 4 * 16))
  = Some [a].
Proof.
  pose proof (to_N_lt a) as Ha.
  unfold vals2. rewrite !b64val_char by divmod. unfold dec2.
  replace (Byte.to_N a / 4 * 4 + Byte.to_N a mod 4 * 16 / 16)%N
    with (Byte.to_N a) by divmod.
  rewrite byte_of_to_N. reflexivity.
Qed.

(** Induction on a byte array three bytes at a time. *)
Lemma bytes_ind3 (P : bytes -> Prop) :
  P [] -> (forall a, P [a]) -> (forall a b, P [a; b]) ->
  (forall a b c r, P r -> P (a :: b :: c :: r)) ->
  forall l, P l.
Proof.
  intros H0 H1 H2 H3 l.
  assert (H : P l /\ (forall a, P (a :: l)) /\ (forall a b, P (a :: b :: l))).
  { induction l as [|x l [IH0 [IH1 IH2]]].
    - auto.
    - repeat split; auto. }
  apply H.
Qed.

Lemma toBase64_nil_inv (bs : bytes) : toBase64 bs = [] -> bs = [].
Proof.
  destruct bs as [|a [|b [|c r]]]; simpl; try discriminate; auto.
Qed.

Lemma atob_groups_toBase64 (bs : bytes) : atob_groups (toBase64 bs) = Some bs.
Proof.
  induction bs as [|a|a b|a b c r IH] using bytes_ind3.
  - reflexivity.
  - cbn [toBase64 atob_groups]. rewrite N.eqb_refl. apply vals2_enc1.
  - cbn [toBase64 atob_groups]. rewrite N.eqb_refl, b64char_not_pad.
    apply vals3_enc2.
  - pose proof (vals4_enc3 a b c) as Hg.
    change (toBase64 (a :: b :: c :: r))
      with (enc3 (Byte.to_N a) (Byte.to_N b) (Byte.to_N c) ++ toBase64 r).
    destruct (enc3 (Byte.to_N a) (Byte.to_N b) (Byte.to_N c))
      as [|p [|q [|r' [|s [|? ?]]]]] eqn:E; try contradiction.
    cbn [app atob_groups].
    destruct (toBase64 r) as [|t ts] eqn:Er.
    + apply toBase64_nil_inv in Er. subst r.
      unfold enc3 in E. injection E as <- <- <- <-.
      rewrite b64char_not_pad. exact Hg.
    + rewrite Hg, IH. reflexivity.
Qed.

Lemma toBase64_no_ws (bs : bytes) :
  filter (fun c => negb (is_ws c)) (toBase64 bs) = toBase64 bs.
Proof.
  induction bs as [|a|a b|a b c r IH] using bytes_ind3.
  - reflexivity.
  - cbn [toBase64 filter]. rewrite !b64char_not_ws. reflexivity.
  - cbn [toBase64 filter]. rewrite !b64char_not_ws. reflexivity.
  - change (toBase64 (a :: b :: c :: r))
      with (enc3 (Byte.to_N a) (Byte.to_N b) (Byte.to_N c) ++ toBase64 r).
    unfold enc3. cbn [app filter]. rewrite !b64char_not_ws. cbn [negb].
    rewrite IH. reflexivity.
Qed.

Lemma fromBase64_toBase64 (bs : bytes) : fromBase64 (toBase64 bs) = Some bs.
Proof.
  unfold fromBase64. rewrite toBase64_no_ws. apply atob_groups_toBase64.
Qed.

Lemma toBase64_inj (x y : bytes) : toBase64 x = toBase64 y -> x = y.
Proof.
  intros H. apply (f_equal fromBase64) in H.
  rewrite !fromBase64_toBase64 in H. congruence.
Qed.

(* ------------------------------------------------------------------- *)
(** *** Running the primitives *)

Lemma or0_id (x : Z) : or0 x = x.
Proof. unfold or0. destruct (Z.eqb_spec x 0); congruence. Qed.

Lemma logged_logged (a b : list Access) (w : World) :
  logged b (logged a w) = logged (a ++ b) w.
Proof. unfold logged; simpl. rewrite app_assoc. reflexivity. Qed.

Lemma getLockout_run (w : World) :
  getLockout w = Ret (lockoutOf (items w)) (logged [Get LOCKOUT_KEY] w).
Proof. reflexivity. Qed.

Lemma isLockedOut_run (w : World) :
  isLockedOut w = Ret (lockedAt w) (logged [Get LOCKOUT_KEY] w).
Proof. reflexivity. Qed.

Lemma getAuth_run (w : World) :
  getAuth w = Ret (adminAuth (items w)) (logged [Get AUTH_KEY] w).
Proof. reflexivity. Qed.

Lemma getSession_run (w : World) :
  getSession w = Ret (adminSession (items w)) (logged [Get SESSION_KEY] w).
Proof. reflexivity. Qed.

Lemma recordFailure_run (w : World) :
  recordFailure w =
  Ret tt (written LOCKOUT_KEY
            (mkLockout (countOf (items w) + 1)
               (if 5 <=? countOf (items w) + 1
                then clock w + Z.min (countOf (items w) + 1 - 4) 6 * 60 * 1000
                else lockUntilOf (items w)))
            (logged [Get LOCKOUT_KEY] w)).
Proof. reflexivity. Qed.

Lemma resetLockout_run (w : World) :
  resetLockout w = Ret tt (written LOCKOUT_KEY (mkLockout 0 0) w).
Proof. reflexivity. Qed.

(* ------------------------------------------------------------------- *)
(** *** Lockout *)

(** C1. Recording a failure that brings the count to [n]: when [n] is
    at least 5 the lock lasts [min(n - 4, 6)] minutes from now, which
    is one minute at the fifth failure, six minutes at the tenth and
    never more than six minutes afterwards; when [n] is below 5 the
    stored [lockUntil] is the one that was there. *)
Theorem recordFailure_lock_window (w : World) (n : Z) :
  n = countOf (items w) + 1 ->
  exists w',
    recordFailure w = Ret tt w' /\
    clock w' = clock w /\
    count (lockoutOf (items w')) = n /\
    (5 <= n ->
       lockUntil (lockoutOf (items w')) = clock w + Z.min (n - 4) 6 * 60000) /\
    (n = 5 -> lockUntil (lockoutOf (items w')) = clock w + 1 * 60000) /\
    (n = 10 -> lockUntil (lockoutOf (items w')) = clock w + 6 * 60000) /\
    (10 < n -> lockUntil (lockoutOf (items w')) - clock w <= 6 * 60000) /\
    (n < 5 -> lockUntil (lockoutOf (items w')) = lockUntilOf (items w)).
Proof.
  intros Hn. rewrite recordFailure_run. eexists. split; [reflexivity|].
  cbn [written logged items clock putItem lockoutOf adminLockout count
       lockUntil].
  rewrite <- Hn.
  split; [reflexivity|]. split; [reflexivity|].
  destruct (Z.leb_spec 5 n); repeat split; intros; try lia.
Qed.

(** C2. While the lockout window is active, [login] answers [locked]
    and leaves localStorage and the clock as they were; its only
    access to localStorage is one read of the lockout record. *)
Theorem login_locked (email password : jsstring) (rnd : bytes) (d : Z)
    (w : World) :
  clock w < lockUntilOf (items w) ->
  login email password rnd d w
  = Ret (failed locked) (logged [Get LOCKOUT_KEY] w).
Proof.
  intros H. unfold login, bind. rewrite isLockedOut_run.
  unfold lockedAt. destruct (Z.ltb_spec (clock w) (lockUntilOf (items w)));
    [reflexivity | lia].
Qed.

(* ------------------------------------------------------------------- *)
(** *** Verification and login, case by case *)

Lemma verifyPassword_run (password : jsstring) (a : Auth) (d : Z)
    (w : World) :
  verifyPassword password a d w =
  match fromBase64 (auth_salt a) with
  | None => Throw w
  | Some salt =>
      match PBKDF2 (toBytes password) salt (auth_iterations a) with
      | None => Throw (later d w)
      | Some raw => Ret (str_eqb (toBase64 raw) (auth_hash a)) (later d w)
      end
  end.
Proof.
  unfold verifyPassword, deriveKey, bind, orThrow.
  destruct (fromBase64 (auth_salt a)) as [salt|]; [|reflexivity].
  cbn. destruct (PBKDF2 (toBytes password) salt (auth_iterations a));
    reflexivity.
Qed.

Lemma verifyPassword_value (password : jsstring) (a : Auth) (d : Z)
    (w : World) :
  value (verifyPassword password a d w) = verifies password a.
Proof.
  unfold verifies. rewrite !verifyPassword_run.
  destruct (fromBase64 (auth_salt a)) as [salt|]; [|reflexivity].
  destruct (PBKDF2 (toBytes password) salt (auth_iterations a)); reflexivity.
Qed.

Lemma verifyPassword_cases (password : jsstring) (a : Auth) (d : Z)
    (w : World) :
  match verifies password a with
  | Some v => verifyPassword password a d w = Ret v (later d w)
  | None => exists w', verifyPassword password a d w = Throw w'
                       /\ items w' = items w /\ log w' = log w
  end.
Proof.
  unfold verifies. rewrite !verifyPassword_run.
  destruct (fromBase64 (auth_salt a)) as [salt|]; cbn.
  - destruct (PBKDF2 (toBytes password) salt (auth_iterations a)); cbn;
      eauto.
  - eauto.
Qed.

(** [login] on a world that is not locked out and holds the record
    [a], when the verification returns [v]. *)
Lemma login_checked (email password : jsstring) (rnd : bytes) (d : Z)
    (w : World) (a : Auth) (v : bool) :
  lockedAt w = false ->
  adminAuth (items w) = Some a ->
  verifies password a = Some v ->
  login email password rnd d w =
  let w1 := later d (logged [Get LOCKOUT_KEY; Get AUTH_KEY] w) in
  if v && str_eqb email (auth_email a) then
    Ret ok_true
        (written SESSION_KEY (issued rnd email (clock w + d))
           (written LOCKOUT_KEY (mkLockout 0 0) w1))
  else
    Ret (failed invalid)
        (written LOCKOUT_KEY
           (mkLockout (countOf (items w) + 1)
              (if 5 <=? countOf (items w) + 1
               then clock w + d
                    + Z.min (countOf (items w) + 1 - 4) 6 * 60 * 1000
               else lockUntilOf (items w)))
           (logged [Get LOCKOUT_KEY] w1)).
Proof.
  intros Hl Ha Hv. unfold login, bind at 1.
  rewrite isLockedOut_run, Hl. unfold bind at 1.
  rewrite getAuth_run. cbn [logged items]. rewrite Ha.
  unfold bind at 1.
  pose proof (verifyPassword_cases password a d
                (logged [Get AUTH_KEY] (logged [Get LOCKOUT_KEY] w))) as Hc.
  rewrite Hv in Hc.
  change (mkWorld (items w) (clock (logged [Get LOCKOUT_KEY] w))
            (log (logged [Get LOCKOUT_KEY] w) ++ [Get AUTH_KEY]))
    with (logged [Get AUTH_KEY] (logged [Get LOCKOUT_KEY] w)).
  rewrite Hc, logged_logged. cbn [app].
  destruct (v && str_eqb email (auth_email a)); reflexivity.
Qed.

Lemma login_no_record (email password : jsstring) (rnd : bytes) (d : Z)
    (w : World) :
  lockedAt w = false ->
  adminAuth (items w) = None ->
  login email password rnd d w
  = Ret (failed setup_required) (logged [Get LOCKOUT_KEY; Get AUTH_KEY] w).
Proof.
  intros Hl Ha. unfold login, bind at 1.
  rewrite isLockedOut_run, Hl. unfold bind at 1.
  rewrite getAuth_run. cbn [logged items]. rewrite Ha.
  unfold ret, logged. cbn. rewrite <- app_assoc. reflexivity.
Qed.

Lemma login_throws (email password : jsstring) (rnd : bytes) (d : Z)
    (w : World) (a : Auth) :
  lockedAt w = false ->
  adminAuth (items w) = Some a ->
  verifies password a = None ->
  exists w', login email password rnd d w = Throw w'
             /\ items w' = items w.
Proof.
  intros Hl Ha Hv. unfold login, bind at 1.
  rewrite isLockedOut_run, Hl. unfold bind at 1.
  rewrite getAuth_run. cbn [logged items]. rewrite Ha.
  unfold bind at 1.
  match goal with
  | |- context [verifyPassword password a d ?w0] =>
      pose proof (verifyPassword_cases password a d w0) as Hc
  end.
  rewrite Hv in Hc. destruct Hc as [w' [E [Hi _]]]. rewrite E.
  exists w'. split; [reflexivity | exact Hi].
Qed.

Lemma login_when_locked (email password : jsstring) (rnd : bytes) (d : Z)
    (w : World) :
  lockedAt w = true ->
  login email password rnd d w
  = Ret (failed locked) (logged [Get LOCKOUT_KEY] w).
Proof.
  intros Hl. unfold login, bind. rewrite isLockedOut_run, Hl. reflexivity.
Qed.

(** A login that answers [ok] went through every check. *)
Lemma login_ok_inv (email password : jsstring) (rnd : bytes) (d : Z)
    (w w' : World) (o : Outcome) :
  login email password rnd d w = Ret o w' ->
  ok o = true ->
  lockedAt w = false /\
  exists a,
    adminAuth (items w) = Some a /\
    verifies password a = Some true /\
    email = auth_email a /\
    o = ok_true /\
    w' = written SESSION_KEY (issued rnd email (clock w + d))
           (written LOCKOUT_KEY (mkLockout 0 0)
              (later d (logged [Get LOCKOUT_KEY; Get AUTH_KEY] w))).
Proof.
  intros E Hok.
  destruct (lockedAt w) eqn:Hl.
  { rewrite login_when_locked in E by assumption.
    injection E as <- _. discriminate. }
  split; [reflexivity|].
  destruct (adminAuth (items w)) as [a|] eqn:Ha.
  2:{ rewrite login_no_record in E by assumption.
      injection E as <- _. discriminate. }
  destruct (verifies password a) as [v|] eqn:Hv.
  2:{ destruct (login_throws email password rnd d w a Hl Ha Hv)
        as [w2 [E2 _]]. congruence. }
  rewrite (login_checked email password rnd d w a v Hl Ha Hv) in E.
  cbv zeta in E.
  destruct (v && str_eqb email (auth_email a)) eqn:Hc.
  - apply andb_true_iff in Hc. destruct Hc as [-> He].
    apply str_eqb_eq in He.
    injection E as <- <-. exists a. repeat split; auto.
  - injection E as <- _. discriminate.
Qed.

(** C7. In every lockout state, whatever the count and whatever
    [lockUntil] up to and including the present instant, a login with
    the stored email and a password that verifies returns [ok]; and
    every login that returns [ok] leaves the lockout record at
    [{ count: 0, lockUntil: 0 }] and a fresh thirty-minute session, so
    that the account is not locked out afterwards. *)
Theorem login_success_resets (email password : jsstring) (rnd : bytes)
    (d : Z) (w : World) :
  (forall a,
      adminAuth (items w) = Some a ->
      lockUntilOf (items w) <= clock w ->
      value (verifyPassword password a d w) = Some true ->
      email = auth_email a ->
      exists w', login email password rnd d w = Ret ok_true w') /\
  (forall o w',
      login email password rnd d w = Ret o w' ->
      ok o = true ->
      adminLockout (items w') = Some (mkLockout 0 0) /\
      adminSession (items w')
      = Some (mkSession (createToken rnd) email (clock w')
                        (clock w' + 30 * 60 * 1000) (clock w')) /\
      clock w' = clock w + d /\
      adminAuth (items w') = adminAuth (items w) /\
      (0 <= clock w' -> value (isLockedOut w') = Some false) /\
      value (isLoggedIn w') = Some true).
Proof.
  split.
  - intros a Ha Hl Hv He. rewrite verifyPassword_value in Hv.
    assert (Hl' : lockedAt w = false).
    { unfold lockedAt. apply Z.ltb_ge. exact Hl. }
    rewrite (login_checked email password rnd d w a true Hl' Ha Hv).
    cbv zeta. subst email. rewrite str_eqb_refl. cbn [andb]. eauto.
  - intros o w' E Hok.
    destruct (login_ok_inv _ _ _ _ _ _ _ E Hok)
      as [Hl [a [Ha [Hv [He [Ho Hw]]]]]].
    subst w'. cbn [written later logged items clock putItem adminLockout
                   adminSession adminAuth].
    repeat split.
    + intros Hc. rewrite isLockedOut_run. cbn [value].
      unfold lockedAt, lockUntilOf, lockoutOf.
      cbn [written later logged items clock putItem adminLockout lockUntil].
      rewrite or0_id. f_equal. apply Z.ltb_ge. exact Hc.
    + unfold isLoggedIn, bind. rewrite getSession_run.
      cbn [written later logged items clock putItem adminSession issued
           expiresAt Date_now].
      rewrite or0_id.
      destruct (Z.ltb_spec (clock w + d + 30 * 60 * 1000) (clock w + d));
        [lia | reflexivity].
Qed.

(** C10. A login answers [ok] only if the password verifies against the
    stored record and the email is, code unit by code unit, the stored
    one. With a password that verifies and another email, [login]
    answers [invalid] and records a failure: the outcome and the world
    it leaves are those of a login with the stored email and a
    password that does not verify. *)
Theorem login_checks_email (email password : jsstring) (rnd : bytes)
    (d : Z) (w : World) :
  (forall o w',
      login email password rnd d w = Ret o w' ->
      ok o = true ->
      exists a,
        adminAuth (items w) = Some a /\
        value (verifyPassword password a d w) = Some true /\
        email = auth_email a) /\
  (forall a,
      adminAuth (items w) = Some a ->
      lockUntilOf (items w) <= clock w ->
      value (verifyPassword password a d w) = Some true ->
      email <> auth_email a ->
      exists w',
        login email password rnd d w = Ret (failed invalid) w' /\
        count (lockoutOf (items w')) = countOf (items w) + 1 /\
        (forall wrong,
            value (verifyPassword wrong a d w) = Some false ->
            login (auth_email a) wrong rnd d w = Ret (failed invalid) w')).
Proof.
  split.
  - intros o w' E Hok.
    destruct (login_ok_inv _ _ _ _ _ _ _ E Hok)
      as [Hl [a [Ha [Hv [He _]]]]].
    exists a. rewrite verifyPassword_value. auto.
  - intros a Ha Hl Hv Hne. rewrite verifyPassword_value in Hv.
    assert (Hl' : lockedAt w = false).
    { unfold lockedAt. apply Z.ltb_ge. exact Hl. }
    rewrite (login_checked email password rnd d w a true Hl' Ha Hv).
    cbv zeta. apply str_eqb_neq in Hne. rewrite Hne. cbn [andb].
    eexists. split; [reflexivity|]. split; [reflexivity|].
    intros wrong Hw. rewrite verifyPassword_value in Hw.
    rewrite (login_checked (auth_email a) wrong rnd d w a false Hl' Ha Hw).
    reflexivity.
Qed.

(* ------------------------------------------------------------------- *)
(** *** Sessions *)

Lemma isLoggedIn_run (w : World) :
  isLoggedIn w =
  match adminSession (items w) with
  | None => Ret false (logged [Get SESSION_KEY] w)
  | Some s =>
      if expiresAt s <? clock w
      then Ret false (removed SESSION_KEY (logged [Get SESSION_KEY] w))
      else Ret true (logged [Get SESSION_KEY] w)
  end.
Proof.
  unfold isLoggedIn, bind. rewrite getSession_run.
  destruct (adminSession (items w)) as [s|]; [|reflexivity].
  cbn [Date_now logged clock]. rewrite or0_id.
  destruct (expiresAt s <? clock w); reflexivity.
Qed.

Lemma isUserLoggedIn_run (w : World) :
  isUserLoggedIn w =
  Ret (match userSession (items w) with
       | None => false
       | Some s => clock w <? us_expiresAt s
       end) (logged [Get USER_SESSION_KEY] w).
Proof.
  unfold isUserLoggedIn, bind, getUserSession, ls_get_null,
    localStorage_getItem. cbn [getItem].
  destruct (userSession (items w)); reflexivity.
Qed.

Lemma refreshSession_run (w : World) :
  refreshSession w =
  match adminSession (items w) with
  | None => Ret tt (logged [Get SESSION_KEY] w)
  | Some s =>
      Ret tt (written SESSION_KEY
                (mkSession (token s) (sess_email s) (createdAt s)
                           (clock w + 30 * 60 * 1000) (clock w))
                (logged [Get SESSION_KEY] w))
  end.
Proof.
  unfold refreshSession, bind. rewrite getSession_run.
  destruct (adminSession (items w)); reflexivity.
Qed.

Lemma refreshUserSession_run (w : World) :
  refreshUserSession w =
  match userSession (items w) with
  | None => Ret tt (logged [Get USER_SESSION_KEY] w)
  | Some s =>
      Ret tt (written USER_SESSION_KEY
                (mkUserSession (uid s) (us_email s) (us_createdAt s)
                               (clock w + 30 * 60 * 1000))
                (logged [Get USER_SESSION_KEY] w))
  end.
Proof.
  unfold refreshUserSession, bind, getUserSession, ls_get_null,
    localStorage_getItem. cbn [getItem].
  destruct (userSession (items w)); reflexivity.
Qed.

(** C3, as the spec states it, fails: a session of the administrator
    that expired at time 1000 and is still in storage at time 5000 is
    given thirty more minutes by [refreshSession], after which
    [isLoggedIn] answers [true]; the customer's [refreshUserSession]
    and [isUserLoggedIn] do the same. *)
Lemma refresh_revives_expired_session :
  value (isLoggedIn (adminSessionAt staleSession 5000)) = Some false
  /\ (expiresAt staleSession < clock (adminSessionAt staleSession 5000)
      /\ option_map expiresAt
           (adminSession
              (items (after (refreshSession
                               (adminSessionAt staleSession 5000)))))
         = Some 1805000
      /\ value (isLoggedIn
                  (after (refreshSession (adminSessionAt staleSession 5000))))
         = Some true)
  /\ (us_expiresAt staleUserSession
      < clock (userSessionAt staleUserSession 5000)
      /\ option_map us_expiresAt
           (userSession
              (items (after (refreshUserSession
                               (userSessionAt staleUserSession 5000)))))
         = Some 1805000
      /\ value (isUserLoggedIn
                  (after (refreshUserSession
                            (userSessionAt staleUserSession 5000))))
         = Some true).
Proof. vm_compute. repeat split; reflexivity. Qed.

(** C3, amended. With no session in storage both refresh functions
    only read their key. With a session in storage, expired or not,
    [refreshSession] sets [expiresAt] to now plus thirty minutes and
    [lastActivity] to now and keeps the other fields, and
    [refreshUserSession] sets [expiresAt] to now plus thirty minutes
    and keeps the other fields; the session counts as logged in
    afterwards. *)
Theorem refresh_extends_stored_session (w : World) :
  (adminSession (items w) = None ->
     refreshSession w = Ret tt (logged [Get SESSION_KEY] w)) /\
  (userSession (items w) = None ->
     refreshUserSession w = Ret tt (logged [Get USER_SESSION_KEY] w)) /\
  (forall s, adminSession (items w) = Some s ->
     exists w',
       refreshSession w = Ret tt w' /\
       clock w' = clock w /\
       adminSession (items w')
       = Some (mkSession (token s) (sess_email s) (createdAt s)
                         (clock w + 30 * 60 * 1000) (clock w)) /\
       value (isLoggedIn w') = Some true) /\
  (forall s, userSession (items w) = Some s ->
     exists w',
       refreshUserSession w = Ret tt w' /\
       clock w' = clock w /\
       userSession (items w')
       = Some (mkUserSession (uid s) (us_email s) (us_createdAt s)
                             (clock w + 30 * 60 * 1000)) /\
       value (isUserLoggedIn w') = Some true).
Proof.
  repeat split.
  - intros H. rewrite refreshSession_run, H. reflexivity.
  - intros H. rewrite refreshUserSession_run, H. reflexivity.
  - intros s H. rewrite refreshSession_run, H. eexists.
    split; [reflexivity|]. split; [reflexivity|]. split; [reflexivity|].
    rewrite isLoggedIn_run.
    cbn [written logged items clock putItem adminSession expiresAt].
    destruct (Z.ltb_spec (clock w + 30 * 60 * 1000) (clock w));
      [lia | reflexivity].
  - intros s H. rewrite refreshUserSession_run, H. eexists.
    split; [reflexivity|]. split; [reflexivity|]. split; [reflexivity|].
    rewrite isUserLoggedIn_run.
    cbn [written logged items clock putItem userSession us_expiresAt value].
    f_equal. apply Z.ltb_lt. lia.
Qed.

(** What [isLoggedIn] does: [false] exactly when there is no session
    or its [expiresAt] is before now, and in the second case the
    session is removed; otherwise storage is untouched. *)
Lemma isLoggedIn_spec (w : World) :
  exists b w',
    isLoggedIn w = Ret b w' /\
    (b = false <->
     adminSession (items w) = None \/
     exists s, adminSession (items w) = Some s /\ expiresAt s < clock w) /\
    (forall s, adminSession (items w) = Some s -> expiresAt s < clock w ->
               items w' = putItem SESSION_KEY None (items w)) /\
    (b = true -> items w' = items w).
Proof.
  rewrite isLoggedIn_run.
  destruct (adminSession (items w)) as [s|] eqn:Hs.
  - destruct (Z.ltb_spec (expiresAt s) (clock w)).
    + do 2 eexists. split; [reflexivity|]. repeat split; eauto.
      discriminate.
    + do 2 eexists. split; [reflexivity|]. repeat split; try discriminate.
      * intros [?|[s' [E ?]]]; [discriminate|]. injection E as <-. lia.
      * intros s' E ?. injection E as <-. lia.
  - do 2 eexists. split; [reflexivity|]. repeat split; auto; discriminate.
Qed.

(** What [isUserLoggedIn] does: [false] exactly when there is no
    session or its [expiresAt] is not after now; storage is never
    written. *)
Lemma isUserLoggedIn_spec (w : World) :
  exists b,
    isUserLoggedIn w = Ret b (logged [Get USER_SESSION_KEY] w) /\
    (b = false <->
     userSession (items w) = None \/
     exists s, userSession (items w) = Some s /\ us_expiresAt s <= clock w).
Proof.
  rewrite isUserLoggedIn_run. eexists. split; [reflexivity|].
  destruct (userSession (items w)) as [s|] eqn:Hs.
  - destruct (Z.ltb_spec (clock w) (us_expiresAt s)); split.
    + discriminate.
    + intros [?|[s' [E ?]]]; [discriminate|]. injection E as <-. lia.
    + eauto.
    + reflexivity.
  - split; auto.
Qed.

(** C4 at its two failing inputs: at the very millisecond of
    [expiresAt] the administrator's [isLoggedIn] answers [true], where
    the customer's [isUserLoggedIn] answers [false]; and
    [isUserLoggedIn] leaves an expired session in storage, where
    [isLoggedIn] removes it. *)
Theorem isLoggedIn_boundary_and_stale_session :
  (value (isLoggedIn (adminSessionAt staleSession 1000)) = Some true
   /\ value (isUserLoggedIn (userSessionAt staleUserSession 1000))
      = Some false)
  /\ (value (isUserLoggedIn (userSessionAt staleUserSession 5000))
      = Some false
      /\ userSession
           (items (after (isUserLoggedIn
                            (userSessionAt staleUserSession 5000))))
         = Some staleUserSession
      /\ value (isLoggedIn (adminSessionAt staleSession 5000)) = Some false
      /\ adminSession
           (items (after (isLoggedIn (adminSessionAt staleSession 5000))))
         = None).
Proof. vm_compute. repeat split; reflexivity. Qed.

(* ------------------------------------------------------------------- *)
(** *** What a computation leaves alone *)

Lemma keeps_ret {A B} (f : Storage -> B) (a : A) : keeps f (ret a).
Proof. intros w. reflexivity. Qed.

Lemma keeps_throw {A B} (f : Storage -> B) : keeps f (@throw A).
Proof. intros w. reflexivity. Qed.

Lemma keeps_bind {A A' B} (f : Storage -> B) (c : M A) (k : A -> M A') :
  keeps f c -> (forall a, keeps f (k a)) -> keeps f (bind c k).
Proof.
  intros Hc Hk w. unfold bind. specialize (Hc w).
  destruct (c w) as [a w1|w1]; cbn [after] in *.
  - rewrite Hk. exact Hc.
  - exact Hc.
Qed.

Lemma keeps_orThrow {A B} (f : Storage -> B) (o : option A) :
  keeps f (orThrow o).
Proof. destruct o; intros w; reflexivity. Qed.

Lemma keeps_Date_now {B} (f : Storage -> B) : keeps f Date_now.
Proof. intros w. reflexivity. Qed.

Lemma keeps_await {B} (f : Storage -> B) (d : Z) : keeps f (await d).
Proof. intros w. reflexivity. Qed.

Lemma keeps_getItem {B} (f : Storage -> B) (k : Key) :
  keeps f (localStorage_getItem k).
Proof. intros w. reflexivity. Qed.

Lemma keeps_setItem {B} (f : Storage -> B) (k : Key) (v : slot k) :
  (forall s, f (putItem k (Some v) s) = f s) ->
  keeps f (localStorage_setItem k v).
Proof. intros H w. apply H. Qed.

Lemma keeps_removeItem {B} (f : Storage -> B) (k : Key) :
  (forall s, f (putItem k None s) = f s) ->
  keeps f (localStorage_removeItem k).
Proof. intros H w. apply H. Qed.

(** Goes through a computation, one primitive at a time. *)
Ltac frame_step :=
  match goal with
  | |- keeps _ (bind _ _) => apply keeps_bind; [| intros ]
  | |- keeps _ (ret _) => apply keeps_ret
  | |- keeps _ throw => apply keeps_throw
  | |- keeps _ (orThrow _) => apply keeps_orThrow
  | |- keeps _ Date_now => apply keeps_Date_now
  | |- keeps _ (await _) => apply keeps_await
  | |- keeps _ (localStorage_getItem _) => apply keeps_getItem
  | |- keeps _ (localStorage_setItem _ _) =>
      apply keeps_setItem; intros; first [ reflexivity | solve [auto] ]
  | |- keeps _ (localStorage_removeItem _) =>
      apply keeps_removeItem; intros; first [ reflexivity | solve [auto] ]
  | |- keeps _ (if ?b then _ else _) => destruct b
  | |- keeps _ (match ?x with _ => _ end) => destruct x
  | |- keeps _ (let _ := _ in _) => cbv zeta
  end.

Ltac frame := repeat frame_step.

Lemma upsertAdminUsers_keeps {B} (f : Storage -> B)
    (name email phone address rnd : jsstring) :
  (forall v s, f (putItem USERS_KEY v s) = f s) ->
  keeps f (upsertAdminUsers name email phone address rnd).
Proof.
  intros H. unfold upsertAdminUsers, ls_get, ls_set, generateId. frame.
Qed.

(** The customer page writes none of the administrator's three keys. *)
Lemma signupUser_keeps {B} (f : Storage -> B)
    (name email phone address password : jsstring) (rs : bytes)
    (r1 r2 : jsstring) (d : Z) :
  (forall v s, f (putItem USER_DB_KEY v s) = f s) ->
  (forall v s, f (putItem PROFILE_KEY v s) = f s) ->
  (forall v s, f (putItem USERS_KEY v s) = f s) ->
  (forall v s, f (putItem USER_SESSION_KEY v s) = f s) ->
  keeps f (signupUser name email phone address password rs r1 r2 d).
Proof.
  intros H1 H2 H3 H4.
  unfold signupUser, getUsersDB, setUsersDB, saveProfile, setUserSession,
    pbkdf2, generateId, ls_get, ls_set.
  repeat first [ frame_step | apply upsertAdminUsers_keeps; assumption ].
Qed.

Lemma loginUser_keeps {B} (f : Storage -> B)
    (email password r : jsstring) (d : Z) :
  (forall v s, f (putItem PROFILE_KEY v s) = f s) ->
  (forall v s, f (putItem USERS_KEY v s) = f s) ->
  (forall v s, f (putItem USER_SESSION_KEY v s) = f s) ->
  keeps f (loginUser email password r d).
Proof.
  intros H2 H3 H4.
  unfold loginUser, getUsersDB, getProfile, saveProfile, setUserSession,
    pbkdf2, ls_get, ls_get_null, ls_set.
  repeat first [ frame_step | apply upsertAdminUsers_keeps; assumption ].
Qed.

(* ------------------------------------------------------------------- *)
(** *** Setup and sign-up *)

Lemma strong_iff (password : jsstring) :
  strong password = true <->
  (8 <= List.length password)%nat
  /\ (exists c, In c password /\ is_alpha c = true)
  /\ (exists c, In c password /\ is_digit c = true).
Proof.
  unfold strong, regex_test.
  rewrite !andb_true_iff, !existsb_exists, Z.leb_le. intuition lia.
Qed.

Lemma setupAdmin_run (email password : jsstring) (rnd : bytes) (d : Z)
    (w : World) :
  setupAdmin email password rnd d w =
  if strong password then
    match PBKDF2 (toBytes password) rnd 150000 with
    | None => Throw (later d w)
    | Some raw =>
        Ret ok_true
            (written LOCKOUT_KEY (mkLockout 0 0)
               (written AUTH_KEY
                  (mkAuth email (toBase64 rnd) 150000 (toBase64 raw)
                          (clock w + d) 1)
                  (later d w)))
    end
  else Ret (failed weak) w.
Proof.
  unfold setupAdmin. destruct (strong password); [|reflexivity].
  cbn [negb]. unfold hashPassword, deriveKey, bind, orThrow. cbn.
  destruct (PBKDF2 (toBytes password) rnd 150000); reflexivity.
Qed.

Lemma getUsersDB_run (w : World) :
  getUsersDB w = Ret (dbOf (items w)) (logged [Get USER_DB_KEY] w).
Proof. reflexivity. Qed.

Lemma signupUser_taken (name email phone address password : jsstring)
    (rs : bytes) (r1 r2 : jsstring) (d : Z) (w : World) :
  existsb (same_email email) (dbOf (items w)) = true ->
  signupUser name email phone address password rs r1 r2 d w
  = Ret (failed exists_) (logged [Get USER_DB_KEY] w).
Proof.
  intros H. unfold signupUser, bind. rewrite getUsersDB_run, H. reflexivity.
Qed.

Lemma upsertAdminUsers_returns (name email phone address rnd : jsstring)
    (w : World) :
  exists w', upsertAdminUsers name email phone address rnd w = Ret tt w'
             /\ clock w' = clock w
             /\ (forall v s, usersDB (putItem USERS_KEY v s) = usersDB s)
             /\ usersDB (items w') = usersDB (items w)
             /\ userSession (items w') = userSession (items w).
Proof.
  cbv [upsertAdminUsers bind ls_get ls_set generateId
       localStorage_getItem localStorage_setItem Date_now ret getItem].
  match goal with
  | |- context [findIndex ?p ?l] => destruct (findIndex p l)
  end; eexists; (split; [reflexivity|]); repeat split.
Qed.

Lemma signupUser_new (name email phone address password : jsstring)
    (rs : bytes) (r1 r2 : jsstring) (d : Z) (w : World) (raw : bytes) :
  existsb (same_email email) (dbOf (items w)) = false ->
  PBKDF2 (toBytes password) rs 120000 = Some raw ->
  exists w',
    signupUser name email phone address password rs r1 r2 d w
    = Ret (mkOutcome true None
             (Some (newUser name email phone address rs raw r1
                            (clock w + d)))) w'
    /\ usersDB (items w')
       = Some (dbOf (items w)
               ++ [newUser name email phone address rs raw r1 (clock w + d)])
    /\ clock w' = clock w + d.
Proof.
  intros Hn Hk. unfold signupUser. unfold bind at 1.
  rewrite getUsersDB_run, Hn.
  unfold pbkdf2, bind at 1. unfold bind at 1. cbn [await logged items clock].
  unfold bind at 1. rewrite Hk. cbn [orThrow ret].
  unfold bind at 1. unfold generateId, bind at 1. cbn [Date_now clock ret].
  unfold bind at 1, setUsersDB, ls_set, localStorage_setItem.
  cbn [items clock log].
  unfold bind at 1, saveProfile, ls_set, localStorage_setItem.
  cbn [items clock log].
  unfold bind at 1.
  match goal with
  | |- context [upsertAdminUsers name email phone address r2 ?w0] =>
      destruct (upsertAdminUsers_returns name email phone address r2 w0)
        as [w1 [E [Hc [_ [Hdb _]]]]]
  end.
  rewrite E. cbn [items clock putItem usersDB] in Hc, Hdb.
  unfold bind, Date_now, setUserSession, ls_set, localStorage_setItem, ret.
  rewrite Hc. eexists. split; [reflexivity|].
  cbn [items clock putItem usersDB]. split; [exact Hdb | reflexivity].
Qed.

Lemma signupUser_throws (name email phone address password : jsstring)
    (rs : bytes) (r1 r2 : jsstring) (d : Z) (w : World) :
  existsb (same_email email) (dbOf (items w)) = false ->
  PBKDF2 (toBytes password) rs 120000 = None ->
  signupUser name email phone address password rs r1 r2 d w
  = Throw (later d (logged [Get USER_DB_KEY] w)).
Proof.
  intros Hn Hk. unfold signupUser. unfold bind at 1.
  rewrite getUsersDB_run, Hn.
  unfold pbkdf2, bind at 1. unfold bind at 1. cbn [await logged items clock].
  unfold bind at 1. rewrite Hk. reflexivity.
Qed.

(** C5, amended. [setupAdmin] answers [weak], and touches neither
    localStorage nor the clock, for every password that is shorter than
    eight code units, or has no letter of [A-Za-z], or has no digit;
    every other password passes the test, and [setupAdmin] then stores
    the record and answers [ok] when the platform derives the key.
    The sign-up button refuses a password shorter than eight code
    units without calling [signupUser] and without an outcome;
    [signupUser] itself tests no password. *)
Theorem setupAdmin_password_policy (email password : jsstring)
    (rnd : bytes) (d : Z) (w : World) :
  ((List.length password < 8)%nat
   \/ (forall c, In c password -> is_alpha c = false)
   \/ (forall c, In c password -> is_digit c = false) ->
   setupAdmin email password rnd d w = Ret (failed weak) w) /\
  ((8 <= List.length password)%nat ->
   (exists c, In c password /\ is_alpha c = true) ->
   (exists c, In c password /\ is_digit c = true) ->
   match PBKDF2 (toBytes password) rnd 150000 with
   | Some raw =>
       exists w',
         setupAdmin email password rnd d w = Ret ok_true w' /\
         adminAuth (items w')
         = Some (mkAuth email (toBase64 rnd) 150000 (toBase64 raw)
                        (clock w + d) 1)
   | None => setupAdmin email password rnd d w = Throw (later d w)
   end) /\
  (forall name phone address pass2 rs r1 r2,
      (List.length password < 8)%nat ->
      signupClick name email phone address password pass2 rs r1 r2 d w
      = Ret None w).
Proof.
  repeat split.
  - intros H. rewrite setupAdmin_run.
    destruct (strong password) eqn:Hs; [|reflexivity].
    apply strong_iff in Hs. destruct Hs as [Hl [[c [Hc Ha]] [c' [Hc' Hd]]]].
    destruct H as [H|[H|H]].
    + lia.
    + rewrite (H c Hc) in Ha. discriminate.
    + rewrite (H c' Hc') in Hd. discriminate.
  - intros Hl Ha Hd. rewrite setupAdmin_run.
    rewrite (proj2 (strong_iff password)) by auto.
    destruct (PBKDF2 (toBytes password) rnd 150000); [|reflexivity].
    eexists. split; reflexivity.
  - intros name phone address pass2 rs r1 r2 Hl. unfold signupClick.
    destruct (str_falsy name || str_falsy email || str_falsy phone
              || str_falsy address || str_falsy password || str_falsy pass2);
      [reflexivity|].
    destruct (Z.ltb_spec (Z.of_nat (List.length password)) 8);
      [reflexivity | lia].
Qed.

(* ------------------------------------------------------------------- *)
(** *** Who writes the administrator's record *)

Lemma login_keeps_auth (email password : jsstring) (rnd : bytes) (d : Z) :
  keeps adminAuth (login email password rnd d).
Proof.
  unfold login, isLockedOut, getLockout, getAuth, verifyPassword, deriveKey,
    resetLockout, recordFailure, setLockout, setSession, getLockout,
    ls_get, ls_get_null, ls_set.
  frame.
Qed.

Lemma hasAuth_run (w : World) :
  hasAuth w = Ret (match adminAuth (items w) with
                   | Some _ => true
                   | None => false
                   end) (logged [Get AUTH_KEY] w).
Proof. reflexivity. Qed.

Lemma after_bind_ret {A B} (c : M A) (f : A -> B) (w : World) :
  after (bind c (fun a => ret (f a)) w) = after (c w).
Proof. unfold bind. destruct (c w); reflexivity. Qed.

Lemma value_bind_ret {A B} (c : M A) (f : A -> B) (w : World) :
  value (bind c (fun a => ret (f a)) w) = option_map f (value (c w)).
Proof. unfold bind. destruct (c w); reflexivity. Qed.

(** What the login button does once a record exists: it calls
    [login]; after a [locked] answer it reads the lockout record for
    its message. *)
Lemma loginClick_with_record (email pass : jsstring) (rs rt : bytes)
    (d1 d2 : Z) (w : World) (a : Auth) :
  adminAuth (items w) = Some a ->
  str_falsy email || str_falsy pass = false ->
  items (after (loginClick email pass rs rt d1 d2 w))
  = items (after (login email pass rt d1 (logged [Get AUTH_KEY] w)))
  /\ value (loginClick email pass rs rt d1 d2 w)
     = option_map Some
         (value (login email pass rt d1 (logged [Get AUTH_KEY] w))).
Proof.
  intros Ha Hf.
  assert (E : loginClick email pass rs rt d1 d2 w
              = (res <- login email pass rt d1 ;;
                 match reason res with
                 | Some locked =>
                     st <- getLockout ;; ms <- Date_now ;; ret (Some res)
                 | _ => ret (Some res)
                 end) (logged [Get AUTH_KEY] w)).
  { unfold loginClick. rewrite Hf. unfold bind at 1.
    rewrite hasAuth_run, Ha. reflexivity. }
  rewrite E. unfold bind at 1 4.
  destruct (login email pass rt d1 (logged [Get AUTH_KEY] w)) as [o w1|w1];
    [|split; reflexivity].
  destruct (reason o) as [[]|]; split; reflexivity.
Qed.

Lemma loginClick_keeps_record (email pass : jsstring) (rs rt : bytes)
    (d1 d2 : Z) (w : World) (a : Auth) :
  adminAuth (items w) = Some a ->
  adminAuth (items (after (loginClick email pass rs rt d1 d2 w))) = Some a.
Proof.
  intros Ha.
  destruct (str_falsy email || str_falsy pass) eqn:Hf.
  - unfold loginClick. rewrite Hf. exact Ha.
  - destruct (loginClick_with_record email pass rs rt d1 d2 w a Ha Hf)
      as [E _].
    rewrite E, login_keeps_auth. exact Ha.
Qed.

Lemma signupClick_keeps {B} (f : Storage -> B)
    (name email phone address pass pass2 : jsstring) (rs : bytes)
    (r1 r2 : jsstring) (d : Z) :
  (forall v s, f (putItem USER_DB_KEY v s) = f s) ->
  (forall v s, f (putItem PROFILE_KEY v s) = f s) ->
  (forall v s, f (putItem USERS_KEY v s) = f s) ->
  (forall v s, f (putItem USER_SESSION_KEY v s) = f s) ->
  keeps f (signupClick name email phone address pass pass2 rs r1 r2 d).
Proof.
  intros H1 H2 H3 H4. unfold signupClick.
  repeat first [ apply signupUser_keeps; assumption | frame_step ].
Qed.

Lemma userLoginClick_keeps {B} (f : Storage -> B)
    (email pass r : jsstring) (d : Z) :
  (forall v s, f (putItem PROFILE_KEY v s) = f s) ->
  (forall v s, f (putItem USERS_KEY v s) = f s) ->
  (forall v s, f (putItem USER_SESSION_KEY v s) = f s) ->
  keeps f (userLoginClick email pass r d).
Proof.
  intros H2 H3 H4. unfold userLoginClick.
  repeat first [ apply loginUser_keeps; assumption | frame_step ].
Qed.

(** Seeding writes [users], and on the customer page [profile], and
    nothing else. *)
Lemma Admin_seedIfNeeded_keeps {B} (f : Storage -> B) :
  (forall v s, f (putItem USERS_KEY v s) = f s) ->
  keeps f Admin.seedIfNeeded.
Proof.
  intros H. unfold Admin.seedIfNeeded, missing, ls_set. frame.
Qed.

Lemma Customer_seedIfNeeded_keeps {B} (f : Storage -> B) :
  (forall v s, f (putItem PROFILE_KEY v s) = f s) ->
  (forall v s, f (putItem USERS_KEY v s) = f s) ->
  keeps f Customer.seedIfNeeded.
Proof.
  intros H1 H2. unfold Customer.seedIfNeeded, missing, ls_set. frame.
Qed.

Lemma isLoggedIn_keeps {B} (f : Storage -> B) :
  (forall v s, f (putItem SESSION_KEY v s) = f s) ->
  keeps f isLoggedIn.
Proof.
  intros H. unfold isLoggedIn, getSession, clearSession, ls_get_null. frame.
Qed.

Lemma requireAuthOnFirstVisit_keeps {B} (f : Storage -> B) :
  keeps f requireAuthOnFirstVisit.
Proof.
  unfold requireAuthOnFirstVisit, isUserLoggedIn, getUserSession,
    ls_get_null. frame.
Qed.

Lemma adminPageLoad_keeps {B} (f : Storage -> B) :
  (forall v s, f (putItem USERS_KEY v s) = f s) ->
  (forall v s, f (putItem SESSION_KEY v s) = f s) ->
  keeps f (Admin.seedIfNeeded ;; isLoggedIn).
Proof.
  intros H1 H2. apply keeps_bind.
  - apply Admin_seedIfNeeded_keeps. exact H1.
  - intros _. apply isLoggedIn_keeps. exact H2.
Qed.

Lemma userPageLoad_keeps {B} (f : Storage -> B) :
  (forall v s, f (putItem PROFILE_KEY v s) = f s) ->
  (forall v s, f (putItem USERS_KEY v s) = f s) ->
  keeps f (Customer.seedIfNeeded ;; requireAuthOnFirstVisit).
Proof.
  intros H1 H2. apply keeps_bind.
  - apply Customer_seedIfNeeded_keeps; assumption.
  - intros _. apply requireAuthOnFirstVisit_keeps.
Qed.

(** Every event but the administrator's click leaves the credential
    record and the lockout record of the administrator alone. *)
Lemma exec_keeps_admin {B} (f : Storage -> B) (ev : Event) (w : World) :
  (forall v s, f (putItem SESSION_KEY v s) = f s) ->
  (forall v s, f (putItem USER_DB_KEY v s) = f s) ->
  (forall v s, f (putItem PROFILE_KEY v s) = f s) ->
  (forall v s, f (putItem USERS_KEY v s) = f s) ->
  (forall v s, f (putItem USER_SESSION_KEY v s) = f s) ->
  match ev with
  | AdminClick _ _ _ _ _ _ => True
  | _ => f (items (exec ev w)) = f (items w)
  end.
Proof.
  intros H0 H1 H2 H3 H4. destruct ev; cbn [exec]; auto.
  - assert (K : keeps f logout).
    { unfold logout, clearSession. frame. }
    apply K.
  - apply (adminPageLoad_keeps f H3 H0).
  - assert (K : keeps f refreshSession).
    { unfold refreshSession, getSession, setSession, ls_get_null, ls_set.
      frame. }
    apply K.
  - apply signupClick_keeps; assumption.
  - apply userLoginClick_keeps; assumption.
  - apply (userPageLoad_keeps f H2 H3).
  - assert (K : keeps f refreshUserSession).
    { unfold refreshUserSession, getUserSession, setUserSession,
        ls_get_null, ls_set. frame. }
    apply K.
Qed.

Lemma exec_keeps_record (ev : Event) (w : World) (a : Auth) :
  adminAuth (items w) = Some a ->
  adminAuth (items (exec ev w)) = Some a.
Proof.
  intros Ha.
  pose proof (exec_keeps_admin adminAuth ev w) as K.
  destruct ev;
    try (rewrite K by (intros; reflexivity); exact Ha).
  cbn [exec]. apply loginClick_keeps_record. exact Ha.
Qed.

(** C6, amended. [signupUser] with an email that some stored customer
    has, up to [toLowerCase], answers [exists] and only reads
    [usersDB]; in every case the customers stored before are still
    there, in place and unchanged, after it. The administrator's
    login button calls [setupAdmin] only when no record is stored:
    no event of either page changes a stored administrator record. *)
Theorem stored_records_survive (w : World) :
  (forall name email phone address password rs r1 r2 d,
      (exists u, In u (dbOf (items w))
                 /\ toLowerCase (user_email u) = toLowerCase email) ->
      signupUser name email phone address password rs r1 r2 d w
      = Ret (failed exists_) (logged [Get USER_DB_KEY] w)) /\
  (forall name email phone address password rs r1 r2 d,
      exists tl,
        dbOf (items (after (signupUser name email phone address password
                                       rs r1 r2 d w)))
        = dbOf (items w) ++ tl) /\
  (forall ev a,
      adminAuth (items w) = Some a ->
      adminAuth (items (exec ev w)) = Some a).
Proof.
  repeat split.
  - intros name email phone address password rs r1 r2 d [u [Hu He]].
    apply signupUser_taken. apply existsb_exists. exists u.
    split; [exact Hu|]. unfold same_email. apply str_eqb_eq. exact He.
  - intros name email phone address password rs r1 r2 d.
    destruct (existsb (same_email email) (dbOf (items w))) eqn:Hx.
    + rewrite signupUser_taken by assumption. exists [].
      rewrite app_nil_r. reflexivity.
    + destruct (PBKDF2 (toBytes password) rs 120000) as [raw|] eqn:Hk.
      * destruct (signupUser_new name email phone address password rs r1 r2
                    d w raw Hx Hk) as [w' [E [Hdb _]]].
        rewrite E. cbn [after]. unfold dbOf at 1. rewrite Hdb. eauto.
      * rewrite signupUser_throws by assumption. exists [].
        rewrite app_nil_r. reflexivity.
  - intros ev a. apply exec_keeps_record.
Qed.

(* ------------------------------------------------------------------- *)
(** *** The lockout record along the events of the pages *)

Lemma lockUntilOf_written (l : Lockout) (w : World) :
  lockUntilOf (items (written LOCKOUT_KEY l w)) = lockUntil l.
Proof. unfold lockUntilOf, lockoutOf. cbn. apply or0_id. Qed.

(** One call of [login]: [lockUntil] stays, or grows, or is reset to
    zero by a login that answers [ok]. *)
Lemma login_lockUntil (email password : jsstring) (rnd : bytes) (d : Z)
    (w : World) :
  0 <= d ->
  lockUntilOf (items (after (login email password rnd d w)))
  = lockUntilOf (items w)
  \/ lockUntilOf (items w)
     < lockUntilOf (items (after (login email password rnd d w)))
  \/ (lockUntilOf (items (after (login email password rnd d w))) = 0
      /\ exists o, value (login email password rnd d w) = Some o
                   /\ ok o = true).
Proof.
  intros Hd.
  destruct (lockedAt w) eqn:Hl.
  { rewrite login_when_locked by assumption. left. reflexivity. }
  destruct (adminAuth (items w)) as [a|] eqn:Ha.
  2:{ rewrite login_no_record by assumption. left. reflexivity. }
  destruct (verifies password a) as [v|] eqn:Hv.
  2:{ destruct (login_throws email password rnd d w a Hl Ha Hv)
        as [w2 [E Hi]].
      rewrite E. cbn [after]. rewrite Hi. left. reflexivity. }
  rewrite (login_checked email password rnd d w a v Hl Ha Hv). cbv zeta.
  destruct (v && str_eqb email (auth_email a)).
  - right. right. split; [reflexivity|].
    exists ok_true. split; reflexivity.
  - cbn [after]. rewrite lockUntilOf_written. cbn [lockUntil].
    unfold lockedAt in Hl. apply Z.ltb_ge in Hl.
    destruct (Z.leb_spec 5 (countOf (items w) + 1)).
    + right. left. lia.
    + left. reflexivity.
Qed.

Lemma loginClick_without_record (email pass : jsstring) (rs rt : bytes)
    (d1 d2 : Z) (w : World) :
  adminAuth (items w) = None ->
  str_falsy email || str_falsy pass = false ->
  loginClick email pass rs rt d1 d2 w =
  if strong pass then
    match PBKDF2 (toBytes pass) rs 150000 with
    | None => Throw (later d1 (logged [Get AUTH_KEY] w))
    | Some raw =>
        (s <- login email pass rt d2 ;; ret (Some s))
          (written LOCKOUT_KEY (mkLockout 0 0)
             (written AUTH_KEY
                (mkAuth email (toBase64 rs) 150000 (toBase64 raw)
                        (clock w + d1) 1)
                (later d1 (logged [Get AUTH_KEY] w))))
    end
  else Ret (Some (failed weak)) (logged [Get AUTH_KEY] w).
Proof.
  intros Ha Hf. unfold loginClick. rewrite Hf. unfold bind at 1.
  rewrite hasAuth_run, Ha. cbn [negb]. unfold bind at 1.
  rewrite setupAdmin_run.
  destruct (strong pass); [|reflexivity].
  destruct (PBKDF2 (toBytes pass) rs 150000); reflexivity.
Qed.

Lemma reachable_lockout_follows_record (w : World) :
  reachable w -> lockout_follows_record w.
Proof.
  induction 1 as [t|w ev Hr IH Hf].
  - intros _. reflexivity.
  - intros Hnone.
    destruct (adminAuth (items w)) as [a|] eqn:Ha.
    { rewrite (exec_keeps_record ev w a Ha) in Hnone. discriminate. }
    specialize (IH Ha).
    pose proof (exec_keeps_admin adminLockout ev w) as K.
    destruct ev;
      try (rewrite K by (intros; reflexivity); exact IH).
    cbn [exec] in *.
    destruct (str_falsy email || str_falsy pass) eqn:He.
    { unfold loginClick. rewrite He. exact IH. }
    rewrite loginClick_without_record in * by assumption.
    destruct (strong pass); [|exact IH].
    destruct (PBKDF2 (toBytes pass) rs 150000) as [raw|]; [|exact IH].
    rewrite after_bind_ret, login_keeps_auth in Hnone. discriminate.
Qed.

Lemma reachable_run (evs : list Event) (w : World) :
  reachable w -> Forall forward evs -> reachable (run evs w).
Proof.
  revert w. induction evs as [|ev evs IH]; intros w Hr Hf; cbn.
  - exact Hr.
  - inversion Hf; subst. apply IH; [apply reach_step|]; assumption.
Qed.

(** C9. Along the events of the two pages, from an empty storage and
    with a clock that does not run backwards, each event leaves
    [lockUntil] as it was, or makes it larger, or resets it to zero,
    and the last only when the event is a login of the administrator
    that answers [ok]. *)
Theorem lockUntil_monotone (w : World) (ev : Event) :
  reachable w ->
  forward ev ->
  lockUntilOf (items (exec ev w)) = lockUntilOf (items w)
  \/ lockUntilOf (items w) < lockUntilOf (items (exec ev w))
  \/ (lockUntilOf (items (exec ev w)) = 0 /\ authenticates ev w = true).
Proof.
  intros Hr Hf.
  pose proof (reachable_lockout_follows_record w Hr) as Hinv.
  pose proof (exec_keeps_admin lockUntilOf ev w) as K.
  destruct ev; try (left; apply K; intros; reflexivity).
  clear K. cbn [exec authenticates forward] in *. destruct Hf as [Hd1 Hd2].
  destruct (str_falsy email || str_falsy pass) eqn:He.
  { unfold loginClick. rewrite He. left. reflexivity. }
  destruct (adminAuth (items w)) as [a|] eqn:Ha.
  - destruct (loginClick_with_record email pass rs rt d1 d2 w a Ha He)
      as [Ei Ev].
    rewrite Ei, Ev.
    destruct (login_lockUntil email pass rt d1 (logged [Get AUTH_KEY] w) Hd1)
      as [H|[H|[H [o [Ho Hok]]]]]; auto.
    right. right. split; [exact H|]. rewrite Ho. exact Hok.
  - specialize (Hinv Ha).
    assert (H0 : lockUntilOf (items w) = 0).
    { unfold lockUntilOf, lockoutOf. rewrite Hinv. reflexivity. }
    rewrite loginClick_without_record by assumption.
    destruct (strong pass); [|left; reflexivity].
    destruct (PBKDF2 (toBytes pass) rs 150000) as [raw|];
      [|left; reflexivity].
    rewrite after_bind_ret, value_bind_ret, H0.
    match goal with
    | |- context [login email pass rt d2 ?w2] =>
        destruct (login_lockUntil email pass rt d2 w2 Hd2)
          as [H|[H|[H [o [Ho Hok]]]]]
    end; auto.
Qed.

(* ------------------------------------------------------------------- *)
(** *** Key derivation and verification *)

Lemma deriveKey_value (password : jsstring) (salt : bytes) (iterations d : Z)
    (w : World) :
  value (deriveKey password salt iterations d w)
  = PBKDF2 (toBytes password) salt iterations.
Proof.
  unfold deriveKey, bind, await, orThrow.
  destruct (PBKDF2 (toBytes password) salt iterations); reflexivity.
Qed.

Lemma hashPassword_value (password : jsstring) (salt rnd : bytes)
    (iterations d : Z) (w : World) :
  value (hashPassword password (Some salt) iterations rnd d w)
  = option_map (fun raw => mkHashed (toBase64 salt) iterations (toBase64 raw))
               (PBKDF2 (toBytes password) salt iterations).
Proof.
  unfold hashPassword, deriveKey, bind, await, orThrow.
  destruct (PBKDF2 (toBytes password) salt iterations); reflexivity.
Qed.

Lemma pbkdf2_value (password : jsstring) (salt : bytes) (iterations d : Z)
    (w : World) :
  value (pbkdf2 password salt iterations d w)
  = option_map toBase64 (PBKDF2 (toBytes password) salt iterations).
Proof.
  unfold pbkdf2, bind, await, orThrow.
  destruct (PBKDF2 (toBytes password) salt iterations); reflexivity.
Qed.

Lemma verifies_hashed (password' email : jsstring) (salt raw : bytes)
    (iterations c v : Z) :
  verifies password'
    (mkAuth email (toBase64 salt) iterations (toBase64 raw) c v)
  = option_map (fun raw' => str_eqb (toBase64 raw') (toBase64 raw))
               (PBKDF2 (toBytes password') salt iterations).
Proof.
  unfold verifies. rewrite verifyPassword_run.
  cbn [auth_salt auth_iterations auth_hash].
  rewrite fromBase64_toBase64.
  destruct (PBKDF2 (toBytes password') salt iterations); reflexivity.
Qed.

(** C8. The derived key, the hashed record and the customer's hash
    depend on the password, the salt and the iteration count only,
    not on the world, the clock or the random draw. The record that
    [hashPassword] makes from [P] and [S] verifies [P]; it rejects
    every [P'] whose derived key differs from that of [P]. The same
    holds of the customer's check: [pbkdf2] of [P] on the decoded
    stored salt gives the stored hash again, and [pbkdf2] of every
    [P'] whose derived key differs gives another hash. *)
Theorem verification_round_trip (P : jsstring) (S : bytes) (iterations : Z) :
  (forall d1 d2 w1 w2 rnd1 rnd2,
      value (deriveKey P S iterations d1 w1)
      = value (deriveKey P S iterations d2 w2)
      /\ value (hashPassword P (Some S) iterations rnd1 d1 w1)
         = value (hashPassword P (Some S) iterations rnd2 d2 w2)
      /\ value (pbkdf2 P S iterations d1 w1)
         = value (pbkdf2 P S iterations d2 w2)) /\
  (forall rnd d w,
      match value (hashPassword P (Some S) iterations rnd d w) with
      | Some hp =>
          forall email c v d' w',
            value (verifyPassword P
                     (mkAuth email (h_salt hp) (h_iterations hp) (h_hash hp)
                             c v) d' w') = Some true
      | None => value (deriveKey P S iterations d w) = None
      end) /\
  (forall P' rnd d w hp key key' email c v d' w',
      value (hashPassword P (Some S) iterations rnd d w) = Some hp ->
      value (deriveKey P S iterations d w) = Some key ->
      value (deriveKey P' S iterations d w) = Some key' ->
      key' <> key ->
      value (verifyPassword P'
               (mkAuth email (h_salt hp) (h_iterations hp) (h_hash hp)
                       c v) d' w') = Some false) /\
  (forall d w hash,
      value (pbkdf2 P S iterations d w) = Some hash ->
      exists salt,
        fromBase64 (toBase64 S) = Some salt /\
        forall d' w',
          option_map (fun calc => negb (str_eqb calc hash))
                     (value (pbkdf2 P salt iterations d' w'))
          = Some false) /\
  (forall P' d w hash key key',
      value (pbkdf2 P S iterations d w) = Some hash ->
      PBKDF2 (toBytes P) S iterations = Some key ->
      PBKDF2 (toBytes P') S iterations = Some key' ->
      key' <> key ->
      exists salt,
        fromBase64 (toBase64 S) = Some salt /\
        forall d' w',
          option_map (fun calc => negb (str_eqb calc hash))
                     (value (pbkdf2 P' salt iterations d' w'))
          = Some true).
Proof.
  repeat split.
  - rewrite !deriveKey_value. reflexivity.
  - rewrite !hashPassword_value. reflexivity.
  - rewrite !pbkdf2_value. reflexivity.
  - intros rnd d w. rewrite hashPassword_value, deriveKey_value.
    destruct (PBKDF2 (toBytes P) S iterations) as [raw|] eqn:Hk;
      cbn [option_map]; [|reflexivity].
    intros email c v d' w'. cbn [h_salt h_iterations h_hash].
    rewrite verifyPassword_value, verifies_hashed, Hk. cbn [option_map].
    rewrite str_eqb_refl. reflexivity.
  - intros P' rnd d w hp key key' email c v d' w' Hh Hk Hk' Hne.
    rewrite hashPassword_value in Hh. rewrite deriveKey_value in Hk, Hk'.
    rewrite Hk in Hh. cbn [option_map] in Hh. injection Hh as <-.
    cbn [h_salt h_iterations h_hash].
    rewrite verifyPassword_value, verifies_hashed, Hk'. cbn [option_map].
    f_equal. apply str_eqb_neq. intros E. apply Hne.
    apply toBase64_inj. exact E.
  - intros d w hash Hh. exists S. split; [apply fromBase64_toBase64|].
    intros d' w'. rewrite pbkdf2_value in *.
    rewrite Hh. cbn [option_map]. rewrite str_eqb_refl. reflexivity.
  - intros P' d w hash key key' Hh Hk Hk' Hne.
    exists S. split; [apply fromBase64_toBase64|].
    intros d' w'. rewrite pbkdf2_value in *.
    rewrite Hk in Hh. cbn [option_map] in Hh. injection Hh as <-.
    rewrite Hk'. cbn [option_map]. f_equal.
    apply negb_true_iff. apply str_eqb_neq. intros E. apply Hne.
    apply toBase64_inj. exact E.
Qed.

Lemma find_app_new (email : jsstring) (db : list User) (u : User) :
  existsb (same_email email) db = false ->
  same_email email u = true ->
  find (same_email email) (db ++ [u]) = Some u.
Proof.
  intros Hn Hu. induction db as [|x db IH]; cbn in *.
  - rewrite Hu. reflexivity.
  - apply orb_false_iff in Hn. destruct Hn as [Hx Hn].
    rewrite Hx. auto.
Qed.

(** [loginUser] for a stored customer whose stored hash is the one
    the password derives. *)
Lemma loginUser_succeeds (email password r : jsstring) (d : Z) (w : World)
    (u : User) (salt raw : bytes) :
  find (same_email email) (dbOf (items w)) = Some u ->
  fromBase64 (h_salt (user_pass u)) = Some salt ->
  PBKDF2 (toBytes password) salt
         (or_default (h_iterations (user_pass u)) 120000) = Some raw ->
  toBase64 raw = h_hash (user_pass u) ->
  exists w',
    loginUser email password r d w = Ret (mkOutcome true None (Some u)) w'
    /\ userSession (items w')
       = Some (mkUserSession (user_id u) (user_email u) (clock w + d)
                             (clock w + d + 30 * 60 * 1000)).
Proof.
  intros Hf Hs Hk Hh. unfold loginUser. unfold bind at 1.
  rewrite getUsersDB_run, Hf. unfold bind at 1. rewrite Hs.
  cbn [orThrow ret]. unfold bind at 1, pbkdf2.
  unfold bind at 1. unfold bind at 1. cbn [await logged items clock].
  rewrite Hk. cbn [orThrow ret]. rewrite Hh, str_eqb_refl. cbn [negb].
  unfold bind at 1. cbn [Date_now clock]. unfold bind at 1.
  cbn [Date_now clock]. unfold bind at 1, setUserSession, ls_set.
  cbn [localStorage_setItem items clock log]. unfold bind at 1, getProfile,
    ls_get_null.
  cbn [localStorage_getItem items clock log]. unfold bind at 1, saveProfile,
    ls_set.
  cbn [localStorage_setItem items clock log]. unfold bind at 1.
  match goal with
  | |- context [upsertAdminUsers ?a ?b ?c ?e r ?w0] =>
      destruct (upsertAdminUsers_returns a b c e r w0)
        as [w1 [E [_ [_ [_ Hus]]]]]
  end.
  rewrite E. eexists. split; [reflexivity|].
  rewrite Hus. reflexivity.
Qed.

(** Sign-up, then login with the same email and password: the
    customer's page answers [ok] with the customer it created. *)
Lemma loginUser_after_signupUser
    (name email phone address password : jsstring) (rs : bytes)
    (r1 r2 r : jsstring) (d d' : Z) (w w' : World) (o : Outcome) :
  signupUser name email phone address password rs r1 r2 d w = Ret o w' ->
  ok o = true ->
  exists w'',
    loginUser email password r d' w' = Ret o w''.
Proof.
  intros E Hok.
  destruct (existsb (same_email email) (dbOf (items w))) eqn:Hx.
  { rewrite signupUser_taken in E by assumption. injection E as <- _.
    discriminate. }
  destruct (PBKDF2 (toBytes password) rs 120000) as [raw|] eqn:Hk.
  2:{ rewrite signupUser_throws in E by assumption. discriminate. }
  destruct (signupUser_new name email phone address password rs r1 r2 d w
              raw Hx Hk) as [w1 [E1 [Hdb _]]].
  rewrite E1 in E. injection E as <- <-.
  destruct (loginUser_succeeds email password r d' w1
              (newUser name email phone address rs raw r1 (clock w + d))
              rs raw) as [w2 [E2 _]].
  - unfold dbOf. rewrite Hdb. apply find_app_new; [exact Hx|].
    unfold same_email, newUser. cbn [user_email]. apply str_eqb_refl.
  - apply fromBase64_toBase64.
  - exact Hk.
  - reflexivity.
  - exists w2. exact E2.
Qed.

(* =================================================================== *)
(** ** Further properties of the two scripts *)
(* =================================================================== *)

(* ------------------------------------------------------------------- *)
(** *** Base64 and tokens *)

Lemma toBase64_length (bs : bytes) :
  List.length (toBase64 bs) = (4 * ((List.length bs + 2) / 3))%nat.
Proof.
  induction bs as [|a|a b|a b c r IH] using bytes_ind3; try reflexivity.
  change (toBase64 (a :: b :: c :: r))
    with (enc3 (Byte.to_N a) (Byte.to_N b) (Byte.to_N c) ++ toBase64 r).
  unfold enc3. cbn [app List.length]. rewrite IH.
  replace (S (S (S (List.length r))) + 2)%nat
    with (List.length r + 2 + 1 * 3)%nat by lia.
  rewrite Nat.div_add by lia. lia.
Qed.

(** X1. Decoding the base64 text of a byte array gives the byte array
    back, so two byte arrays with the same text are equal; the text has
    four characters for every three bytes, the last group padded. *)
Theorem base64_round_trip (bs : bytes) :
  fromBase64 (toBase64 bs) = Some bs
  /\ (forall bs', toBase64 bs' = toBase64 bs -> bs' = bs)
  /\ List.length (toBase64 bs) = (4 * ((List.length bs + 2) / 3))%nat.
Proof.
  split; [apply fromBase64_toBase64|].
  split; [intros bs'; apply toBase64_inj | apply toBase64_length].
Qed.

Lemma hexdigit_is_hex (n : N) : (n < 16)%N -> is_hex (hexdigit n) = true.
Proof.
  intros H. unfold is_hex, hexdigit.
  destruct (N.ltb_spec n 10);
    repeat match goal with
           | |- context [(?a <=? ?b)%N] => destruct (N.leb_spec a b)
           end; cbn [andb orb]; try reflexivity; lia.
Qed.

Lemma hexdigit_inj (n m : N) :
  (n < 16)%N -> (m < 16)%N -> hexdigit n = hexdigit m -> n = m.
Proof.
  unfold hexdigit. intros Hn Hm.
  destruct (N.ltb_spec n 10); destruct (N.ltb_spec m 10); lia.
Qed.

Lemma hex2_inj (a b : byte) : hex2 a = hex2 b -> a = b.
Proof.
  unfold hex2. intros H. injection H as H1 H2.
  pose proof (to_N_lt a). pose proof (to_N_lt b).
  apply hexdigit_inj in H1; [|divmod|divmod].
  apply hexdigit_inj in H2; [|divmod|divmod].
  assert (E : Byte.to_N a = Byte.to_N b) by divmod.
  rewrite <- (byte_of_to_N a), <- (byte_of_to_N b), E. reflexivity.
Qed.

(** X2. The token of [n] random bytes has [2 n] characters, all of them
    digits or letters [a] to [f], and different random bytes give
    different tokens. *)
Theorem createToken_faithful (rnd : bytes) :
  List.length (createToken rnd) = (2 * List.length rnd)%nat
  /\ forallb is_hex (createToken rnd) = true
  /\ (forall rnd', createToken rnd' = createToken rnd -> rnd' = rnd).
Proof.
  clear PBKDF2 toBytes toLowerCase.
  unfold createToken. repeat split.
  - induction rnd as [|b r IH]; [reflexivity|].
    cbn [flat_map]. rewrite length_app, IH. cbn. lia.
  - induction rnd as [|b r IH]; [reflexivity|].
    cbn [flat_map]. rewrite forallb_app, IH.
    pose proof (to_N_lt b). unfold hex2. cbn [forallb].
    rewrite !hexdigit_is_hex by divmod. reflexivity.
  - induction rnd as [|b r IH]; intros [|b' r'] H; cbn [flat_map] in H;
      try reflexivity; try discriminate H.
    unfold hex2 at 1 3 in H. cbn [app] in H.
    injection H as H1 H2 H3.
    f_equal.
    + apply hex2_inj. unfold hex2. rewrite H1, H2. reflexivity.
    + apply IH. exact H3.
Qed.

(* ------------------------------------------------------------------- *)
(** *** The administrator's first click, session window and logout *)

(** X3. On a browser without a record, a click on the login button with
    an email and a strong password stores the record, resets the
    lockout and, the clock being past the epoch, logs in at once: the
    handler's own login cannot fail after its setup. *)
Theorem first_click_sets_up_and_logs_in (email pass : jsstring)
    (rs rt : bytes) (d1 d2 : Z) (w : World) (raw : bytes) :
  adminAuth (items w) = None ->
  str_falsy email = false ->
  str_falsy pass = false ->
  strong pass = true ->
  PBKDF2 (toBytes pass) rs 150000 = Some raw ->
  0 <= clock w + d1 ->
  exists w',
    loginClick email pass rs rt d1 d2 w = Ret (Some ok_true) w'
    /\ adminAuth (items w')
       = Some (mkAuth email (toBase64 rs) 150000 (toBase64 raw)
                      (clock w + d1) 1)
    /\ adminLockout (items w') = Some (mkLockout 0 0)
    /\ adminSession (items w') = Some (issued rt email (clock w + d1 + d2))
    /\ clock w' = clock w + d1 + d2.
Proof.
  intros Ha He Hp Hs Hk Hc.
  rewrite loginClick_without_record
    by (try assumption; rewrite He, Hp; reflexivity).
  rewrite Hs, Hk. unfold bind.
  match goal with
  | |- context [login email pass rt d2 ?w2] =>
      rewrite (login_checked email pass rt d2 w2
                 (mkAuth email (toBase64 rs) 150000 (toBase64 raw)
                         (clock w + d1) 1) true)
  end.
  - cbv zeta. cbn [auth_email]. rewrite str_eqb_refl. cbn [andb].
    eexists. split; [reflexivity|].
    cbn [written later logged items clock putItem adminAuth adminLockout
         adminSession].
    repeat split.
  - unfold lockedAt. rewrite lockUntilOf_written.
    cbn [written later logged clock lockUntil]. apply Z.ltb_ge. exact Hc.
  - reflexivity.
  - rewrite verifies_hashed, Hk. cbn [option_map].
    rewrite str_eqb_refl. reflexivity.
Qed.

(** X4. A login that answers [ok], and a keep-alive on a stored
    session, both open a window of exactly thirty minutes: [e]
    milliseconds later [isLoggedIn] answers [true] when [e] is at most
    1800000 and leaves storage alone, and otherwise answers [false] and
    removes the session. *)
Theorem session_window (w : World) (e : Z) :
  (forall email password rnd d o w',
      login email password rnd d w = Ret o w' ->
      ok o = true ->
      value (isLoggedIn (later e w')) = Some (e <=? 30 * 60 * 1000)
      /\ items (after (isLoggedIn (later e w')))
         = if e <=? 30 * 60 * 1000 then items w'
           else putItem SESSION_KEY None (items w')) /\
  (forall s w',
      adminSession (items w) = Some s ->
      refreshSession w = Ret tt w' ->
      value (isLoggedIn (later e w')) = Some (e <=? 30 * 60 * 1000)
      /\ items (after (isLoggedIn (later e w')))
         = if e <=? 30 * 60 * 1000 then items w'
           else putItem SESSION_KEY None (items w')).
Proof.
  split.
  - intros email password rnd d o w' E Hok.
    destruct (login_ok_inv _ _ _ _ _ _ _ E Hok) as [_ [a [_ [_ [_ [_ Hw]]]]]].
    subst w'. rewrite isLoggedIn_run.
    cbn [written later logged items clock putItem adminSession issued
         expiresAt].
    match goal with
    | |- context [?a <? ?b] => destruct (Z.ltb_spec a b)
    end;
      destruct (Z.leb_spec e (30 * 60 * 1000)); try lia; split; reflexivity.
  - intros s w' Hs E. rewrite refreshSession_run, Hs in E.
    injection E as <-. rewrite isLoggedIn_run.
    cbn [written later logged items clock putItem adminSession expiresAt].
    match goal with
    | |- context [?a <? ?b] => destruct (Z.ltb_spec a b)
    end;
      destruct (Z.leb_spec e (30 * 60 * 1000)); try lia; split; reflexivity.
Qed.

(** X5. [logout] removes the session and nothing else; afterwards
    [isLoggedIn] answers [false] at any time and the keep-alive does not
    bring the session back. *)
Theorem logout_ends_session (w : World) (e : Z) :
  logout w = Ret tt (removed SESSION_KEY w)
  /\ items (removed SESSION_KEY w) = putItem SESSION_KEY None (items w)
  /\ value (isLoggedIn (later e (removed SESSION_KEY w))) = Some false
  /\ items (after (refreshSession (later e (removed SESSION_KEY w))))
     = items (removed SESSION_KEY w)
  /\ value (isLoggedIn
              (after (refreshSession (later e (removed SESSION_KEY w)))))
     = Some false.
Proof.
  split; [reflexivity|]. split; [reflexivity|].
  rewrite refreshSession_run, isLoggedIn_run.
  cbn [removed later items clock putItem adminSession after value].
  repeat split.
Qed.

(* ------------------------------------------------------------------- *)
(** *** Customer sign-up and login *)

Lemma same_email_lower (e e' : jsstring) (u : User) :
  toLowerCase e' = toLowerCase e -> same_email e' u = same_email e u.
Proof. intros H. unfold same_email. rewrite H. reflexivity. Qed.

Lemma existsb_same_email (e e' : jsstring) (db : list User) :
  toLowerCase e' = toLowerCase e ->
  existsb (same_email e') db = existsb (same_email e) db.
Proof.
  intros H. induction db as [|u db IH]; [reflexivity|].
  cbn. rewrite IH, (same_email_lower e e' u H). reflexivity.
Qed.

Lemma find_same_email_none (e : jsstring) (db : list User) :
  (forall u, In u db -> toLowerCase (user_email u) <> toLowerCase e) ->
  find (same_email e) db = None.
Proof.
  intros H. induction db as [|u db IH]; [reflexivity|]. cbn.
  destruct (same_email e u) eqn:E.
  - apply str_eqb_eq in E. exfalso. apply (H u); [left; reflexivity | exact E].
  - apply IH. intros u' Hu'. apply H. right. exact Hu'.
Qed.

(** [loginUser] for a stored customer whose stored hash is not the one
    the password derives. *)
Lemma loginUser_rejects (email password r : jsstring) (d : Z) (w : World)
    (u : User) (salt raw : bytes) :
  find (same_email email) (dbOf (items w)) = Some u ->
  fromBase64 (h_salt (user_pass u)) = Some salt ->
  PBKDF2 (toBytes password) salt
         (or_default (h_iterations (user_pass u)) 120000) = Some raw ->
  toBase64 raw <> h_hash (user_pass u) ->
  loginUser email password r d w
  = Ret (mkOutcome false None None) (later d (logged [Get USER_DB_KEY] w)).
Proof.
  intros Hf Hs Hk Hh. unfold loginUser. unfold bind at 1.
  rewrite getUsersDB_run, Hf. unfold bind at 1. rewrite Hs.
  cbn [orThrow ret]. unfold bind at 1, pbkdf2.
  unfold bind at 1. unfold bind at 1. cbn [await logged items clock].
  rewrite Hk. cbn [orThrow ret].
  apply str_eqb_neq in Hh. rewrite Hh. reflexivity.
Qed.

(** X6. After a sign-up that answers [ok], [loginUser] with the same
    password and the same email, in any case of letters that
    [toLowerCase] identifies, answers [ok] with the customer created
    and stores a session for that customer; with a password whose
    derived key is another one it answers [{ ok: false }] and writes
    nothing. *)
Theorem signup_then_loginUser
    (name email phone address password : jsstring) (rs : bytes)
    (r1 r2 : jsstring) (d : Z) (w w' : World) (o : Outcome) :
  signupUser name email phone address password rs r1 r2 d w = Ret o w' ->
  ok o = true ->
  (forall email' r d',
      toLowerCase email' = toLowerCase email ->
      exists u w'',
        user o = Some u
        /\ loginUser email' password r d' w' = Ret o w''
        /\ userSession (items w'')
           = Some (mkUserSession (user_id u) (user_email u) (clock w' + d')
                                 (clock w' + d' + 30 * 60 * 1000))) /\
  (forall email' password' r d' key key',
      toLowerCase email' = toLowerCase email ->
      PBKDF2 (toBytes password) rs 120000 = Some key ->
      PBKDF2 (toBytes password') rs 120000 = Some key' ->
      key' <> key ->
      loginUser email' password' r d' w'
      = Ret (mkOutcome false None None)
            (later d' (logged [Get USER_DB_KEY] w'))).
Proof.
  intros E Hok.
  destruct (existsb (same_email email) (dbOf (items w))) eqn:Hx.
  { rewrite signupUser_taken in E by assumption. injection E as <- _.
    discriminate. }
  destruct (PBKDF2 (toBytes password) rs 120000) as [raw|] eqn:Hk.
  2:{ rewrite signupUser_throws in E by assumption. discriminate. }
  destruct (signupUser_new name email phone address password rs r1 r2 d w
              raw Hx Hk) as [w1 [E1 [Hdb _]]].
  rewrite E1 in E. injection E as <- <-.
  assert (Hfind : forall email',
             toLowerCase email' = toLowerCase email ->
             find (same_email email') (dbOf (items w1))
             = Some (newUser name email phone address rs raw r1 (clock w + d))).
  { intros email' He. unfold dbOf. rewrite Hdb. apply find_app_new.
    - rewrite (existsb_same_email email email' _ He). exact Hx.
    - rewrite (same_email_lower email email' _ He).
      unfold same_email, newUser. cbn [user_email]. apply str_eqb_refl. }
  split.
  - intros email' r d' He.
    destruct (loginUser_succeeds email' password r d' w1
                (newUser name email phone address rs raw r1 (clock w + d))
                rs raw (Hfind email' He) (fromBase64_toBase64 rs) Hk eq_refl)
      as [w2 [E2 Hs]].
    exists (newUser name email phone address rs raw r1 (clock w + d)), w2.
    split; [reflexivity|]. split; [exact E2 | exact Hs].
  - intros email' password' r d' key key' He Hkey Hk' Hne.
    injection Hkey as <-.
    apply (loginUser_rejects email' password' r d' w1
             (newUser name email phone address rs raw r1 (clock w + d))
             rs key' (Hfind email' He) (fromBase64_toBase64 rs) Hk').
    cbn [newUser user_pass h_hash]. intros Heq. apply Hne.
    apply toBase64_inj. exact Heq.
Qed.

(** X7. [loginUser] with an email that no stored customer has, up to
    [toLowerCase], answers [{ ok: false }] at once: it reads [usersDB],
    derives no key, lets no time pass and writes nothing. *)
Theorem loginUser_unknown_email (email password r : jsstring) (d : Z)
    (w : World) :
  (forall u, In u (dbOf (items w)) ->
             toLowerCase (user_email u) <> toLowerCase email) ->
  loginUser email password r d w
  = Ret (mkOutcome false None None) (logged [Get USER_DB_KEY] w).
Proof.
  intros H. unfold loginUser, bind.
  rewrite getUsersDB_run, (find_same_email_none email _ H). reflexivity.
Qed.

(* ------------------------------------------------------------------- *)
(** *** The administrator's list of customers *)

Lemma findIndex_assign {A} (p : A -> bool) (l : list A) (i : nat) (x : A) :
  findIndex p l = Some i ->
  p x = true ->
  findIndex p (assign l i x) = Some i
  /\ nth_error (assign l i x) i = Some x
  /\ List.length (assign l i x) = List.length l
  /\ (forall j, j <> i -> nth_error (assign l i x) j = nth_error l j).
Proof.
  revert i. induction l as [|y l IH]; intros i Hf Hx; cbn in Hf.
  - discriminate Hf.
  - destruct (p y) eqn:Hy.
    + injection Hf as <-. cbn. rewrite Hx. repeat split.
      intros [|j] Hj; [congruence | reflexivity].
    + destruct (findIndex p l) as [k|] eqn:Hk; [|discriminate Hf].
      injection Hf as <-. destruct (IH k eq_refl Hx) as [H1 [H2 [H3 H4]]].
      cbn. rewrite Hy, H1. repeat split; auto.
      intros [|j] Hj; [reflexivity|]. cbn. apply H4. congruence.
Qed.

Lemma findIndex_app_new {A} (p : A -> bool) (l : list A) (x : A) :
  findIndex p l = None ->
  p x = true ->
  findIndex p (l ++ [x]) = Some (List.length l)
  /\ nth_error (l ++ [x]) (List.length l) = Some x
  /\ (forall j, j <> List.length l ->
                nth_error (l ++ [x]) j = nth_error l j).
Proof.
  induction l as [|y l IH]; intros Hf Hx; cbn in *.
  - rewrite Hx. repeat split.
    intros [|[|j]] Hj; try congruence; reflexivity.
  - destruct (p y) eqn:Hy; [discriminate Hf|].
    destruct (findIndex p l) eqn:Hk; [discriminate Hf|].
    destruct (IH eq_refl Hx) as [H1 [H2 H3]].
    rewrite H1. repeat split; auto.
    intros [|j] Hj; [reflexivity|]. cbn. apply H3. congruence.
Qed.

Lemma same_contact_self (id name email phone address : jsstring) :
  same_contact phone email (mkAdminUser id name email phone address) = true.
Proof.
  unfold same_contact. cbn [au_phone au_email].
  rewrite str_eqb_refl. reflexivity.
Qed.

Lemma upsertAdminUsers_run (name email phone address rnd : jsstring)
    (w : World) :
  upsertAdminUsers name email phone address rnd w =
  match findIndex (same_contact phone email) (usersOf (items w)) with
  | Some i =>
      Ret tt
          (written USERS_KEY
             (assign (usersOf (items w)) i
                (mkAdminUser
                   (match nth_error (usersOf (items w)) i with
                    | Some u => au_id u
                    | None => []
                    end) name email phone address))
             (logged [Get USERS_KEY] w))
  | None =>
      Ret tt
          (written USERS_KEY
             (usersOf (items w)
              ++ [mkAdminUser
                    (lit "user" ++ lit "_" ++ decimal (clock w) ++ lit "_"
                     ++ rnd) name email phone address])
             (logged [Get USERS_KEY] w))
  end.
Proof.
  unfold usersOf, same_contact, upsertAdminUsers, ls_get, ls_set, generateId.
  unfold bind at 1. unfold bind at 1.
  cbn [localStorage_getItem getItem ret]. cbv beta zeta.
  destruct (users (items w)) as [l|];
    match goal with
    | |- context [findIndex ?p ?l] => destruct (findIndex p l)
    end; reflexivity.
Qed.

Lemma upsertAdminUsers_effect (name email phone address rnd : jsstring)
    (w : World) :
  exists w' i id,
    upsertAdminUsers name email phone address rnd w = Ret tt w'
    /\ findIndex (same_contact phone email) (usersOf (items w')) = Some i
    /\ nth_error (usersOf (items w')) i
       = Some (mkAdminUser id name email phone address)
    /\ (forall j, j <> i ->
           nth_error (usersOf (items w')) j = nth_error (usersOf (items w)) j)
    /\ match findIndex (same_contact phone email) (usersOf (items w)) with
       | Some k =>
           i = k
           /\ option_map au_id (nth_error (usersOf (items w)) k) = Some id
           /\ List.length (usersOf (items w'))
              = List.length (usersOf (items w))
       | None =>
           i = List.length (usersOf (items w))
           /\ List.length (usersOf (items w'))
              = S (List.length (usersOf (items w)))
       end
    /\ (forall rnd',
           items (after (upsertAdminUsers name email phone address rnd' w'))
           = items w').
Proof.
  rewrite upsertAdminUsers_run.
  destruct (findIndex (same_contact phone email) (usersOf (items w)))
    as [k|] eqn:Hf.
  - destruct (nth_error (usersOf (items w)) k) as [u|] eqn:Hn.
    2:{ exfalso. revert k Hf Hn. generalize (usersOf (items w)).
        induction l as [|y l IH]; intros k Hf Hn; cbn in Hf;
          [discriminate Hf|].
        destruct (same_contact phone email y).
        - injection Hf as <-. discriminate Hn.
        - destruct (findIndex (same_contact phone email) l) as [k'|] eqn:Hk;
            [|discriminate Hf].
          injection Hf as <-. apply (IH k' eq_refl). exact Hn. }
    destruct (findIndex_assign (same_contact phone email) (usersOf (items w))
                k (mkAdminUser (au_id u) name email phone address) Hf
                (same_contact_self _ _ _ _ _)) as [H1 [H2 [H3 H4]]].
    eexists. exists k, (au_id u). split; [reflexivity|].
    cbn [written logged items putItem users usersOf].
    repeat split; auto.
    intros rnd'. rewrite upsertAdminUsers_run.
    cbn [written logged items putItem users usersOf]. rewrite H1, H2.
    cbn [after written logged items putItem au_id]. f_equal. f_equal.
    clear - Hf. revert k Hf. generalize (usersOf (items w)).
    induction l as [|y l IH]; intros k Hf; cbn in Hf; [discriminate Hf|].
    destruct (same_contact phone email y).
    + injection Hf as <-. reflexivity.
    + destruct (findIndex (same_contact phone email) l) as [k'|] eqn:Hk;
        [|discriminate Hf].
      injection Hf as <-. cbn. f_equal. apply IH. reflexivity.
  - destruct (findIndex_app_new (same_contact phone email)
                (usersOf (items w))
                (mkAdminUser (lit "user" ++ lit "_" ++ decimal (clock w)
                              ++ lit "_" ++ rnd) name email phone address) Hf
                (same_contact_self _ _ _ _ _)) as [H1 [H2 H3]].
    eexists. exists (List.length (usersOf (items w))). eexists.
    split; [reflexivity|].
    cbn [written logged items putItem users usersOf].
    repeat split; eauto.
    + rewrite length_app. cbn. lia.
    + intros rnd'. rewrite upsertAdminUsers_run.
      cbn [written logged items putItem users usersOf]. rewrite H1, H2.
      cbn [after written logged items putItem au_id]. f_equal. f_equal.
      clear. induction (usersOf (items w)) as [|y l IH]; [reflexivity|].
      cbn. f_equal. exact IH.
Qed.

(** X8. After [upsertAdminUsers] the list has, at the first place whose
    phone or email is the given one, an entry with the given name,
    email, phone and address; every other place is as before. An entry
    that was there keeps its identifier and the list its length;
    otherwise the entry is new, at the end. Doing the same upsert again
    changes nothing in storage. *)
Theorem upsertAdminUsers_upserts (name email phone address rnd : jsstring)
    (w : World) :
  exists w' i id,
    upsertAdminUsers name email phone address rnd w = Ret tt w'
    /\ findIndex (same_contact phone email) (usersOf (items w')) = Some i
    /\ nth_error (usersOf (items w')) i
       = Some (mkAdminUser id name email phone address)
    /\ (forall j, j <> i ->
           nth_error (usersOf (items w')) j = nth_error (usersOf (items w)) j)
    /\ match findIndex (same_contact phone email) (usersOf (items w)) with
       | Some k =>
           i = k
           /\ option_map au_id (nth_error (usersOf (items w)) k) = Some id
           /\ List.length (usersOf (items w'))
              = List.length (usersOf (items w))
       | None =>
           i = List.length (usersOf (items w))
           /\ List.length (usersOf (items w'))
              = S (List.length (usersOf (items w)))
       end
    /\ (forall rnd',
           items (after (upsertAdminUsers name email phone address rnd' w'))
           = items w').
Proof. apply upsertAdminUsers_effect. Qed.

(* ------------------------------------------------------------------- *)
(** *** Which keys an event writes *)

Create HintDb engine.

#[local] Hint Unfold loginClick hasAuth setupAdmin hashPassword login
  isLockedOut getLockout getAuth setAuth verifyPassword deriveKey
  resetLockout recordFailure setLockout getSession setSession clearSession
  logout isLoggedIn refreshSession signupClick signupUser userLoginClick
  loginUser getUsersDB setUsersDB getProfile saveProfile pbkdf2 generateId
  upsertAdminUsers getUserSession setUserSession isUserLoggedIn
  refreshUserSession ls_get ls_get_null ls_set Admin.seedIfNeeded
  Customer.seedIfNeeded missing requireAuthOnFirstVisit : engine.

Ltac frame_all := repeat autounfold with engine; repeat frame_step.

Lemma exec_untouched (ev : Event) (w : World) (k : Key) :
  ~ In k (touched ev) ->
  getItem k (items (exec ev w)) = getItem k (items w).
Proof.
  intros H.
  destruct ev; destruct k; cbn [touched In] in H;
    try (exfalso; tauto); cbn [exec];
    match goal with
    | |- ?f (items (after (?c w))) = _ =>
        let K := fresh in
        assert (K : keeps f c) by frame_all; apply K
    end.
Qed.




(* ------------------------------------------------------------------- *)
(** *** The clock along a computation *)

Lemma advances_ret {A} (a : A) : advances (ret a).
Proof. intros w. cbn. lia. Qed.

Lemma advances_throw {A} : advances (@throw A).
Proof. intros w. cbn. lia. Qed.

Lemma advances_bind {A B} (c : M A) (k : A -> M B) :
  advances c -> (forall a, advances (k a)) -> advances (bind c k).
Proof.
  intros Hc Hk w. unfold bind. specialize (Hc w).
  destruct (c w) as [a w1|w1]; cbn [after] in *.
  - specialize (Hk a w1). lia.
  - exact Hc.
Qed.

Lemma advances_orThrow {A} (o : option A) : advances (orThrow o).
Proof. destruct o; intros w; cbn; lia. Qed.

Lemma advances_Date_now : advances Date_now.
Proof. intros w. cbn. lia. Qed.

Lemma advances_await (d : Z) : 0 <= d -> advances (await d).
Proof. intros H w. cbn. lia. Qed.

Lemma advances_getItem (k : Key) : advances (localStorage_getItem k).
Proof. intros w. cbn. lia. Qed.

Lemma advances_setItem (k : Key) (v : slot k) :
  advances (localStorage_setItem k v).
Proof. intros w. cbn. lia. Qed.

Lemma advances_removeItem (k : Key) : advances (localStorage_removeItem k).
Proof. intros w. cbn. lia. Qed.

Ltac clock_step :=
  match goal with
  | |- advances (bind _ _) => apply advances_bind; [| intros ]
  | |- advances (ret _) => apply advances_ret
  | |- advances throw => apply advances_throw
  | |- advances (orThrow _) => apply advances_orThrow
  | |- advances Date_now => apply advances_Date_now
  | |- advances (await _) => apply advances_await; assumption
  | |- advances (localStorage_getItem _) => apply advances_getItem
  | |- advances (localStorage_setItem _ _) => apply advances_setItem
  | |- advances (localStorage_removeItem _) => apply advances_removeItem
  | |- advances (if ?b then _ else _) => destruct b
  | |- advances (match ?x with _ => _ end) => destruct x
  | |- advances (let _ := _ in _) => cbv zeta
  end.

Ltac clock_all := repeat autounfold with engine; repeat clock_step.

Lemma login_advances (email password : jsstring) (rnd : bytes) (d : Z) :
  0 <= d -> advances (login email password rnd d).
Proof. intros H. clock_all. Qed.

Lemma exec_clock (ev : Event) (w : World) :
  forward ev -> clock w <= clock (exec ev w).
Proof.
  intros H. destruct ev; cbn [exec forward] in *;
    [destruct H as [H1 H2]|..];
    match goal with
    | |- _ <= clock (after (?c w)) =>
        let K := fresh in assert (K : advances c) by clock_all; apply K
    end.
Qed.

(* ------------------------------------------------------------------- *)
(** *** What a login and a click leave behind *)

(** The three ways a [login] ends: nothing written; the lockout reset
    and a session stored; or a failure recorded. *)
Lemma login_cases (email password : jsstring) (rnd : bytes) (d : Z)
    (w : World) :
  items (after (login email password rnd d w)) = items w
  \/ (exists a,
         adminAuth (items w) = Some a /\ email = auth_email a
         /\ lockedAt w = false
         /\ items (after (login email password rnd d w))
            = putItem SESSION_KEY (Some (issued rnd email (clock w + d)))
                (putItem LOCKOUT_KEY (Some (mkLockout 0 0)) (items w))
         /\ clock (after (login email password rnd d w)) = clock w + d)
  \/ (lockedAt w = false
      /\ items (after (login email password rnd d w))
         = putItem LOCKOUT_KEY
             (Some (mkLockout (countOf (items w) + 1)
                      (if 5 <=? countOf (items w) + 1
                       then clock w + d
                            + Z.min (countOf (items w) + 1 - 4) 6 * 60 * 1000
                       else lockUntilOf (items w))))
             (items w)
      /\ clock (after (login email password rnd d w)) = clock w + d).
Proof.
  destruct (lockedAt w) eqn:Hl.
  { rewrite login_when_locked by assumption. left. reflexivity. }
  destruct (adminAuth (items w)) as [a|] eqn:Ha.
  2:{ rewrite login_no_record by assumption. left. reflexivity. }
  destruct (verifies password a) as [v|] eqn:Hv.
  2:{ destruct (login_throws email password rnd d w a Hl Ha Hv)
        as [w2 [E Hi]].
      rewrite E. left. exact Hi. }
  rewrite (login_checked email password rnd d w a v Hl Ha Hv). cbv zeta.
  destruct (v && str_eqb email (auth_email a)) eqn:Hc.
  - right. left. exists a. apply andb_true_iff in Hc. destruct Hc as [_ He].
    apply str_eqb_eq in He. repeat split; auto.
  - right. right. repeat split.
Qed.

Lemma loginClick_cases (email pass : jsstring) (rs rt : bytes) (d1 d2 : Z)
    (w : World) :
  0 <= d1 ->
  (items (after (loginClick email pass rs rt d1 d2 w)) = items w
   /\ clock w <= clock (after (loginClick email pass rs rt d1 d2 w)))
  \/ (exists w0 d,
         (d = d1 \/ d = d2)
         /\ clock w <= clock w0
         /\ (items w0 = items w
             \/ exists a,
                  adminAuth (items w) = None
                  /\ items w0
                     = putItem LOCKOUT_KEY (Some (mkLockout 0 0))
                         (putItem AUTH_KEY (Some a) (items w)))
         /\ items (after (loginClick email pass rs rt d1 d2 w))
            = items (after (login email pass rt d w0))
         /\ clock (after (loginClick email pass rs rt d1 d2 w))
            = clock (after (login email pass rt d w0))).
Proof.
  intros Hd1.
  destruct (str_falsy email || str_falsy pass) eqn:Hf.
  { left. unfold loginClick. rewrite Hf. cbn. split; [reflexivity | lia]. }
  destruct (adminAuth (items w)) as [a|] eqn:Ha.
  - right. exists (logged [Get AUTH_KEY] w), d1.
    split; [left; reflexivity|]. split; [cbn; lia|].
    split; [left; reflexivity|].
    assert (E : loginClick email pass rs rt d1 d2 w
                = (res <- login email pass rt d1 ;;
                   match reason res with
                   | Some locked =>
                       st <- getLockout ;; ms <- Date_now ;; ret (Some res)
                   | _ => ret (Some res)
                   end) (logged [Get AUTH_KEY] w)).
    { unfold loginClick. rewrite Hf. unfold bind at 1.
      rewrite hasAuth_run, Ha. reflexivity. }
    rewrite E. unfold bind at 1 4.
    destruct (login email pass rt d1 (logged [Get AUTH_KEY] w)) as [o w1|w1];
      [|split; reflexivity].
    destruct (reason o) as [[]|]; split; reflexivity.
  - rewrite loginClick_without_record by assumption.
    destruct (strong pass); [|left; cbn; split; [reflexivity | lia]].
    destruct (PBKDF2 (toBytes pass) rs 150000) as [raw|];
      [|left; cbn; split; [reflexivity | lia]].
    right. eexists. exists d2. split; [right; reflexivity|].
    rewrite after_bind_ret.
    split; [|split; [|split; reflexivity]].
    + cbn. lia.
    + right. eexists. split; reflexivity.
Qed.

(* ------------------------------------------------------------------- *)
(** *** The lockout record stays sound *)

Lemma lockout_well_formed_later (w w' : World) :
  adminLockout (items w') = adminLockout (items w) -> clock w <= clock w' ->
  lockout_well_formed w -> lockout_well_formed w'.
Proof.
  unfold lockout_well_formed, lockoutOf. intros -> Hc [H1 [H2 H3]].
  repeat split; auto. destruct H3; [left | right]; lia.
Qed.

Lemma login_keeps_lockout_well_formed (email password : jsstring)
    (rnd : bytes) (d : Z) (w : World) :
  0 <= d ->
  lockout_well_formed w ->
  lockout_well_formed (after (login email password rnd d w)).
Proof.
  intros Hd Hw.
  destruct (login_cases email password rnd d w)
    as [Hi|[[a [_ [_ [_ [Hi Hc]]]]]|[Hl [Hi Hc]]]].
  - apply (lockout_well_formed_later w); auto.
    + rewrite Hi. reflexivity.
    + apply login_advances; auto.
  - unfold lockout_well_formed. rewrite Hi. cbn. lia.
  - destruct Hw as [H1 [H2 H3]].
    unfold lockout_well_formed. rewrite Hi, Hc.
    unfold lockoutOf at 1 2 3 4 5.
    cbn [putItem adminLockout count lockUntil].
    unfold countOf, lockUntilOf. rewrite !or0_id.
    destruct (Z.leb_spec 5 (count (lockoutOf (items w)) + 1)).
    + split; [lia|]. split; [lia|]. right. lia.
    + split; [lia|]. split; [intros _; apply H2; lia|].
      left. apply H2. lia.
Qed.

(** X10. In every world the two pages reach, the lockout record is
    sound: its count is not negative, below five failures there is no
    lock, and a lock never ends more than six minutes from now. *)
Theorem reachable_lockout_well_formed (w : World) :
  reachable w -> lockout_well_formed w.
Proof.
  induction 1 as [t|w ev Hr IH Hf].
  - unfold lockout_well_formed. cbn. lia.
  - pose proof (exec_clock ev w Hf) as Hc.
    pose proof (exec_untouched ev w LOCKOUT_KEY) as Hu.
    destruct ev;
      try (apply (lockout_well_formed_later w); auto;
           apply Hu; cbn; intuition discriminate).
    clear Hu Hc. cbn [exec forward] in *. destruct Hf as [Hd1 Hd2].
    destruct (loginClick_cases email pass rs rt d1 d2 w Hd1)
      as [[Hi Hc]|[w0 [d [Hd [Hc [H0 [Hi Hk]]]]]]].
    + apply (lockout_well_formed_later w); auto. rewrite Hi. reflexivity.
    + assert (Hd' : 0 <= d) by (destruct Hd; subst; assumption).
      assert (I0 : lockout_well_formed w0).
      { destruct H0 as [H0|[a [_ H0]]].
        - apply (lockout_well_formed_later w); auto. rewrite H0. reflexivity.
        - unfold lockout_well_formed. rewrite H0. cbn. lia. }
      pose proof (login_keeps_lockout_well_formed email pass rt d w0 Hd' I0)
        as I1.
      unfold lockout_well_formed in *. rewrite Hi, Hk. exact I1.
Qed.

(* ------------------------------------------------------------------- *)
(** *** The administrator's session stays sound *)






(* ------------------------------------------------------------------- *)
(** *** What a sign-up and a customer login leave behind *)

Lemma signupUser_stores (name email phone address password : jsstring)
    (rs : bytes) (r1 r2 : jsstring) (d : Z) (w : World) (raw : bytes) :
  existsb (same_email email) (dbOf (items w)) = false ->
  PBKDF2 (toBytes password) rs 120000 = Some raw ->
  exists w',
    signupUser name email phone address password rs r1 r2 d w
    = Ret (mkOutcome true None
             (Some (newUser name email phone address rs raw r1
                            (clock w + d)))) w'
    /\ usersDB (items w')
       = Some (dbOf (items w)
               ++ [newUser name email phone address rs raw r1 (clock w + d)])
    /\ userSession (items w')
       = Some (mkUserSession
                 (user_id (newUser name email phone address rs raw r1
                                   (clock w + d)))
                 email (clock w + d) (clock w + d + 30 * 60 * 1000))
    /\ clock w' = clock w + d.
Proof.
  intros Hn Hk. unfold signupUser. unfold bind at 1.
  rewrite getUsersDB_run, Hn.
  unfold pbkdf2, bind at 1. unfold bind at 1. cbn [await logged items clock].
  unfold bind at 1. rewrite Hk. cbn [orThrow ret].
  unfold bind at 1. unfold generateId, bind at 1. cbn [Date_now clock ret].
  unfold bind at 1, setUsersDB, ls_set, localStorage_setItem.
  cbn [items clock log].
  unfold bind at 1, saveProfile, ls_set, localStorage_setItem.
  cbn [items clock log].
  unfold bind at 1.
  match goal with
  | |- context [upsertAdminUsers name email phone address r2 ?w0] =>
      destruct (upsertAdminUsers_returns name email phone address r2 w0)
        as [w1 [E [Hc [_ [Hdb Hus]]]]]
  end.
  rewrite E. cbn [items clock putItem usersDB] in Hc, Hdb.
  unfold bind, Date_now, setUserSession, ls_set, localStorage_setItem, ret.
  rewrite Hc. eexists. split; [reflexivity|].
  cbn [items clock putItem usersDB userSession].
  split; [exact Hdb|]. split; reflexivity.
Qed.

Lemma signupClick_cases (name email phone address pass pass2 : jsstring)
    (rs : bytes) (r1 r2 : jsstring) (d : Z) (w : World) :
  0 <= d ->
  (items (after (signupClick name email phone address pass pass2 rs r1 r2
                             d w)) = items w
   /\ clock w
      <= clock (after (signupClick name email phone address pass pass2 rs r1
                                   r2 d w)))
  \/ (exists raw,
        existsb (same_email email) (dbOf (items w)) = false
        /\ usersDB (items (after (signupClick name email phone address pass
                                              pass2 rs r1 r2 d w)))
           = Some (dbOf (items w)
                   ++ [newUser name email phone address rs raw r1
                               (clock w + d)])
        /\ userSession (items (after (signupClick name email phone address
                                                  pass pass2 rs r1 r2 d w)))
           = Some (mkUserSession
                     (user_id (newUser name email phone address rs raw r1
                                       (clock w + d)))
                     email (clock w + d) (clock w + d + 30 * 60 * 1000))
        /\ clock (after (signupClick name email phone address pass pass2 rs
                                     r1 r2 d w)) = clock w + d).
Proof.
  intros Hd. unfold signupClick.
  destruct (str_falsy name || str_falsy email || str_falsy phone
            || str_falsy address || str_falsy pass || str_falsy pass2);
    [left; cbn; split; [reflexivity | lia]|].
  destruct (Z.of_nat (List.length pass) <? 8);
    [left; cbn; split; [reflexivity | lia]|].
  destruct (negb (str_eqb pass pass2));
    [left; cbn; split; [reflexivity | lia]|].
  rewrite after_bind_ret.
  destruct (existsb (same_email email) (dbOf (items w))) eqn:Hx.
  { rewrite signupUser_taken by assumption. left. cbn.
    split; [reflexivity | lia]. }
  destruct (PBKDF2 (toBytes pass) rs 120000) as [raw|] eqn:Hk.
  - destruct (signupUser_stores name email phone address pass rs r1 r2 d w
                raw Hx Hk) as [w' [E [H1 [H2 H3]]]].
    right. exists raw. rewrite E. cbn [after]. auto.
  - rewrite signupUser_throws by assumption. left. cbn.
    split; [reflexivity | lia].
Qed.

Lemma loginUser_succeeds_clock (email password r : jsstring) (d : Z)
    (w : World) (u : User) (salt raw : bytes) :
  find (same_email email) (dbOf (items w)) = Some u ->
  fromBase64 (h_salt (user_pass u)) = Some salt ->
  PBKDF2 (toBytes password) salt
         (or_default (h_iterations (user_pass u)) 120000) = Some raw ->
  toBase64 raw = h_hash (user_pass u) ->
  clock (after (loginUser email password r d w)) = clock w + d.
Proof.
  intros Hf Hs Hk Hh. unfold loginUser. unfold bind at 1.
  rewrite getUsersDB_run, Hf. unfold bind at 1. rewrite Hs.
  cbn [orThrow ret]. unfold bind at 1, pbkdf2.
  unfold bind at 1. unfold bind at 1. cbn [await logged items clock].
  rewrite Hk. cbn [orThrow ret]. rewrite Hh, str_eqb_refl. cbn [negb].
  unfold bind at 1. cbn [Date_now clock]. unfold bind at 1.
  cbn [Date_now clock]. unfold bind at 1, setUserSession, ls_set.
  cbn [localStorage_setItem items clock log]. unfold bind at 1, getProfile,
    ls_get_null.
  cbn [localStorage_getItem items clock log]. unfold bind at 1, saveProfile,
    ls_set.
  cbn [localStorage_setItem items clock log]. unfold bind at 1.
  match goal with
  | |- context [upsertAdminUsers ?a ?b ?c ?e r ?w0] =>
      destruct (upsertAdminUsers_returns a b c e r w0)
        as [w1 [E [Hc _]]]
  end.
  rewrite E. cbn [after ret]. rewrite Hc. reflexivity.
Qed.

Lemma loginUser_cases (email password r : jsstring) (d : Z) (w : World) :
  0 <= d ->
  (items (after (loginUser email password r d w)) = items w
   /\ clock w <= clock (after (loginUser email password r d w)))
  \/ (exists u,
        In u (dbOf (items w))
        /\ usersDB (items (after (loginUser email password r d w)))
           = usersDB (items w)
        /\ userSession (items (after (loginUser email password r d w)))
           = Some (mkUserSession (user_id u) (user_email u) (clock w + d)
                                 (clock w + d + 30 * 60 * 1000))
        /\ clock (after (loginUser email password r d w)) = clock w + d).
Proof.
  intros Hd.
  assert (Hadv : advances (loginUser email password r d)) by clock_all.
  specialize (Hadv w).
  destruct (find (same_email email) (dbOf (items w))) as [u|] eqn:Hf.
  2:{ left. split; [|exact Hadv]. unfold loginUser, bind.
      rewrite getUsersDB_run, Hf. reflexivity. }
  destruct (fromBase64 (h_salt (user_pass u))) as [salt|] eqn:Hs.
  2:{ left. split; [|exact Hadv]. unfold loginUser, bind.
      rewrite getUsersDB_run, Hf, Hs. reflexivity. }
  destruct (PBKDF2 (toBytes password) salt
              (or_default (h_iterations (user_pass u)) 120000))
    as [raw|] eqn:Hk.
  2:{ left. split; [|exact Hadv]. unfold loginUser. unfold bind at 1.
      rewrite getUsersDB_run, Hf. unfold bind at 1. rewrite Hs.
      cbn [orThrow ret]. unfold bind at 1, pbkdf2.
      unfold bind at 1. unfold bind at 1. cbn [await logged items clock].
      rewrite Hk. reflexivity. }
  destruct (str_eqb (toBase64 raw) (h_hash (user_pass u))) eqn:Hh.
  - right. exists u. apply str_eqb_eq in Hh.
    pose proof (loginUser_succeeds_clock email password r d w u salt raw
                  Hf Hs Hk Hh) as Hclk.
    destruct (loginUser_succeeds email password r d w u salt raw Hf Hs Hk Hh)
      as [w' [E Hus]].
    split; [apply (find_some _ _ Hf)|].
    split.
    { assert (K : keeps usersDB (loginUser email password r d))
        by (apply loginUser_keeps; intros; reflexivity).
      apply K. }
    rewrite E in *. cbn [after] in *. split; [exact Hus | exact Hclk].
  - left. apply str_eqb_neq in Hh.
    rewrite (loginUser_rejects email password r d w u salt raw Hf Hs Hk Hh).
    cbn. split; [reflexivity | lia].
Qed.

(* ------------------------------------------------------------------- *)
(** *** The customers and their session stay sound *)

Lemma emails_distinct_add (db : list User) (u : User) :
  NoDup (map (fun u => toLowerCase (user_email u)) db) ->
  existsb (same_email (user_email u)) db = false ->
  NoDup (map (fun u => toLowerCase (user_email u)) (db ++ [u])).
Proof.
  intros Hn Hx. rewrite map_app. cbn [map].
  induction db as [|x db IH]; cbn in *.
  - constructor; [intros []|constructor].
  - apply orb_false_iff in Hx. destruct Hx as [Hx1 Hx2].
    inversion Hn as [|? ? Hnot Hn']; subst.
    constructor; [|apply IH; assumption].
    rewrite in_app_iff. intros [Hin|[Heq|[]]].
    + exact (Hnot Hin).
    + unfold same_email in Hx1. apply str_eqb_neq in Hx1. congruence.
Qed.

(** X12. In every world the two pages reach, no two stored customers
    have the same email, letter case apart. *)
Theorem reachable_emails_distinct (w : World) :
  reachable w -> emails_distinct w.
Proof.
  induction 1 as [t|w ev Hr IH Hf].
  - constructor.
  - pose proof (exec_untouched ev w USER_DB_KEY) as Hu.
    destruct ev;
      try (unfold emails_distinct, dbOf in *; cbn [getItem] in Hu;
           rewrite Hu by (cbn; intuition discriminate); exact IH).
    clear Hu. cbn [exec forward] in *.
    destruct (signupClick_cases name email phone address pass pass2 rs r1 r2
                d w Hf) as [[Hi _]|[raw [Hx [Hdb _]]]].
    + unfold emails_distinct. rewrite Hi. exact IH.
    + unfold emails_distinct, dbOf at 1. rewrite Hdb.
      apply emails_distinct_add; [exact IH | exact Hx].
Qed.

Lemma user_session_well_formed_later (w w' : World) :
  userSession (items w') = userSession (items w) ->
  usersDB (items w') = usersDB (items w) ->
  clock w <= clock w' ->
  user_session_well_formed w -> user_session_well_formed w'.
Proof.
  unfold user_session_well_formed, dbOf. intros Es Ed Hc H s Hs.
  rewrite Es in Hs. rewrite Ed.
  destruct (H s Hs) as [H1 [H2 H3]]. repeat split; auto. lia.
Qed.

(** X13. In every world the two pages reach, a stored session of a
    customer names a stored customer, by identifier and email; it lasts
    at least thirty minutes from its creation and ends at most thirty
    minutes from now. *)
Theorem reachable_user_session_well_formed (w : World) :
  reachable w -> user_session_well_formed w.
Proof.
  induction 1 as [t|w ev Hr IH Hf].
  - intros s Hs. discriminate Hs.
  - pose proof (exec_clock ev w Hf) as Kc.
    pose proof (exec_untouched ev w USER_SESSION_KEY) as Ks.
    pose proof (exec_untouched ev w USER_DB_KEY) as Kd.
    destruct ev;
      try (apply (user_session_well_formed_later w);
           [ apply Ks; cbn; intuition discriminate
           | apply Kd; cbn; intuition discriminate
           | exact Kc | exact IH ]).
    + clear Ks Kd Kc. cbn [exec forward] in *.
      destruct (signupClick_cases name email phone address pass pass2 rs r1
                  r2 d w Hf) as [[Hi Hc]|[raw [Hx [Hdb [Hus Hc]]]]].
      * apply (user_session_well_formed_later w); auto; rewrite Hi;
          reflexivity.
      * intros s Hs. rewrite Hus in Hs. injection Hs as <-.
        unfold dbOf at 1. rewrite Hdb, Hc.
        cbn [uid us_email us_createdAt us_expiresAt].
        repeat split; try lia.
        exists (newUser name email phone address rs raw r1 (clock w + d)).
        split; [apply in_or_app; right; left; reflexivity|].
        split; reflexivity.
    + clear Ks Kd Kc. cbn [exec forward] in *. unfold userLoginClick.
      destruct (str_falsy email || str_falsy pass);
        [exact IH|].
      rewrite after_bind_ret.
      destruct (loginUser_cases email pass r d w Hf)
        as [[Hi Hc]|[u [Hu [Hdb [Hus Hc]]]]].
      * apply (user_session_well_formed_later w); auto; rewrite Hi;
          reflexivity.
      * intros s Hs. rewrite Hus in Hs. injection Hs as <-.
        unfold dbOf at 1. rewrite Hdb, Hc.
        cbn [uid us_email us_createdAt us_expiresAt].
        repeat split; try lia.
        exists u. split; [exact Hu|]. split; reflexivity.
    + cbn [exec]. rewrite refreshUserSession_run.
      destruct (userSession (items w)) as [s|] eqn:Es.
      * destruct (IH s Es) as [[u [Hu [H1 H2]]] [H3 H4]].
        intros s' Hs'. cbn in Hs'. injection Hs' as <-.
        cbn [after written logged items clock putItem usersDB uid us_email
             us_createdAt us_expiresAt dbOf].
        repeat split; try lia. exists u. auto.
      * intros s Hs. cbn in Hs. congruence.
Qed.

(* ------------------------------------------------------------------- *)
(** *** Identifiers *)

Lemma lit_inj (s t : string) : lit s = lit t -> s = t.
Proof.
  unfold lit. intros H.
  rewrite <- (string_of_list_ascii_of_string s),
          <- (string_of_list_ascii_of_string t).
  f_equal. revert H.
  generalize (list_ascii_of_string s) (list_ascii_of_string t).
  induction l as [|a l IH]; intros [|b l'] H; cbn in H;
    try reflexivity; try discriminate H.
  injection H as H1 H2. f_equal; [|apply IH; exact H2].
  rewrite <- (ascii_N_embedding a), <- (ascii_N_embedding b), H1.
  reflexivity.
Qed.

Lemma to_int_not_nil (z : Z) :
  Z.to_int z <> Decimal.Pos Decimal.Nil /\ Z.to_int z <> Decimal.Neg Decimal.Nil.
Proof.
  destruct z as [|p|p]; cbn; split; try discriminate;
    intros H; injection H as H;
    apply (DecimalPos.Unsigned.to_uint_nonnil p); exact H.
Qed.

Lemma decimal_inj (x y : Z) : decimal x = decimal y -> x = y.
Proof.
  unfold decimal. intros H. apply lit_inj in H.
  apply (f_equal NilZero.int_of_string) in H.
  destruct (to_int_not_nil x), (to_int_not_nil y).
  rewrite !NilZero.isi in H by assumption.
  injection H as H. apply DecimalZ.to_int_inj. exact H.
Qed.

Lemma string_of_uint_digits (d : Decimal.uint) :
  Forall (fun c => c <> 95%N) (lit (NilEmpty.string_of_uint d)).
Proof.
  unfold lit. induction d; cbn; constructor; try assumption; discriminate.
Qed.

Lemma decimal_no_underscore (z : Z) : Forall (fun c => c <> 95%N) (decimal z).
Proof.
  unfold decimal.
  assert (H : forall d, Forall (fun c => c <> 95%N)
                          (lit (NilZero.string_of_uint d))).
  { intros d. destruct d; try apply string_of_uint_digits.
    cbn. constructor; [discriminate | constructor]. }
  destruct (Z.to_int z) as [d|d]; cbn [NilZero.string_of_int].
  - apply H.
  - change (lit (String "-" (NilZero.string_of_uint d)))
      with (45%N :: lit (NilZero.string_of_uint d)).
    constructor; [discriminate | apply H].
Qed.

Lemma split_at_separator (c : N) (a b x y : jsstring) :
  Forall (fun k => k <> c) a -> Forall (fun k => k <> c) b ->
  a ++ c :: x = b ++ c :: y -> a = b /\ x = y.
Proof.
  revert b. induction a as [|h a IH]; intros [|h' b] Ha Hb H; cbn in H.
  - injection H as H. auto.
  - injection H as H1 H2. inversion Hb; subst. congruence.
  - injection H as H1 H2. inversion Ha; subst. congruence.
  - injection H as H1 H2. inversion Ha; inversion Hb; subst.
    destruct (IH b) as [E1 E2]; auto. subst. auto.
Qed.

(** X14. Two identifiers made with the same prefix are equal only if
    they were made at the same millisecond with the same random part. *)
Theorem generateId_injective (prefix r1 r2 : jsstring) (w1 w2 : World) :
  value (generateId prefix r1 w1) = value (generateId prefix r2 w2) ->
  clock w1 = clock w2 /\ r1 = r2.
Proof.
  unfold generateId, bind, Date_now, ret. cbn [value]. intros H.
  injection H as H. apply app_inv_head in H.
  change (lit "_" ++ decimal (clock w1) ++ lit "_" ++ r1)
    with (95%N :: decimal (clock w1) ++ 95%N :: r1) in H.
  change (lit "_" ++ decimal (clock w2) ++ lit "_" ++ r2)
    with (95%N :: decimal (clock w2) ++ 95%N :: r2) in H.
  injection H as H.
  apply split_at_separator in H; try apply decimal_no_underscore.
  destruct H as [H1 H2]. split; [apply decimal_inj; exact H1 | exact H2].
Qed.

(* ------------------------------------------------------------------- *)
(** *** Orders *)

Lemma findIndex_nth {A} (p : A -> bool) (l : list A) (i : nat) :
  findIndex p l = Some i ->
  exists x, nth_error l i = Some x /\ p x = true.
Proof.
  revert i. induction l as [|y l IH]; intros i H; cbn in H.
  - discriminate H.
  - destruct (p y) eqn:Hy.
    + injection H as <-. exists y. auto.
    + destruct (findIndex p l) as [k|]; [|discriminate H].
      injection H as <-. apply IH. reflexivity.
Qed.

Lemma findIndex_none {A} (p : A -> bool) (l : list A) :
  (forall x, In x l -> p x = false) -> findIndex p l = None.
Proof.
  induction l as [|y l IH]; intros H; cbn; [reflexivity|].
  rewrite (H y) by (left; reflexivity).
  rewrite IH; [reflexivity|]. intros x Hx. apply H. right. exact Hx.
Qed.

Lemma assign_assign {A} (l : list A) (i : nat) (x y : A) :
  assign (assign l i x) i y = assign l i y.
Proof.
  revert i. induction l as [|z l IH]; intros [|i]; cbn; try reflexivity.
  rewrite IH. reflexivity.
Qed.

Lemma assign_same {A} (l : list A) (i : nat) (x : A) :
  nth_error l i = Some x -> assign l i x = l.
Proof.
  revert i. induction l as [|z l IH]; intros [|i] H; cbn in *;
    try discriminate H.
  - injection H as ->. reflexivity.
  - rewrite IH by assumption. reflexivity.
Qed.

(** X15. [toggleOrderStatus] with an identifier that no stored order
    has writes nothing. Otherwise it changes the first order with that
    identifier, and only its status, to [pending] when it was
    [completed] and to [completed] in every other case; toggling again
    an order that was [pending] or [completed] restores the stored
    orders. *)
Theorem toggleOrderStatus_flips (orderId : jsstring) (b : Browser) :
  ((forall o, In o (ordersOf b) -> ord_id o <> orderId) ->
   toggleOrderStatus orderId b = BRet tt b) /\
  (forall i,
      findIndex (fun o => str_eqb (ord_id o) orderId) (ordersOf b) = Some i ->
      exists o b',
        nth_error (ordersOf b) i = Some o
        /\ ord_id o = orderId
        /\ toggleOrderStatus orderId b = BRet tt b'
        /\ page b' = page b /\ products b' = products b
        /\ nth_error (ordersOf b') i
           = Some (set_status o
                     (if str_eqb (ord_status o) (lit "completed")
                      then lit "pending" else lit "completed"))
        /\ (forall j, j <> i ->
               nth_error (ordersOf b') j = nth_error (ordersOf b) j)
        /\ List.length (ordersOf b') = List.length (ordersOf b)
        /\ (ord_status o = lit "pending" \/ ord_status o = lit "completed" ->
            toggleOrderStatus orderId b' = BRet tt b)).
Proof.
  split.
  - intros H. unfold toggleOrderStatus, bbind, getOrders.
    fold (ordersOf b). rewrite findIndex_none; [reflexivity|].
    intros o Ho. apply str_eqb_neq. apply H. exact Ho.
  - intros i Hf.
    destruct (findIndex_nth _ _ _ Hf) as [o [Hn Hp]].
    apply str_eqb_eq in Hp.
    assert (Hb : orders b = Some (ordersOf b)).
    { unfold ordersOf in *. destruct (orders b); [reflexivity|].
      destruct i; discriminate Hn. }
    set (o' := set_status o (if str_eqb (ord_status o) (lit "completed")
                             then lit "pending" else lit "completed")).
    assert (Hp' : str_eqb (ord_id o') orderId = true).
    { apply str_eqb_eq. exact Hp. }
    destruct (findIndex_assign _ (ordersOf b) i o' Hf Hp')
      as [H1 [H2 [H3 H4]]].
    exists o, (mkBrowser (page b) (Some (assign (ordersOf b) i o'))
                         (products b)).
    split; [exact Hn|]. split; [exact Hp|].
    split.
    { unfold toggleOrderStatus, bbind, getOrders. fold (ordersOf b).
      rewrite Hf, Hn. reflexivity. }
    cbn [page products orders ordersOf].
    split; [reflexivity|]. split; [reflexivity|].
    split; [exact H2|]. split; [exact H4|]. split; [exact H3|].
    intros Hs. unfold toggleOrderStatus, bbind, getOrders.
    cbn [orders]. rewrite H1, H2. unfold setOrders. cbn [page products].
    rewrite assign_assign. f_equal.
    destruct b as [pg os ps]. cbn [page orders products] in *.
    f_equal. rewrite Hb. f_equal. apply assign_same.
    cbn [ordersOf orders] in Hn. rewrite Hn. f_equal.
    destruct o as [oi ou op osn ousr ost oc]. unfold o', set_status.
    cbn [ord_id ord_userId ord_productId ord_productSnapshot ord_user
         ord_status ord_createdAt] in *.
    f_equal. destruct Hs as [-> | ->]; reflexivity.
Qed.

Lemma submitOrder_run (currentOrderProductId : option jsstring)
    (name address phone notes r1 r2 : jsstring) (b : Browser) :
  submitOrder currentOrderProductId name address phone notes r1 r2 b =
  match currentOrderProductId with
  | None => BRet tt b
  | Some pid =>
      if str_falsy pid then BRet tt b
      else if str_falsy name || str_falsy address || str_falsy phone
      then BRet tt b
      else
        match find (fun p => str_eqb (prod_id p) pid) (productsOf b) with
        | None => BRet tt b
        | Some _ =>
            BThrow (mkBrowser (logged [Get USER_SESSION_KEY] (page b))
                              (orders b) (products b))
        end
  end.
Proof.
  unfold submitOrder.
  destruct currentOrderProductId as [pid|]; [|reflexivity].
  destruct (str_falsy pid); [reflexivity|].
  destruct (str_falsy name || str_falsy address || str_falsy phone);
    [reflexivity|].
  unfold bbind at 1, loadProducts, productsOf. cbv beta.
  destruct (find (fun p => str_eqb (prod_id p) pid)
              match products b with Some l => l | None => [] end);
    reflexivity.
Qed.

(** X16. [submitOrder] never stores an order: when no product is
    selected, a required field is empty or the product is not stored it
    returns without writing, and in every other case it throws while it
    builds the order, at the read of [profile], before any write. In
    no case does it change [orders], [products] or a key of
    localStorage. *)
Theorem submitOrder_never_stores (currentOrderProductId : option jsstring)
    (name address phone notes r1 r2 : jsstring) (b : Browser) :
  orders (bafter (submitOrder currentOrderProductId name address phone notes
                              r1 r2 b)) = orders b
  /\ products (bafter (submitOrder currentOrderProductId name address phone
                                   notes r1 r2 b)) = products b
  /\ items (page (bafter (submitOrder currentOrderProductId name address
                                      phone notes r1 r2 b)))
     = items (page b)
  /\ (bvalue (submitOrder currentOrderProductId name address phone notes
                          r1 r2 b) = None
      <-> exists pid product,
            currentOrderProductId = Some pid
            /\ str_falsy pid = false
            /\ str_falsy name || str_falsy address || str_falsy phone = false
            /\ find (fun p => str_eqb (prod_id p) pid) (productsOf b)
               = Some product).
Proof.
  rewrite submitOrder_run.
  destruct currentOrderProductId as [pid|].
  2:{ cbn. repeat split; try discriminate.
      intros [pid [product [H _]]]. discriminate H. }
  destruct (str_falsy pid) eqn:Hp.
  { cbn. repeat split; try discriminate.
    intros [pid' [product [H [H' _]]]]. injection H as <-. congruence. }
  destruct (str_falsy name || str_falsy address || str_falsy phone) eqn:Hn.
  { cbn. repeat split; try discriminate.
    intros [pid' [product [_ [_ [H _]]]]]. discriminate H. }
  destruct (find (fun p => str_eqb (prod_id p) pid) (productsOf b))
    as [product|] eqn:Hf.
  - cbn. split; [reflexivity|]. split; [reflexivity|].
    split; [reflexivity|]. split; [|reflexivity].
    intros _. exists pid, product. auto.
  - cbn. repeat split; try discriminate.
    intros [pid' [product [H [_ [_ H']]]]]. injection H as <-. congruence.
Qed.

(* ------------------------------------------------------------------- *)
(** *** The matcher is sound and complete *)

Lemma matches_nil_nullable (r : regex) (s : jsstring) :
  matches r s -> s = [] -> nullable r = true.
Proof.
  induction 1 as [|p c Hp|r1 r2 s1 s2 H1 IH1 H2 IH2|r1 r2 s H IH
                  |r1 r2 s H IH|r|r s1 s2 H1 IH1 H2 IH2];
    intros E; cbn; try reflexivity; try discriminate E.
  - apply app_eq_nil in E. destruct E as [E1 E2].
    rewrite IH1, IH2 by assumption. reflexivity.
  - rewrite IH by assumption. reflexivity.
  - rewrite IH by assumption. apply orb_true_r.
Qed.

Lemma nullable_matches_nil (r : regex) :
  nullable r = true -> matches r [].
Proof.
  induction r as [| |p|r1 IH1 r2 IH2|r1 IH1 r2 IH2|r IH]; cbn; intros H;
    try discriminate H.
  - constructor.
  - apply andb_true_iff in H. destruct H as [H1 H2].
    change (@nil N) with (@nil N ++ []). constructor; auto.
  - apply orb_true_iff in H. destruct H as [H|H];
      [apply MAltL | apply MAltR]; auto.
  - constructor.
Qed.

Lemma star_cons_inv (r : regex) (s : jsstring) :
  matches (Star r) s ->
  forall c s', s = c :: s' ->
    exists s1 s2, s' = s1 ++ s2 /\ matches r (c :: s1) /\ matches (Star r) s2.
Proof.
  intros H. remember (Star r) as r' eqn:Er.
  induction H as [|p c0 Hp|r1 r2 s1 s2 H1 IH1 H2 IH2|r1 r2 s H IH
                  |r1 r2 s H IH|r0|r0 s1 s2 H1 IH1 H2 IH2];
    try discriminate Er; intros c s' E.
  - discriminate E.
  - injection Er as ->. destruct s1 as [|c1 s1].
    + cbn in E. apply (IH2 eq_refl c s' E).
    + cbn in E. injection E as -> <-. exists s1, s2. auto.
Qed.

Lemma seq_inv (r1 r2 : regex) (s : jsstring) :
  matches (Seq r1 r2) s ->
  exists s1 s2, s = s1 ++ s2 /\ matches r1 s1 /\ matches r2 s2.
Proof. intros H. inversion H; subst. eauto. Qed.

Lemma alt_inv (r1 r2 : regex) (s : jsstring) :
  matches (Alt r1 r2) s -> matches r1 s \/ matches r2 s.
Proof. intros H. inversion H; subst; auto. Qed.

Lemma class_inv (p : N -> bool) (s : jsstring) :
  matches (Class p) s -> exists c, s = [c] /\ p c = true.
Proof. intros H. inversion H; subst. eauto. Qed.

Lemma eps_inv (s : jsstring) : matches Eps s -> s = [].
Proof. intros H. inversion H. reflexivity. Qed.

Lemma empty_inv (s : jsstring) : matches Empty s -> False.
Proof. intros H. inversion H. Qed.

Lemma deriv_matches (c : N) (r : regex) (s : jsstring) :
  matches (deriv c r) s <-> matches r (c :: s).
Proof.
  revert s. induction r as [| |p|r1 IH1 r2 IH2|r1 IH1 r2 IH2|r IH];
    intros s; cbn [deriv].
  - split; intros H; [destruct (empty_inv _ H) | inversion H].
  - split; intros H; [destruct (empty_inv _ H) | inversion H].
  - destruct (p c) eqn:Hp; split; intros H.
    + apply eps_inv in H. subst. constructor. exact Hp.
    + apply class_inv in H. destruct H as [c' [E _]]. injection E as _ ->.
      constructor.
    + destruct (empty_inv _ H).
    + apply class_inv in H. destruct H as [c' [E Hc]].
      injection E as <- _. congruence.
  - split; intros H.
    + apply alt_inv in H. destruct H as [H|H].
      * apply seq_inv in H. destruct H as [s1 [s2 [-> [Ha Hb]]]].
        apply IH1 in Ha. change (c :: s1 ++ s2) with ((c :: s1) ++ s2).
        constructor; assumption.
      * destruct (nullable r1) eqn:Hn; [|destruct (empty_inv _ H)].
        apply IH2 in H. change (c :: s) with ([] ++ c :: s).
        constructor; [apply nullable_matches_nil; exact Hn | exact H].
    + apply seq_inv in H. destruct H as [s1 [s2 [E [Ha Hb]]]].
      destruct s1 as [|c1 s1]; cbn in E.
      * subst s2. apply MAltR.
        rewrite (matches_nil_nullable r1 [] Ha eq_refl).
        apply IH2. exact Hb.
      * injection E as <- ->. apply MAltL. constructor; [|exact Hb].
        apply IH1. exact Ha.
  - split; intros H; apply alt_inv in H; destruct H as [H|H];
      [apply MAltL; apply IH1 | apply MAltR; apply IH2
      |apply MAltL; apply IH1 | apply MAltR; apply IH2]; exact H.
  - split; intros H.
    + apply seq_inv in H. destruct H as [s1 [s2 [-> [Ha Hb]]]].
      apply IH in Ha. change (c :: s1 ++ s2) with ((c :: s1) ++ s2).
      constructor; assumption.
    + destruct (star_cons_inv r (c :: s) H c s eq_refl)
        as [s1 [s2 [-> [Ha Hb]]]].
      constructor; [apply IH; exact Ha | exact Hb].
Qed.

Lemma accepts_matches (r : regex) (s : jsstring) :
  accepts r s = true <-> matches r s.
Proof.
  unfold accepts. revert r. induction s as [|c s IH]; intros r; cbn.
  - split; [apply nullable_matches_nil|].
    intros H. apply (matches_nil_nullable r [] H eq_refl).
  - rewrite IH. apply deriv_matches.
Qed.

(* ------------------------------------------------------------------- *)
(** *** What the two patterns of the profile form accept *)

Lemma star_class (p : N -> bool) (s : jsstring) :
  matches (Star (Class p)) s <-> forallb p s = true.
Proof.
  split.
  - intros H. remember (Star (Class p)) as r eqn:Er.
    induction H as [|p0 c0 Hp|r1 r2 s1 s2 H1 IH1 H2 IH2|r1 r2 s H IH
                    |r1 r2 s H IH|r0|r0 s1 s2 H1 IH1 H2 IH2];
      try discriminate Er.
    + reflexivity.
    + injection Er as ->. apply class_inv in H1.
      destruct H1 as [c [-> Hc]]. cbn. rewrite Hc. apply IH2. reflexivity.
  - induction s as [|c s IH]; cbn; intros H.
    + constructor.
    + apply andb_true_iff in H. destruct H as [Hc Hs].
      change (c :: s) with ([c] ++ s). constructor; [|apply IH; exact Hs].
      constructor. exact Hc.
Qed.

Lemma plus_class (p : N -> bool) (s : jsstring) :
  matches (Plus (Class p)) s <-> s <> [] /\ forallb p s = true.
Proof.
  unfold Plus. split.
  - intros H. apply seq_inv in H. destruct H as [s1 [s2 [-> [Ha Hb]]]].
    apply class_inv in Ha. destruct Ha as [c [-> Hc]].
    apply star_class in Hb. cbn. rewrite Hc, Hb.
    split; [discriminate | reflexivity].
  - intros [Hn Hs]. destruct s as [|c s]; [congruence|]. cbn in Hs.
    apply andb_true_iff in Hs. destruct Hs as [Hc Hs].
    change (c :: s) with ([c] ++ s).
    constructor; [constructor; exact Hc | apply star_class; exact Hs].
Qed.

Lemma star_any (s : jsstring) : matches (Star any_char) s.
Proof.
  apply star_class. induction s as [|c s IH]; [reflexivity | exact IH].
Qed.

Lemma times_class (p : N -> bool) (n : nat) (s : jsstring) :
  matches (times (Class p) n) s <-> List.length s = n /\ forallb p s = true.
Proof.
  revert s. induction n as [|n IH]; intros s; cbn [times].
  - split.
    + intros H. apply eps_inv in H. subst. split; reflexivity.
    + intros [Hl _]. destruct s; [constructor | discriminate Hl].
  - split.
    + intros H. apply seq_inv in H. destruct H as [s1 [s2 [-> [Ha Hb]]]].
      apply class_inv in Ha. destruct Ha as [c [-> Hc]].
      apply IH in Hb. destruct Hb as [Hl Hs]. cbn. rewrite Hc, Hl, Hs.
      split; reflexivity.
    + intros [Hl Hs]. destruct s as [|c s]; [discriminate Hl|].
      cbn in Hl, Hs. apply andb_true_iff in Hs. destruct Hs as [Hc Hs].
      change (c :: s) with ([c] ++ s).
      constructor; [constructor; exact Hc|]. apply IH. split; [lia | exact Hs].
Qed.

Lemma upto_class (p : N -> bool) (n : nat) (s : jsstring) :
  matches (upto (Class p) n) s
  <-> (List.length s <= n)%nat /\ forallb p s = true.
Proof.
  revert s. induction n as [|n IH]; intros s; cbn [upto].
  - split.
    + intros H. apply eps_inv in H. subst. split; [cbn; lia | reflexivity].
    + intros [Hl _]. destruct s; [constructor | cbn in Hl; lia].
  - unfold Opt. split.
    + intros H. apply alt_inv in H. destruct H as [H|H].
      * apply seq_inv in H. destruct H as [s1 [s2 [-> [Ha Hb]]]].
        apply class_inv in Ha. destruct Ha as [c [-> Hc]].
        apply IH in Hb. destruct Hb as [Hl Hs]. cbn. rewrite Hc, Hs.
        split; [lia | reflexivity].
      * apply eps_inv in H. subst. split; [cbn; lia | reflexivity].
    + intros [Hl Hs]. destruct s as [|c s]; [apply MAltR; constructor|].
      cbn in Hl, Hs. apply andb_true_iff in Hs. destruct Hs as [Hc Hs].
      apply MAltL. change (c :: s) with ([c] ++ s).
      constructor; [constructor; exact Hc|]. apply IH. split; [lia | exact Hs].
Qed.

(** X17. [validateEmail] accepts exactly the strings that have,
    somewhere, an [@] with a character before it, a dot later with a
    character after it, and at least one character between the two, no
    line terminator among the three stretches. An accepted string has
    at least five code units. *)
Theorem validateEmail_accepts (v : jsstring) :
  (validateEmail v = true <->
   exists pre x y z post,
     v = pre ++ x ++ 64%N :: y ++ 46%N :: z ++ post
     /\ x <> [] /\ y <> [] /\ z <> []
     /\ forallb dot x = true /\ forallb dot y = true
     /\ forallb dot z = true) /\
  (validateEmail v = true ->
   (5 <= List.length v)%nat /\ In 64%N v /\ In 46%N v).
Proof.
  clear PBKDF2 toBytes toLowerCase.
  assert (Hiff : validateEmail v = true <->
   exists pre x y z post,
     v = pre ++ x ++ 64%N :: y ++ 46%N :: z ++ post
     /\ x <> [] /\ y <> [] /\ z <> []
     /\ forallb dot x = true /\ forallb dot y = true
     /\ forallb dot z = true).
  { unfold validateEmail, test. rewrite accepts_matches. split.
    - intros H.
      apply seq_inv in H. destruct H as [pre [s1 [-> [_ H]]]].
      apply seq_inv in H. destruct H as [s2 [post [-> [H _]]]].
      apply seq_inv in H. destruct H as [x [s3 [-> [Hx H]]]].
      apply seq_inv in H. destruct H as [a [s4 [-> [Ha H]]]].
      apply seq_inv in H. destruct H as [y [s5 [-> [Hy H]]]].
      apply seq_inv in H. destruct H as [d [z [-> [Hd Hz]]]].
      apply class_inv in Ha. destruct Ha as [ca [-> Hca]].
      apply class_inv in Hd. destruct Hd as [cd [-> Hcd]].
      apply N.eqb_eq in Hca, Hcd. subst ca cd.
      apply plus_class in Hx, Hy, Hz.
      exists pre, x, y, z, post.
      repeat first [ rewrite <- app_assoc | progress cbn [app] ].
      intuition auto.
    - intros [pre [x [y [z [post [-> [Hx [Hy [Hz [Dx [Dy Dz]]]]]]]]]]].
      constructor; [apply star_any|].
      replace (x ++ 64%N :: y ++ 46%N :: z ++ post)
        with ((x ++ [64%N] ++ y ++ [46%N] ++ z) ++ post)
        by (repeat first [ rewrite <- app_assoc | progress cbn [app] ];
            reflexivity).
      constructor; [|apply star_any].
      constructor; [apply plus_class; auto|].
      constructor; [constructor; reflexivity|].
      constructor; [apply plus_class; auto|].
      constructor; [constructor; reflexivity|].
      apply plus_class; auto. }
  split; [exact Hiff|].
  intros H. apply Hiff in H.
  destruct H as [pre [x [y [z [post [-> [Hx [Hy [Hz _]]]]]]]]].
  destruct x; [congruence|]. destruct y; [congruence|].
  destruct z; [congruence|].
  repeat split.
  - rewrite !length_app. cbn [List.length]. rewrite !length_app.
    cbn [List.length]. rewrite !length_app. cbn [List.length]. lia.
  - apply in_or_app. right. apply in_or_app. right. left. reflexivity.
  - apply in_or_app. right. apply in_or_app. right. right.
    apply in_or_app. right. left. reflexivity.
Qed.

(** X18. [validatePhone] accepts exactly the strings made of an
    optional [+], a digit, and nine to fourteen further characters,
    each a digit, white space or a hyphen; so an accepted string has
    ten to sixteen code units. *)
Theorem validatePhone_accepts (v : jsstring) :
  (validatePhone v = true <->
   exists sign d rest,
     v = sign ++ d :: rest
     /\ (sign = [] \/ sign = [43%N])
     /\ is_digit d = true
     /\ (9 <= List.length rest <= 14)%nat
     /\ forallb phone_char rest = true) /\
  (validatePhone v = true -> (10 <= List.length v <= 16)%nat).
Proof.
  assert (Hiff : validatePhone v = true <->
   exists sign d rest,
     v = sign ++ d :: rest
     /\ (sign = [] \/ sign = [43%N])
     /\ is_digit d = true
     /\ (9 <= List.length rest <= 14)%nat
     /\ forallb phone_char rest = true).
  { unfold validatePhone, Repeat, Opt. rewrite accepts_matches. split.
    - intros H.
      apply seq_inv in H. destruct H as [sign [s1 [-> [Hs H]]]].
      apply seq_inv in H. destruct H as [d0 [s2 [-> [Hd H]]]].
      apply seq_inv in H. destruct H as [r1 [r2 [-> [H1 H2]]]].
      apply class_inv in Hd. destruct Hd as [d [-> Hd]].
      apply times_class in H1. apply upto_class in H2.
      destruct H1 as [L1 F1], H2 as [L2 F2].
      exists sign, d, (r1 ++ r2). cbn [app].
      split; [reflexivity|]. split.
      { apply alt_inv in Hs. destruct Hs as [Hs|Hs].
        - apply class_inv in Hs. destruct Hs as [c [-> Hc]].
          apply N.eqb_eq in Hc. subst. right. reflexivity.
        - apply eps_inv in Hs. left. exact Hs. }
      split; [exact Hd|]. rewrite length_app, forallb_app, F1, F2.
      cbn in L2. split; [lia | reflexivity].
    - intros [sign [d [rest [-> [Hs [Hd [Hl Hf]]]]]]].
      constructor.
      { destruct Hs as [-> | ->];
          [apply MAltR; constructor
          |apply MAltL; constructor; reflexivity]. }
      change (d :: rest) with ([d] ++ rest).
      constructor; [constructor; exact Hd|].
      rewrite <- (firstn_skipn 9 rest).
      rewrite <- (firstn_skipn 9 rest), forallb_app in Hf.
      apply andb_true_iff in Hf. destruct Hf as [F1 F2].
      constructor.
      + apply times_class. split; [|exact F1].
        rewrite length_firstn. lia.
      + apply upto_class. split; [|exact F2].
        rewrite length_skipn. cbn. lia. }
  split; [exact Hiff|].
  intros H. apply Hiff in H.
  destruct H as [sign [d [rest [-> [Hs [_ [Hl _]]]]]]].
  rewrite length_app. cbn [List.length].
  destruct Hs as [-> | ->]; cbn [List.length]; lia.
Qed.

Lemma saveProfile_upsert (name email phone address notes rnd : jsstring)
    (w : World) :
  exists w' i id,
    (saveProfile (mkProfile name email phone address notes) ;;
     upsertAdminUsers name email phone address rnd) w = Ret tt w'
    /\ profile (items w') = Some (mkProfile name email phone address notes)
    /\ findIndex (same_contact phone email) (usersOf (items w')) = Some i
    /\ nth_error (usersOf (items w')) i
       = Some (mkAdminUser id name email phone address).
Proof.
  unfold bind, saveProfile, ls_set, localStorage_setItem.
  match goal with
  | |- context [upsertAdminUsers name email phone address rnd ?w0] =>
      destruct (upsertAdminUsers_effect name email phone address rnd w0)
        as [w' [i [id [E [H1 [H2 _]]]]]];
      assert (K : profile (items (after (upsertAdminUsers name email phone
                                           address rnd w0)))
                  = profile (items w0))
        by (apply upsertAdminUsers_keeps; intros; reflexivity)
  end.
  rewrite E in *. cbn [after] in K. exists w', i, id.
  split; [reflexivity|]. split; [rewrite K; reflexivity|]. auto.
Qed.

(** X19. The save button of the profile form writes nothing when the
    name or the address is empty or the email or the phone fails its
    pattern. Otherwise it stores the five values as the profile and the
    administrator's list holds the customer with the same values. *)
Theorem saveProfileClick_validates
    (name email phone address notes rnd : jsstring) (w : World) :
  (str_falsy name = true \/ validateEmail email = false
   \/ validatePhone phone = false \/ str_falsy address = true ->
   saveProfileClick name email phone address notes rnd w = Ret tt w) /\
  (str_falsy name = false -> validateEmail email = true ->
   validatePhone phone = true -> str_falsy address = false ->
   exists w' i id,
     saveProfileClick name email phone address notes rnd w = Ret tt w'
     /\ profile (items w') = Some (mkProfile name email phone address notes)
     /\ findIndex (same_contact phone email) (usersOf (items w')) = Some i
     /\ nth_error (usersOf (items w')) i
        = Some (mkAdminUser id name email phone address)).
Proof.
  unfold saveProfileClick. split.
  - intros H.
    destruct (str_falsy name), (validateEmail email), (validatePhone phone),
      (str_falsy address); cbn [negb orb]; try reflexivity;
      decompose [or] H; discriminate.
  - intros -> -> -> ->. cbn [negb orb]. apply saveProfile_upsert.
Qed.

(** X20. After a sign-up that answers [ok], and after a keep-alive on a
    stored session, [isUserLoggedIn] answers [true] for less than
    thirty minutes: [e] milliseconds later it answers [true] exactly
    when [e] is below 1800000, and it never writes. *)
Theorem user_session_window (w : World) (e : Z) :
  (forall name email phone address password rs r1 r2 d o w',
      signupUser name email phone address password rs r1 r2 d w = Ret o w' ->
      ok o = true ->
      isUserLoggedIn (later e w')
      = Ret (e <? 30 * 60 * 1000)
            (logged [Get USER_SESSION_KEY] (later e w'))) /\
  (forall s w',
      userSession (items w) = Some s ->
      refreshUserSession w = Ret tt w' ->
      isUserLoggedIn (later e w')
      = Ret (e <? 30 * 60 * 1000)
            (logged [Get USER_SESSION_KEY] (later e w'))).
Proof.
  split.
  - intros name email phone address password rs r1 r2 d o w' E Hok.
    destruct (existsb (same_email email) (dbOf (items w))) eqn:Hx.
    { rewrite signupUser_taken in E by assumption. injection E as <- _.
      discriminate. }
    destruct (PBKDF2 (toBytes password) rs 120000) as [raw|] eqn:Hk.
    2:{ rewrite signupUser_throws in E by assumption. discriminate. }
    destruct (signupUser_stores name email phone address password rs r1 r2 d
                w raw Hx Hk) as [w1 [E1 [_ [Hs Hc]]]].
    rewrite E1 in E. injection E as _ <-.
    rewrite isUserLoggedIn_run. cbn [later items clock]. rewrite Hs, Hc.
    cbn [us_expiresAt]. f_equal.
    destruct (Z.ltb_spec (clock w + d + e) (clock w + d + 30 * 60 * 1000));
      destruct (Z.ltb_spec e (30 * 60 * 1000)); try lia; reflexivity.
  - intros s w' Hs E. rewrite refreshUserSession_run, Hs in E.
    injection E as <-. rewrite isUserLoggedIn_run.
    cbn [written later logged items clock putItem userSession us_expiresAt].
    f_equal.
    destruct (Z.ltb_spec (clock w + e) (clock w + 30 * 60 * 1000));
      destruct (Z.ltb_spec e (30 * 60 * 1000)); try lia; reflexivity.
Qed.

(* ------------------------------------------------------------------- *)
(** *** Searching the products *)

Lemma starts_with_spec (s q : jsstring) :
  starts_with s q = true <-> exists b, s = q ++ b.
Proof.
  revert s. induction q as [|c q IH]; intros s; cbn.
  - split; [intros _; exists s; reflexivity | destruct s; reflexivity].
  - destruct s as [|d s]; cbn;
      [split; [discriminate | intros [b H]; discriminate H]|].
    rewrite andb_true_iff, N.eqb_eq, IH. split.
    + intros [-> [b ->]]. exists b. reflexivity.
    + intros [b H]. injection H as -> ->. split; [reflexivity | eauto].
Qed.

Lemma includes_spec (s q : jsstring) :
  includes s q = true <-> exists a b, s = a ++ q ++ b.
Proof.
  induction s as [|d s IH]; cbn [includes].
  - rewrite orb_false_r, starts_with_spec. split.
    + intros [b H]. exists [], b. exact H.
    + intros [a [b H]]. destruct a; [exists b; exact H | discriminate H].
  - rewrite orb_true_iff, starts_with_spec, IH. split.
    + intros [[b H]|[a [b H]]].
      * exists [], b. exact H.
      * exists (d :: a), b. rewrite H. reflexivity.
    + intros [a [b H]]. destruct a as [|x a]; cbn in H.
      * left. exists b. exact H.
      * injection H as _ H. right. exists a, b. exact H.
Qed.

Lemma includes_part (s q q' : jsstring) :
  (exists a b, q' = a ++ q ++ b) ->
  includes s q' = true -> includes s q = true.
Proof.
  intros [a [b ->]] H. apply includes_spec in H. destruct H as [x [y ->]].
  apply includes_spec. exists (x ++ a), (b ++ y).
  repeat rewrite <- app_assoc. reflexivity.
Qed.

Lemma product_matches_part (q q' : jsstring) (p : Product) :
  (exists a b, q' = a ++ q ++ b) ->
  product_matches q' p = true -> product_matches q p = true.
Proof.
  intros Hq. unfold product_matches. cbv zeta.
  rewrite !orb_true_iff, !existsb_exists.
  intros [[H|H]|[c [Hc H]]].
  - left. left. apply (includes_part _ _ _ Hq H).
  - left. right. apply (includes_part _ _ _ Hq H).
  - right. exists c. split; [exact Hc | apply (includes_part _ _ _ Hq H)].
Qed.

(** X21. [searchProducts] writes nothing. A query
    that is empty once trimmed gives every stored product; otherwise it
    gives, in stored order, the products whose name, material or some
    category contains the query, all in lower case. A longer query
    narrows the result: when the lower-cased trimmed query [q] is part
    of another one, every product found for that one is found for
    [q]. *)
Theorem searchProducts_narrows (query query' : jsstring) (b : Browser) :
  exists found found',
    searchProducts query b = BRet found b
    /\ searchProducts query' b = BRet found' b
    /\ (toLowerCase (trim (or_empty query)) = [] -> found = productsOf b)
    /\ (toLowerCase (trim (or_empty query)) <> [] ->
        found = filter (product_matches (toLowerCase (trim (or_empty query))))
                       (productsOf b))
    /\ ((exists x y,
            toLowerCase (trim (or_empty query'))
            = x ++ toLowerCase (trim (or_empty query)) ++ y) ->
        incl found' found).
Proof.
  assert (R : forall qy,
             searchProducts qy b
             = BRet (if str_falsy (toLowerCase (trim (or_empty qy)))
                     then productsOf b
                     else filter (product_matches
                                    (toLowerCase (trim (or_empty qy))))
                                 (productsOf b)) b).
  { intros qy. unfold searchProducts. cbv zeta.
    destruct (str_falsy (toLowerCase (trim (or_empty qy)))); reflexivity. }
  do 2 eexists. split; [apply R|]. split; [apply R|].
  split; [intros ->; reflexivity|]. split.
  - intros H. destruct (toLowerCase (trim (or_empty query))); [congruence|].
    reflexivity.
  - intros Hq p Hp.
    destruct (toLowerCase (trim (or_empty query))) as [|c q] eqn:Eq.
    + cbn [str_falsy].
      destruct (str_falsy (toLowerCase (trim (or_empty query')))); [exact Hp|].
      apply filter_In in Hp. apply Hp.
    + cbn [str_falsy].
      destruct (toLowerCase (trim (or_empty query'))) as [|c' q'] eqn:Eq'.
      * destruct Hq as [x [y Hq]]. destruct x; discriminate Hq.
      * cbn [str_falsy] in Hp. apply filter_In in Hp. destruct Hp as [Hi Hm].
        apply filter_In. split; [exact Hi|].
        apply (product_matches_part _ _ _ Hq Hm).
Qed.

End Engine.

(* ===================================================================== *)
(** ** The properties on examples, with the stand-ins for the platform *)
(* ===================================================================== *)


(** The fifth failure in a row, at time 5000, locks until 65000. *)
Lemma recordFailure_lock_window_witness :
  5 = countOf (items (demoWorld (mkLockout 4 0) 5000)) + 1
  /\ exists w',
       recordFailure (demoWorld (mkLockout 4 0) 5000) = Ret tt w'
       /\ lockUntil (lockoutOf (items w')) = 65000.
Proof.
  split; [reflexivity|].
  destruct (recordFailure_lock_window (demoWorld (mkLockout 4 0) 5000) 5
              eq_refl) as [w' [E [_ [_ [_ [H5 _]]]]]].
  exists w'. split; [exact E|]. rewrite (H5 eq_refl). reflexivity.
Defined.

(** A login one second after the fifth failure is refused. *)
Lemma login_locked_witness :
  clock (demoWorld (mkLockout 5 65000) 6000)
  < lockUntilOf (items (demoWorld (mkLockout 5 65000) 6000))
  /\ login toyKDF toyEncode demoEmail demoPassword demoSalt 120
            (demoWorld (mkLockout 5 65000) 6000)
     = Ret (failed locked)
           (logged [Get LOCKOUT_KEY] (demoWorld (mkLockout 5 65000) 6000)).
Proof.
  split; [reflexivity|].
  apply (login_locked toyKDF toyEncode). reflexivity.
Defined.

(** The keep-alive on a session that expired four seconds ago. *)
Lemma refresh_extends_stored_session_witness :
  adminSession (items (adminSessionAt staleSession 5000)) = Some staleSession
  /\ exists w',
       refreshSession (adminSessionAt staleSession 5000) = Ret tt w'
       /\ value (isLoggedIn w') = Some true.
Proof.
  split; [reflexivity|].
  destruct (refresh_extends_stored_session (adminSessionAt staleSession 5000))
    as [_ [_ [H _]]].
  destruct (H staleSession eq_refl) as [w' [E [_ [_ Hl]]]].
  exists w'. split; [exact E | exact Hl].
Defined.

(** C5, as the spec states it, fails for the customer: the sign-up
    button accepts the password [abcdefgh], which has no digit, and
    stores a customer with it; [signupUser] accepts the password [a]. *)
Lemma signup_accepts_weak_password :
  strong (lit "abcdefgh") = false
  /\ option_map (option_map ok)
       (value
          (signupClick toyKDF toyEncode asciiLower
             (lit "Asha") (lit "asha@mail.in") (lit "98") (lit "Pune")
             (lit "abcdefgh") (lit "abcdefgh") demoSalt
             (lit "k3x9") (lit "p0q1") 100 (mkWorld emptyStorage 1000 [])))
     = Some (Some true)
  /\ option_map (@List.length User)
       (usersDB
          (items
             (after
                (signupClick toyKDF toyEncode asciiLower
                   (lit "Asha") (lit "asha@mail.in") (lit "98") (lit "Pune")
                   (lit "abcdefgh") (lit "abcdefgh") demoSalt
                   (lit "k3x9") (lit "p0q1") 100
                   (mkWorld emptyStorage 1000 [])))))
     = Some 1%nat
  /\ strong (lit "a") = false
  /\ option_map ok
       (value
          (signupUser toyKDF toyEncode asciiLower
             (lit "Asha") (lit "asha@mail.in") (lit "98") (lit "Pune")
             (lit "a") demoSalt (lit "k3x9") (lit "p0q1") 100
             (mkWorld emptyStorage 1000 [])))
     = Some true.
Proof. vm_compute. repeat split; reflexivity. Qed.

(** [setupAdmin] refuses the six code units of [short1] and accepts
    [abcd1234]. *)
Lemma setupAdmin_password_policy_witness :
  ((List.length (lit "short1") < 8)%nat
   /\ setupAdmin toyKDF toyEncode demoEmail (lit "short1") demoSalt 100
                  (mkWorld emptyStorage 1000 [])
      = Ret (failed weak) (mkWorld emptyStorage 1000 []))
  /\ ((8 <= List.length demoPassword)%nat
      /\ (exists c, In c demoPassword /\ is_alpha c = true)
      /\ (exists c, In c demoPassword /\ is_digit c = true)
      /\ exists w',
           setupAdmin toyKDF toyEncode demoEmail demoPassword demoSalt 100
                       (mkWorld emptyStorage 1000 [])
           = Ret ok_true w').
Proof.
  assert (Hs : (List.length (lit "short1") < 8)%nat) by (vm_compute; lia).
  assert (Hl : (8 <= List.length demoPassword)%nat) by (vm_compute; lia).
  assert (Ha : exists c, In c demoPassword /\ is_alpha c = true).
  { exists 97%N. split; [left; reflexivity | reflexivity]. }
  assert (Hd : exists c, In c demoPassword /\ is_digit c = true).
  { exists 49%N. split; [vm_compute; tauto | reflexivity]. }
  destruct (setupAdmin_password_policy toyKDF toyEncode asciiLower demoEmail
              (lit "short1") demoSalt 100 (mkWorld emptyStorage 1000 []))
    as [H1 _].
  destruct (setupAdmin_password_policy toyKDF toyEncode asciiLower demoEmail
              demoPassword demoSalt 100 (mkWorld emptyStorage 1000 []))
    as [_ [H2 _]].
  split.
  - split; [exact Hs | apply H1; left; exact Hs].
  - split; [exact Hl|]. split; [exact Ha|]. split; [exact Hd|].
    specialize (H2 Hl Ha Hd). cbv beta iota in H2.
    change (toyKDF (toyEncode demoPassword) demoSalt 150000)
      with (Some demoKey) in H2.
    destruct H2 as [w' [E _]]. exists w'. exact E.
Defined.

(** C6, as the spec states it, fails for [setupAdmin]: called while a
    record is stored, with another email and a strong password, it
    answers [ok] and replaces the record. *)
Lemma setupAdmin_replaces_stored_record :
  adminAuth (items (demoWorld (mkLockout 0 0) 5000)) = Some demoAuth
  /\ option_map ok
       (value
          (setupAdmin toyKDF toyEncode (lit "other@shop.in") (lit "zzzz9999")
             demoSalt 100 (demoWorld (mkLockout 0 0) 5000)))
     = Some true
  /\ option_map auth_email
       (adminAuth
          (items
             (after
                (setupAdmin toyKDF toyEncode (lit "other@shop.in")
                   (lit "zzzz9999") demoSalt 100
                   (demoWorld (mkLockout 0 0) 5000)))))
     = Some (lit "other@shop.in")
  /\ adminAuth
       (items
          (after
             (setupAdmin toyKDF toyEncode (lit "other@shop.in")
                (lit "zzzz9999") demoSalt 100
                (demoWorld (mkLockout 0 0) 5000))))
     <> Some demoAuth.
Proof.
  split; [reflexivity|]. split; [vm_compute; reflexivity|].
  split; [vm_compute; reflexivity|].
  vm_compute. discriminate.
Qed.

(** A second sign-up with the email of a stored customer, in another
    case, and a click on the administrator's button while a record is
    stored. *)
Lemma stored_records_survive_witness :
  ((exists u, In u (dbOf (items demoUserWorld))
              /\ asciiLower (user_email u) = asciiLower (lit "asha@mail.IN"))
   /\ signupUser toyKDF toyEncode asciiLower
        (lit "A") (lit "asha@mail.IN") (lit "1") (lit "P") (lit "abcd1234")
        demoSalt (lit "k3x9") (lit "p0q1") 100 demoUserWorld
      = Ret (failed exists_) (logged [Get USER_DB_KEY] demoUserWorld))
  /\ (adminAuth (items (demoWorld (mkLockout 0 0) 5000)) = Some demoAuth
      /\ adminAuth
           (items
              (exec toyKDF toyEncode asciiLower
                 (AdminClick (lit "other@shop.in") (lit "zzzz9999")
                             demoSalt demoSalt 100 100)
                 (demoWorld (mkLockout 0 0) 5000)))
         = Some demoAuth).
Proof.
  assert (Hu : exists u, In u (dbOf (items demoUserWorld))
                /\ asciiLower (user_email u) = asciiLower (lit "asha@mail.IN")).
  { exists demoUser. split; [left; reflexivity | reflexivity]. }
  split.
  - split; [exact Hu|].
    apply (stored_records_survive toyKDF toyEncode asciiLower demoUserWorld).
    exact Hu.
  - split; [reflexivity|].
    apply (stored_records_survive toyKDF toyEncode asciiLower
             (demoWorld (mkLockout 0 0) 5000)).
    reflexivity.
Defined.

(** A login with the right password at the very instant a lock window
    ends, after seven failures. *)
Lemma login_success_resets_witness :
  (adminAuth (items (demoWorld (mkLockout 7 5000) 5000)) = Some demoAuth
   /\ lockUntilOf (items (demoWorld (mkLockout 7 5000) 5000))
      <= clock (demoWorld (mkLockout 7 5000) 5000)
   /\ value (verifyPassword toyKDF toyEncode demoPassword demoAuth 120
               (demoWorld (mkLockout 7 5000) 5000)) = Some true
   /\ demoEmail = auth_email demoAuth)
  /\ exists w',
       login toyKDF toyEncode demoEmail demoPassword demoSalt 120
              (demoWorld (mkLockout 7 5000) 5000) = Ret ok_true w'
       /\ adminLockout (items w') = Some (mkLockout 0 0)
       /\ value (isLoggedIn w') = Some true.
Proof.
  assert (H1 : adminAuth (items (demoWorld (mkLockout 7 5000) 5000))
               = Some demoAuth) by reflexivity.
  assert (H2 : lockUntilOf (items (demoWorld (mkLockout 7 5000) 5000))
               <= clock (demoWorld (mkLockout 7 5000) 5000))
    by (vm_compute; discriminate).
  assert (H3 : value (verifyPassword toyKDF toyEncode demoPassword demoAuth 120
                        (demoWorld (mkLockout 7 5000) 5000)) = Some true)
    by (vm_compute; reflexivity).
  assert (H4 : demoEmail = auth_email demoAuth) by reflexivity.
  split; [auto|].
  destruct (login_success_resets toyKDF toyEncode demoEmail demoPassword
              demoSalt 120 (demoWorld (mkLockout 7 5000) 5000)) as [A B].
  destruct (A demoAuth H1 H2 H3 H4) as [w' E].
  exists w'. split; [exact E|].
  destruct (B ok_true w' E eq_refl) as [Hl [_ [_ [_ [_ Hs]]]]].
  split; [exact Hl | exact Hs].
Defined.

(** The record made from [abcd1234] rejects [wrong1234], on both
    pages. *)
Lemma verification_round_trip_witness :
  (value (hashPassword toyKDF toyEncode demoPassword (Some demoSalt) 150000
            [] 120 (mkWorld emptyStorage 0 []))
   = Some (mkHashed (toBase64 demoSalt) 150000 (toBase64 demoKey))
   /\ value (deriveKey toyKDF toyEncode demoPassword demoSalt 150000 120
               (mkWorld emptyStorage 0 [])) = Some demoKey
   /\ value (deriveKey toyKDF toyEncode (lit "wrong1234") demoSalt 150000 120
               (mkWorld emptyStorage 0 []))
      = toyKDF (toyEncode (lit "wrong1234")) demoSalt 150000
   /\ toyKDF (toyEncode (lit "wrong1234")) demoSalt 150000 <> Some demoKey)
  /\ value (verifyPassword toyKDF toyEncode (lit "wrong1234") demoAuth 120
              (mkWorld emptyStorage 0 [])) = Some false
  /\ value (verifyPassword toyKDF toyEncode demoPassword demoAuth 120
              (mkWorld emptyStorage 0 [])) = Some true
  /\ (value (pbkdf2 toyKDF toyEncode demoPassword demoSalt 150000 120
               (mkWorld emptyStorage 0 [])) = Some (toBase64 demoKey)
      /\ toyKDF (toyEncode demoPassword) demoSalt 150000 = Some demoKey)
  /\ exists salt,
       fromBase64 (toBase64 demoSalt) = Some salt
       /\ option_map (fun calc => negb (str_eqb calc (toBase64 demoKey)))
            (value (pbkdf2 toyKDF toyEncode (lit "wrong1234") salt 150000
                      120 (mkWorld emptyStorage 0 [])))
          = Some true.
Proof.
  assert (H1 : value (hashPassword toyKDF toyEncode demoPassword
                        (Some demoSalt) 150000 [] 120
                        (mkWorld emptyStorage 0 []))
               = Some (mkHashed (toBase64 demoSalt) 150000 (toBase64 demoKey)))
    by reflexivity.
  assert (H2 : value (deriveKey toyKDF toyEncode demoPassword demoSalt 150000
                        120 (mkWorld emptyStorage 0 [])) = Some demoKey)
    by reflexivity.
  destruct (toyKDF (toyEncode (lit "wrong1234")) demoSalt 150000)
    as [key'|] eqn:Hk; [|vm_compute in Hk; discriminate Hk].
  assert (H3 : value (deriveKey toyKDF toyEncode (lit "wrong1234") demoSalt
                        150000 120 (mkWorld emptyStorage 0 [])) = Some key').
  { rewrite <- Hk. reflexivity. }
  assert (H4 : key' <> demoKey).
  { intros ->. vm_compute in Hk. discriminate Hk. }
  assert (H5 : value (pbkdf2 toyKDF toyEncode demoPassword demoSalt 150000
                        120 (mkWorld emptyStorage 0 []))
               = Some (toBase64 demoKey)) by reflexivity.
  assert (H6 : toyKDF (toyEncode demoPassword) demoSalt 150000
               = Some demoKey) by reflexivity.
  destruct (verification_round_trip toyKDF toyEncode demoPassword demoSalt
              150000) as [_ [R [N [_ C]]]].
  split.
  - split; [exact H1|]. split; [exact H2|]. split; [exact H3|].
    intros E. injection E as E. exact (H4 E).
  - split.
    + exact (N (lit "wrong1234") [] 120 (mkWorld emptyStorage 0 [])
               (mkHashed (toBase64 demoSalt) 150000 (toBase64 demoKey))
               demoKey key' demoEmail 900 1 120 (mkWorld emptyStorage 0 [])
               H1 H2 H3 H4).
    + split.
      * specialize (R [] 120 (mkWorld emptyStorage 0 [])).
        rewrite H1 in R.
        exact (R demoEmail 900 1 120 (mkWorld emptyStorage 0 [])).
      * split; [split; [exact H5 | exact H6]|].
        destruct (C (lit "wrong1234") 120 (mkWorld emptyStorage 0 [])
                    (toBase64 demoKey) demoKey key' H5 H6 Hk H4)
          as [salt [Hs Hc]].
        exists salt. split; [exact Hs|].
        exact (Hc 120 (mkWorld emptyStorage 0 [])).
Defined.

(** The first click sets the administrator up and logs in; four
    clicks with a wrong password follow; the fifth such click makes
    [lockUntil] larger. *)
Lemma lockUntil_monotone_witness :
  (reachable toyKDF toyEncode asciiLower
     (run toyKDF toyEncode asciiLower
        (AdminClick demoEmail demoPassword demoSalt demoSalt 100 100
         :: repeat (AdminClick demoEmail (lit "wrong1234") demoSalt demoSalt
                               100 100) 4)
        (mkWorld emptyStorage 1000 []))
   /\ forward (AdminClick demoEmail (lit "wrong1234") demoSalt demoSalt
                          100 100))
  /\ lockUntilOf
       (items
          (run toyKDF toyEncode asciiLower
             (AdminClick demoEmail demoPassword demoSalt demoSalt 100 100
              :: repeat (AdminClick demoEmail (lit "wrong1234") demoSalt
                                    demoSalt 100 100) 4)
             (mkWorld emptyStorage 1000 [])))
     < lockUntilOf
         (items
            (exec toyKDF toyEncode asciiLower
               (AdminClick demoEmail (lit "wrong1234") demoSalt demoSalt
                           100 100)
               (run toyKDF toyEncode asciiLower
                  (AdminClick demoEmail demoPassword demoSalt demoSalt 100 100
                   :: repeat (AdminClick demoEmail (lit "wrong1234") demoSalt
                                         demoSalt 100 100) 4)
                  (mkWorld emptyStorage 1000 [])))).
Proof.
  assert (Hf : forward (AdminClick demoEmail (lit "wrong1234") demoSalt
                          demoSalt 100 100)) by (cbn; lia).
  assert (Hr : reachable toyKDF toyEncode asciiLower
                 (run toyKDF toyEncode asciiLower
                    (AdminClick demoEmail demoPassword demoSalt demoSalt
                                100 100
                     :: repeat (AdminClick demoEmail (lit "wrong1234")
                                           demoSalt demoSalt 100 100) 4)
                    (mkWorld emptyStorage 1000 []))).
  { apply reachable_run; [apply reach_init|].
    repeat constructor; cbn; lia. }
  split; [split; assumption|].
  destruct (lockUntil_monotone toyKDF toyEncode asciiLower _ _ Hr Hf)
    as [H|[H|[H _]]].
  - vm_compute in H. discriminate H.
  - exact H.
  - vm_compute in H. discriminate H.
Defined.

(** The right password with the email in another case. *)
Lemma login_checks_email_witness :
  (adminAuth (items (demoWorld (mkLockout 0 0) 5000)) = Some demoAuth
   /\ lockUntilOf (items (demoWorld (mkLockout 0 0) 5000))
      <= clock (demoWorld (mkLockout 0 0) 5000)
   /\ value (verifyPassword toyKDF toyEncode demoPassword demoAuth 120
               (demoWorld (mkLockout 0 0) 5000)) = Some true
   /\ lit "Admin@shop.in" <> auth_email demoAuth)
  /\ exists w',
       login toyKDF toyEncode (lit "Admin@shop.in") demoPassword demoSalt 120
              (demoWorld (mkLockout 0 0) 5000) = Ret (failed invalid) w'
       /\ count (lockoutOf (items w')) = 1.
Proof.
  assert (H1 : adminAuth (items (demoWorld (mkLockout 0 0) 5000))
               = Some demoAuth) by reflexivity.
  assert (H2 : lockUntilOf (items (demoWorld (mkLockout 0 0) 5000))
               <= clock (demoWorld (mkLockout 0 0) 5000))
    by (vm_compute; discriminate).
  assert (H3 : value (verifyPassword toyKDF toyEncode demoPassword demoAuth 120
                        (demoWorld (mkLockout 0 0) 5000)) = Some true)
    by (vm_compute; reflexivity).
  assert (H4 : lit "Admin@shop.in" <> auth_email demoAuth)
    by (vm_compute; discriminate).
  split; [auto|].
  destruct (login_checks_email toyKDF toyEncode (lit "Admin@shop.in")
              demoPassword demoSalt 120 (demoWorld (mkLockout 0 0) 5000))
    as [_ B].
  destruct (B demoAuth H1 H2 H3 H4) as [w' [E [Hc _]]].
  exists w'. split; [exact E|]. rewrite Hc. reflexivity.
Defined.

(** The scenario of the specification: set the administrator up with
    [abcd1234]; five logins with [wrong1234] lock the account for one
    minute from the fifth; a sixth login within the window is refused
    and changes nothing; after the window the right password logs in
    and the lockout record is [{ count: 0, lockUntil: 0 }]. *)
Example scenario_of_the_specification :
  adminLockout
    (items
       (run toyKDF toyEncode asciiLower
          (AdminClick demoEmail demoPassword demoSalt demoSalt 100 100
           :: repeat (AdminClick demoEmail (lit "wrong1234") demoSalt demoSalt
                                 100 100) 5)
          (mkWorld emptyStorage 1000 [])))
  = Some (mkLockout 5 61700)
  /\ adminLockout
       (items
          (run toyKDF toyEncode asciiLower
             (AdminClick demoEmail demoPassword demoSalt demoSalt 100 100
              :: repeat (AdminClick demoEmail (lit "wrong1234") demoSalt
                                    demoSalt 100 100) 5
              ++ [AdminClick demoEmail demoPassword demoSalt demoSalt 100 100])
             (mkWorld emptyStorage 1000 [])))
     = Some (mkLockout 5 61700)
  /\ adminLockout
       (items
          (run toyKDF toyEncode asciiLower
             (AdminClick demoEmail demoPassword demoSalt demoSalt 100 100
              :: repeat (AdminClick demoEmail (lit "wrong1234") demoSalt
                                    demoSalt 100 100) 5
              ++ [Tick 60000;
                  AdminClick demoEmail demoPassword demoSalt demoSalt 100 100])
             (mkWorld emptyStorage 1000 [])))
     = Some (mkLockout 0 0).
Proof. vm_compute. repeat split; reflexivity. Qed.

(* ===================================================================== *)
(** ** The further properties on examples *)
(* ===================================================================== *)

(** Sixteen bytes and their base64 text. *)
Lemma base64_round_trip_witness :
  toBase64 demoSalt = toBase64 demoSalt
  /\ fromBase64 (toBase64 demoSalt) = Some demoSalt
  /\ List.length (toBase64 demoSalt) = 24%nat.
Proof.
  destruct (base64_round_trip demoSalt) as [H1 [H2 H3]].
  split; [reflexivity|]. split; [exact H1|]. rewrite H3. reflexivity.
Defined.

(** The token of sixteen bytes has thirty-two characters. *)
Lemma createToken_faithful_witness :
  createToken demoSalt = createToken demoSalt
  /\ List.length (createToken demoSalt) = 32%nat
  /\ demoSalt = demoSalt.
Proof.
  destruct (createToken_faithful demoSalt) as [H1 [_ H3]].
  split; [reflexivity|]. split; [rewrite H1; reflexivity|].
  apply H3. reflexivity.
Defined.

(** The first click on a browser without storage. *)
Lemma first_click_sets_up_and_logs_in_witness :
  (adminAuth (items (mkWorld emptyStorage 1000 [])) = None
   /\ str_falsy demoEmail = false
   /\ str_falsy demoPassword = false
   /\ strong demoPassword = true
   /\ toyKDF (toyEncode demoPassword) demoSalt 150000 = Some demoKey
   /\ 0 <= clock (mkWorld emptyStorage 1000 []) + 100)
  /\ exists w',
       loginClick toyKDF toyEncode demoEmail demoPassword demoSalt demoSalt
                  100 100 (mkWorld emptyStorage 1000 [])
       = Ret (Some ok_true) w'
       /\ adminLockout (items w') = Some (mkLockout 0 0).
Proof.
  assert (H1 : adminAuth (items (mkWorld emptyStorage 1000 [])) = None)
    by reflexivity.
  assert (H2 : str_falsy demoEmail = false) by reflexivity.
  assert (H3 : str_falsy demoPassword = false) by reflexivity.
  assert (H4 : strong demoPassword = true) by reflexivity.
  assert (H5 : toyKDF (toyEncode demoPassword) demoSalt 150000 = Some demoKey)
    by reflexivity.
  assert (H6 : 0 <= clock (mkWorld emptyStorage 1000 []) + 100)
    by (cbn; lia).
  split; [auto 10|].
  destruct (first_click_sets_up_and_logs_in toyKDF toyEncode demoEmail
              demoPassword demoSalt demoSalt 100 100
              (mkWorld emptyStorage 1000 []) demoKey H1 H2 H3 H4 H5 H6)
    as [w' [E [_ [Hl _]]]].
  exists w'. split; [exact E | exact Hl].
Defined.

(** Twenty minutes after a keep-alive the administrator is still
    logged in. *)
Lemma session_window_witness :
  adminSession (items (adminSessionAt staleSession 500)) = Some staleSession
  /\ refreshSession (adminSessionAt staleSession 500)
     = Ret tt (after (refreshSession (adminSessionAt staleSession 500)))
  /\ value (isLoggedIn
              (later 1200000
                 (after (refreshSession (adminSessionAt staleSession 500)))))
     = Some true.
Proof.
  assert (H1 : adminSession (items (adminSessionAt staleSession 500))
               = Some staleSession) by reflexivity.
  assert (H2 : refreshSession (adminSessionAt staleSession 500)
               = Ret tt (after (refreshSession
                                  (adminSessionAt staleSession 500))))
    by reflexivity.
  split; [exact H1|]. split; [exact H2|].
  destruct (session_window toyKDF toyEncode (adminSessionAt staleSession 500)
              1200000) as [_ H].
  destruct (H staleSession _ H1 H2) as [Hv _].
  rewrite Hv. reflexivity.
Defined.

(** A sign-up, then a login with the email in capitals. *)
Lemma signup_then_loginUser_witness :
  exists o w' w'',
    signupUser toyKDF toyEncode asciiLower (lit "Asha") (lit "asha@mail.in")
      (lit "98") (lit "Pune") demoPassword demoSalt (lit "k3x9") (lit "p0q1")
      100 (mkWorld emptyStorage 1000 [])
    = Ret o w'
    /\ ok o = true
    /\ asciiLower (lit "ASHA@MAIL.IN") = asciiLower (lit "asha@mail.in")
    /\ loginUser toyKDF toyEncode asciiLower (lit "ASHA@MAIL.IN") demoPassword
         (lit "zz11") 50 w'
       = Ret o w''.
Proof.
  destruct (signupUser toyKDF toyEncode asciiLower (lit "Asha")
              (lit "asha@mail.in") (lit "98") (lit "Pune") demoPassword
              demoSalt (lit "k3x9") (lit "p0q1") 100
              (mkWorld emptyStorage 1000 [])) as [o w'|w'] eqn:E;
    [|vm_compute in E; discriminate E].
  assert (Hok : ok o = true).
  { vm_compute in E. injection E as <- _. reflexivity. }
  assert (H2 : asciiLower (lit "ASHA@MAIL.IN") = asciiLower (lit "asha@mail.in"))
    by (vm_compute; reflexivity).
  destruct (signup_then_loginUser toyKDF toyEncode asciiLower _ _ _ _ _ _ _ _
              _ _ _ _ E Hok) as [A _].
  destruct (A (lit "ASHA@MAIL.IN") (lit "zz11") 50 H2) as [u [w'' [_ [L _]]]].
  exists o, w', w''. auto.
Defined.

(** A login with an email that nobody signed up with. *)
Lemma loginUser_unknown_email_witness :
  (forall u, In u (dbOf (items demoUserWorld)) ->
             asciiLower (user_email u) <> asciiLower (lit "nobody@mail.in"))
  /\ loginUser toyKDF toyEncode asciiLower (lit "nobody@mail.in") demoPassword
       (lit "zz11") 50 demoUserWorld
     = Ret (mkOutcome false None None)
           (logged [Get USER_DB_KEY] demoUserWorld).
Proof.
  assert (H : forall u, In u (dbOf (items demoUserWorld)) ->
                asciiLower (user_email u) <> asciiLower (lit "nobody@mail.in")).
  { intros u [<-|[]]. vm_compute. discriminate. }
  split; [exact H|].
  apply (loginUser_unknown_email toyKDF toyEncode asciiLower). exact H.
Defined.

(** A first upsert on an empty list. *)
Lemma upsertAdminUsers_upserts_witness :
  exists w',
    upsertAdminUsers (lit "Asha") (lit "asha@mail.in") (lit "98") (lit "Pune")
      (lit "k3x9") (mkWorld emptyStorage 1000 []) = Ret tt w'
    /\ List.length (usersOf (items w')) = 1%nat.
Proof.
  destruct (upsertAdminUsers_upserts (lit "Asha") (lit "asha@mail.in")
              (lit "98") (lit "Pune") (lit "k3x9")
              (mkWorld emptyStorage 1000 []))
    as [w' [i [id [E [_ [_ [_ [H _]]]]]]]].
  exists w'. split; [exact E|].
  change (findIndex (same_contact (lit "98") (lit "asha@mail.in"))
            (usersOf (items (mkWorld emptyStorage 1000 []))))
    with (@None nat) in H.
  cbv beta iota in H. destruct H as [_ H]. rewrite H. reflexivity.
Defined.


(** Five wrong passwords after the set-up: the lock that follows is
    sound. *)
Lemma reachable_lockout_well_formed_witness :
  reachable toyKDF toyEncode asciiLower
    (run toyKDF toyEncode asciiLower
       (AdminClick demoEmail demoPassword demoSalt demoSalt 100 100
        :: repeat (AdminClick demoEmail (lit "wrong1234") demoSalt demoSalt
                              100 100) 5)
       (mkWorld emptyStorage 1000 []))
  /\ lockout_well_formed
       (run toyKDF toyEncode asciiLower
          (AdminClick demoEmail demoPassword demoSalt demoSalt 100 100
           :: repeat (AdminClick demoEmail (lit "wrong1234") demoSalt demoSalt
                                 100 100) 5)
          (mkWorld emptyStorage 1000 [])).
Proof.
  assert (Hr : reachable toyKDF toyEncode asciiLower
                 (run toyKDF toyEncode asciiLower
                    (AdminClick demoEmail demoPassword demoSalt demoSalt
                                100 100
                     :: repeat (AdminClick demoEmail (lit "wrong1234")
                                           demoSalt demoSalt 100 100) 5)
                    (mkWorld emptyStorage 1000 []))).
  { apply reachable_run; [apply reach_init|].
    repeat constructor; cbn; lia. }
  split; [exact Hr|].
  apply (reachable_lockout_well_formed toyKDF toyEncode asciiLower _ Hr).
Defined.


(** Two sign-ups with the same email in two cases: one customer is
    stored. *)
Lemma reachable_emails_distinct_witness :
  reachable toyKDF toyEncode asciiLower
    (run toyKDF toyEncode asciiLower
       [SignupClick (lit "Asha") (lit "asha@mail.in") (lit "98") (lit "Pune")
          demoPassword demoPassword demoSalt (lit "k3x9") (lit "p0q1") 100;
        SignupClick (lit "Asha") (lit "ASHA@MAIL.IN") (lit "98") (lit "Pune")
          demoPassword demoPassword demoSalt (lit "m4n5") (lit "r6s7") 100]
       (mkWorld emptyStorage 1000 []))
  /\ emails_distinct asciiLower
       (run toyKDF toyEncode asciiLower
          [SignupClick (lit "Asha") (lit "asha@mail.in") (lit "98")
             (lit "Pune") demoPassword demoPassword demoSalt (lit "k3x9")
             (lit "p0q1") 100;
           SignupClick (lit "Asha") (lit "ASHA@MAIL.IN") (lit "98")
             (lit "Pune") demoPassword demoPassword demoSalt (lit "m4n5")
             (lit "r6s7") 100]
          (mkWorld emptyStorage 1000 [])).
Proof.
  assert (Hr : reachable toyKDF toyEncode asciiLower
                 (run toyKDF toyEncode asciiLower
                    [SignupClick (lit "Asha") (lit "asha@mail.in") (lit "98")
                       (lit "Pune") demoPassword demoPassword demoSalt
                       (lit "k3x9") (lit "p0q1") 100;
                     SignupClick (lit "Asha") (lit "ASHA@MAIL.IN") (lit "98")
                       (lit "Pune") demoPassword demoPassword demoSalt
                       (lit "m4n5") (lit "r6s7") 100]
                    (mkWorld emptyStorage 1000 []))).
  { apply reachable_run; [apply reach_init|].
    repeat constructor; cbn; lia. }
  split; [exact Hr|].
  apply (reachable_emails_distinct toyKDF toyEncode asciiLower _ Hr).
Defined.

(** A sign-up, ten minutes, then a keep-alive: the customer's session
    is sound. *)
Lemma reachable_user_session_well_formed_witness :
  reachable toyKDF toyEncode asciiLower
    (run toyKDF toyEncode asciiLower
       [SignupClick (lit "Asha") (lit "asha@mail.in") (lit "98") (lit "Pune")
          demoPassword demoPassword demoSalt (lit "k3x9") (lit "p0q1") 100;
        Tick 600000; UserActivity]
       (mkWorld emptyStorage 1000 []))
  /\ user_session_well_formed
       (run toyKDF toyEncode asciiLower
          [SignupClick (lit "Asha") (lit "asha@mail.in") (lit "98")
             (lit "Pune") demoPassword demoPassword demoSalt (lit "k3x9")
             (lit "p0q1") 100;
           Tick 600000; UserActivity]
          (mkWorld emptyStorage 1000 [])).
Proof.
  assert (Hr : reachable toyKDF toyEncode asciiLower
                 (run toyKDF toyEncode asciiLower
                    [SignupClick (lit "Asha") (lit "asha@mail.in") (lit "98")
                       (lit "Pune") demoPassword demoPassword demoSalt
                       (lit "k3x9") (lit "p0q1") 100;
                     Tick 600000; UserActivity]
                    (mkWorld emptyStorage 1000 []))).
  { apply reachable_run; [apply reach_init|].
    repeat constructor; cbn; lia. }
  split; [exact Hr|].
  apply (reachable_user_session_well_formed toyKDF toyEncode asciiLower _ Hr).
Defined.

(** The same identifier from two worlds: the clocks agree. *)
Lemma generateId_injective_witness :
  value (generateId (lit "user") (lit "k3x9") (mkWorld emptyStorage 1000 []))
  = value (generateId (lit "user") (lit "k3x9")
             (mkWorld emptyStorage 1000 [Get AUTH_KEY]))
  /\ clock (mkWorld emptyStorage 1000 [])
     = clock (mkWorld emptyStorage 1000 [Get AUTH_KEY]).
Proof.
  assert (H : value (generateId (lit "user") (lit "k3x9")
                       (mkWorld emptyStorage 1000 []))
              = value (generateId (lit "user") (lit "k3x9")
                         (mkWorld emptyStorage 1000 [Get AUTH_KEY])))
    by reflexivity.
  split; [exact H|].
  apply (generateId_injective (lit "user") (lit "k3x9") (lit "k3x9") _ _ H).
Defined.

(** A pending order, toggled twice. *)
Lemma toggleOrderStatus_flips_witness :
  findIndex (fun o => str_eqb (ord_id o) (lit "ord_1_aaaa"))
            (ordersOf demoBrowser) = Some 0%nat
  /\ exists b',
       toggleOrderStatus (lit "ord_1_aaaa") demoBrowser = @BRet unit tt b'
       /\ nth_error (ordersOf b') 0
          = Some (set_status demoOrder (lit "completed"))
       /\ toggleOrderStatus (lit "ord_1_aaaa") b' = @BRet unit tt demoBrowser.
Proof.
  assert (H : findIndex (fun o => str_eqb (ord_id o) (lit "ord_1_aaaa"))
                        (ordersOf demoBrowser) = Some 0%nat)
    by reflexivity.
  split; [exact H|].
  destruct (toggleOrderStatus_flips (lit "ord_1_aaaa") demoBrowser) as [_ T].
  destruct (T 0%nat H) as [o [b' [Ho [_ [E [_ [_ [Hn [_ [_ Hback]]]]]]]]]].
  assert (Eo : o = demoOrder) by (cbn in Ho; congruence).
  subst o.
  exists b'. split; [exact E|]. split; [exact Hn|].
  apply Hback. left. reflexivity.
Defined.

(** An order for a stored product, with every field filled in. *)
Lemma submitOrder_never_stores_witness :
  (exists pid product,
      Some (lit "prod_1_bbbb") = Some pid
      /\ str_falsy pid = false
      /\ str_falsy (lit "Asha") || str_falsy (lit "Pune")
         || str_falsy (lit "9876543210") = false
      /\ find (fun p => str_eqb (prod_id p) pid) (productsOf demoBrowser)
         = Some product)
  /\ bvalue (submitOrder (Some (lit "prod_1_bbbb")) (lit "Asha") (lit "Pune")
               (lit "9876543210") [] (lit "k3x9") (lit "p0q1") demoBrowser)
     = None
  /\ orders (bafter (submitOrder (Some (lit "prod_1_bbbb")) (lit "Asha")
                       (lit "Pune") (lit "9876543210") [] (lit "k3x9")
                       (lit "p0q1") demoBrowser))
     = Some [demoOrder].
Proof.
  assert (H : exists pid product,
             Some (lit "prod_1_bbbb") = Some pid
             /\ str_falsy pid = false
             /\ str_falsy (lit "Asha") || str_falsy (lit "Pune")
                || str_falsy (lit "9876543210") = false
             /\ find (fun p => str_eqb (prod_id p) pid)
                     (productsOf demoBrowser)
                = Some product).
  { exists (lit "prod_1_bbbb"), demoProduct. repeat split; reflexivity. }
  split; [exact H|].
  destruct (submitOrder_never_stores (Some (lit "prod_1_bbbb")) (lit "Asha")
              (lit "Pune") (lit "9876543210") [] (lit "k3x9") (lit "p0q1")
              demoBrowser) as [Ho [_ [_ [_ Hv]]]].
  split; [exact (Hv H) | exact Ho].
Defined.

(** The shortest address the pattern accepts. *)
Lemma validateEmail_accepts_witness :
  validateEmail (lit "a@b.c") = true
  /\ (5 <= List.length (lit "a@b.c"))%nat
  /\ In 64%N (lit "a@b.c").
Proof.
  assert (H : validateEmail (lit "a@b.c") = true) by (vm_compute; reflexivity).
  split; [exact H|].
  destruct (validateEmail_accepts (lit "a@b.c")) as [_ K].
  destruct (K H) as [K1 [K2 _]]. split; assumption.
Defined.

(** A number of ten digits. *)
Lemma validatePhone_accepts_witness :
  validatePhone (lit "9876543210") = true
  /\ (10 <= List.length (lit "9876543210") <= 16)%nat.
Proof.
  assert (H : validatePhone (lit "9876543210") = true)
    by (vm_compute; reflexivity).
  split; [exact H|].
  destruct (validatePhone_accepts (lit "9876543210")) as [_ K].
  exact (K H).
Defined.

(** A valid form, saved on an empty browser. *)
Lemma saveProfileClick_validates_witness :
  (str_falsy (lit "Asha") = false
   /\ validateEmail (lit "a@b.c") = true
   /\ validatePhone (lit "9876543210") = true
   /\ str_falsy (lit "Pune") = false)
  /\ exists w',
       saveProfileClick (lit "Asha") (lit "a@b.c") (lit "9876543210")
         (lit "Pune") [] (lit "k3x9") (mkWorld emptyStorage 1000 [])
       = Ret tt w'
       /\ profile (items w')
          = Some (mkProfile (lit "Asha") (lit "a@b.c") (lit "9876543210")
                            (lit "Pune") []).
Proof.
  assert (H1 : str_falsy (lit "Asha") = false) by reflexivity.
  assert (H2 : validateEmail (lit "a@b.c") = true)
    by (vm_compute; reflexivity).
  assert (H3 : validatePhone (lit "9876543210") = true)
    by (vm_compute; reflexivity).
  assert (H4 : str_falsy (lit "Pune") = false) by reflexivity.
  split; [auto|].
  destruct (saveProfileClick_validates (lit "Asha") (lit "a@b.c")
              (lit "9876543210") (lit "Pune") [] (lit "k3x9")
              (mkWorld emptyStorage 1000 [])) as [_ K].
  destruct (K H1 H2 H3 H4) as [w' [i [id [E [P _]]]]].
  exists w'. split; assumption.
Defined.

(** Twenty minutes after a keep-alive the customer is still logged
    in. *)
Lemma user_session_window_witness :
  userSession (items (userSessionAt staleUserSession 500))
  = Some staleUserSession
  /\ refreshUserSession (userSessionAt staleUserSession 500)
     = Ret tt (after (refreshUserSession (userSessionAt staleUserSession 500)))
  /\ value (isUserLoggedIn
              (later 1200000
                 (after (refreshUserSession
                           (userSessionAt staleUserSession 500)))))
     = Some true.
Proof.
  assert (H1 : userSession (items (userSessionAt staleUserSession 500))
               = Some staleUserSession) by reflexivity.
  assert (H2 : refreshUserSession (userSessionAt staleUserSession 500)
               = Ret tt (after (refreshUserSession
                                  (userSessionAt staleUserSession 500))))
    by reflexivity.
  split; [exact H1|]. split; [exact H2|].
  destruct (user_session_window toyKDF toyEncode asciiLower
              (userSessionAt staleUserSession 500) 1200000) as [_ H].
  rewrite (H staleUserSession _ H1 H2). reflexivity.
Defined.

(** A query and a longer one that contains it. *)
Lemma searchProducts_narrows_witness :
  (exists x y,
      asciiLower (trim (or_empty (lit "Marble Idol")))
      = x ++ asciiLower (trim (or_empty (lit " marble"))) ++ y)
  /\ exists found found',
       searchProducts asciiLower (lit " marble") demoBrowser
       = @BRet (list Product) found demoBrowser
       /\ searchProducts asciiLower (lit "Marble Idol") demoBrowser
          = @BRet (list Product) found' demoBrowser
       /\ incl found' found.
Proof.
  assert (H : exists x y,
             asciiLower (trim (or_empty (lit "Marble Idol")))
             = x ++ asciiLower (trim (or_empty (lit " marble"))) ++ y).
  { exists [], (lit " idol"). vm_compute. reflexivity. }
  split; [exact H|].
  destruct (searchProducts_narrows asciiLower (lit " marble")
              (lit "Marble Idol") demoBrowser)
    as [found [found' [E1 [E2 [_ [_ K]]]]]].
  exists found, found'. split; [exact E1|]. split; [exact E2|].
  exact (K H).
Defined.
